(** * labplatform: index-consistent record contracts over a Fabric ledger

    A shallow embedding of the four chaincodes of the repository
    (chaincode/class, chaincode/lab, chaincode/instance and
    chaincode/submission) and of the parts of the Fabric shim they call,
    followed by the properties of the record store that the design document
    states about them.

    Go strings and byte slices are sequences of bytes; both are modelled by
    [string].  A Go [error] is modelled by its message.  A contract function
    [f(ctx, args) (T, error)] becomes [f args : Tx T], a computation over the
    transaction context that threads the world state and may stop early with
    an error, exactly where the Go source returns a non-nil [err]. *)

From Stdlib Require Import ZArith String Ascii DecimalString DecimalN DecimalPos.
From stdpp Require Import gmap strings list sorting.

Local Open Scope string_scope.

(** ** Go values *)

Abbreviation bytes := string (only parsing).

(** [(T, error)] with the convention that exactly one side is meaningful. *)
Inductive result (A : Type) : Type :=
  | Ok (a : A)
  | Err (e : string).
Arguments Ok {A} a.
Arguments Err {A} e.

Definition is_ok {A} (r : result A) : bool :=
  match r with Ok _ => true | Err _ => false end.

(** The conversion [int32(n)] of a 64-bit [int]: the low 32 bits, read as a
    two's complement number. *)
Definition int32 (n : Z) : Z :=
  ((n + 2 ^ 31) mod 2 ^ 32 - 2 ^ 31)%Z.

(** The double quote character, for the query strings and the sample codec. *)
Definition dq : string := String "034" "".

(** ** encoding/json and encoding/base64

    Both are libraries outside the repository.  They are taken as interfaces:
    every record kind comes with a [Json] instance, and the development only
    relies on the laws of [JsonLaws]. *)

Class Json (A : Type) : Type := {
  json_Marshal : A -> result bytes;
  json_Unmarshal : bytes -> result A;
}.

(** The one-byte value stored under every index key ([[]byte{0x00}]). *)
Definition value : bytes := String "000" "".

Class JsonLaws (A : Type) `{Json A} : Prop := {
  (** Marshalling a flat struct of strings and numbers never fails and the
      text it produces reads back as the same struct.  This is
      [encoding/json] on structs whose strings are valid UTF-8: in a string
      that is not, [Marshal] replaces the offending bytes by U+FFFD.  The
      theorems that follow a text of the caller through [Marshal] and back
      name that condition ([utf8]). *)
  json_roundtrip : forall a : A,
    exists b, json_Marshal a = Ok b /\ json_Unmarshal b = Ok a;
  (** JSON text is never empty. *)
  json_nonempty : forall (a : A) b, json_Marshal a = Ok b -> b <> "";
  (** A single NUL byte is not JSON text. *)
  json_value_invalid : exists e, @json_Unmarshal A _ value = Err e;
}.

Class Base64 : Type := {
  base64_DecodeString : string -> result string;
}.

(** ** The transaction context *)

(** [cid.ClientIdentity]: what the identity provider gives for the
    submitting client, the (base64 encoded) identity string, or the error of
    reading it, and the attributes of the client's certificate. *)
Record ClientIdentity : Type := {
  GetID : result string;
  attributes : list (string * string);
}.

Fixpoint GetAttributeValue (attrs : list (string * string))
    (attrName : string) : option string :=
  match attrs with
  | [] => None
  | (k, v) :: rest =>
      if decide (k = attrName) then Some v else GetAttributeValue rest attrName
  end.

Definition AssertAttributeValue (c : ClientIdentity)
    (attrName attrValue : string) : result unit :=
  match GetAttributeValue (attributes c) attrName with
  | None => Err ("Attribute '" +:+ attrName +:+ "' was not found")
  | Some val =>
      if decide (val = attrValue) then Ok tt
      else Err ("Attribute '" +:+ attrName +:+ "' equals '" +:+ val
                +:+ "', not '" +:+ attrValue +:+ "'")
  end.

(** The world state of one chaincode namespace. *)
Abbreviation WorldState := (gmap string string) (only parsing).

(** One transaction context.  [faults] is the outcome the ledger gives to each
    coming stub call that talks to the peer, in order: [None] lets the call
    through, [Some e] makes it fail with [e]; calls past the end of the list
    go through. *)
Record TransactionContext : Type := mkCtx {
  clientIdentity : ClientIdentity;
  state : gmap string string;
  faults : list (option string);
}.

Definition Tx (A : Type) : Type :=
  TransactionContext -> result A * TransactionContext.

Definition ret {A} (a : A) : Tx A := fun c => (Ok a, c).
Definition throw {A} (e : string) : Tx A := fun c => (Err e, c).

Definition bind {A B} (m : Tx A) (k : A -> Tx B) : Tx B :=
  fun c =>
    match m c with
    | (Ok a, c') => k a c'
    | (Err e, c') => (Err e, c')
    end.

Notation "'let*' x ':=' m 'in' k" := (bind m (fun x => k))
  (at level 10, x pattern, m at level 100, k at level 200).

(** [v, err := f(); if err != nil { return fmt.Errorf(..., err) }] *)
Definition wrapErr {A} (f : string -> string) (m : Tx A) : Tx A :=
  fun c =>
    match m c with
    | (Ok a, c') => (Ok a, c')
    | (Err e, c') => (Err (f e), c')
    end.

(** [err := f(); if err != nil { return r }] for a function result [r] that
    need not be the error: [onErr] maps the error to what is returned. *)
Definition orReturn {A B} (m : Tx A) (onErr : string -> result B)
    (k : A -> Tx B) : Tx B :=
  fun c =>
    match m c with
    | (Ok a, c') => k a c'
    | (Err e, c') => (onErr e, c')
    end.

(** A pure library call that returns [(T, error)]. *)
Definition lift {A} (r : result A) : Tx A :=
  fun c => (r, c).

(** [defer f()]: [f] runs when the function returns, whatever it returns,
    and what [f] itself returns is dropped. *)
Definition defer {A B} (f : Tx B) (body : Tx A) : Tx A :=
  fun c =>
    match body c with
    | (r, c') => (r, (f c').2)
    end.

(** ** The chaincode stub *)

Module shim.

Definition KV : Type := string * string.

Record QueryResponseMetadata : Type := {
  FetchedRecordsCount : Z;
  Bookmark : string;
}.

(** [StateQueryIteratorInterface]: the entries [Next] will return, in order;
    an entry may be the error [Next] reports. *)
Definition StateQueryIterator : Type := list (result KV).

(** One message to the peer: it fails when the ledger says so. *)
Definition peer : Tx unit :=
  fun c =>
    match faults c with
    | [] => (Ok tt, c)
    | None :: fs => (Ok tt, mkCtx (clientIdentity c) (state c) fs)
    | Some e :: fs => (Err e, mkCtx (clientIdentity c) (state c) fs)
    end.

Definition read {A} (f : gmap string string -> A) : Tx A :=
  fun c => (Ok (f (state c)), c).

Definition write (f : gmap string string -> gmap string string) : Tx unit :=
  fun c => (Ok tt, mkCtx (clientIdentity c) (f (state c)) (faults c)).

(** [GetState]: [None] is the nil slice of an absent key. *)
Definition GetState (key : string) : Tx (option bytes) :=
  let* _ := peer in
  read (fun w => w !! key).

(** [PutState]: refuses the empty key; an empty value deletes the key (the
    source says so where it writes its index entries). *)
Definition PutState (key : string) (val : bytes) : Tx unit :=
  if decide (key = "") then throw "key must not be an empty string"
  else
    let* _ := peer in
    write (fun w => if decide (val = "") then delete key w else <[key := val]> w).

(** [DelState]: deleting an absent key succeeds. *)
Definition DelState (key : string) : Tx unit :=
  let* _ := peer in
  write (fun w => delete key w).


(** *** Composite keys *)

(** The code points of a string, as [for _, r := range str] yields them once
    [utf8.ValidString] holds; [None] for a string that is not valid UTF-8. *)
Definition between (lo hi : N) (a : ascii) : bool :=
  ((lo <=? N_of_ascii a) && (N_of_ascii a <=? hi))%N.

Definition cont (a : ascii) : N := (N_of_ascii a - 0x80)%N.

(** For a leading byte: how many continuation bytes follow and the range the
    first of them must lie in. *)
Definition accept (n0 : N) : option (nat * N * N) :=
  (if (0xC2 <=? n0) && (n0 <=? 0xDF) then Some (1%nat, 0x80, 0xBF)
   else if n0 =? 0xE0 then Some (2%nat, 0xA0, 0xBF)
   else if (0xE1 <=? n0) && (n0 <=? 0xEC) then Some (2%nat, 0x80, 0xBF)
   else if n0 =? 0xED then Some (2%nat, 0x80, 0x9F)
   else if (0xEE <=? n0) && (n0 <=? 0xEF) then Some (2%nat, 0x80, 0xBF)
   else if n0 =? 0xF0 then Some (3%nat, 0x90, 0xBF)
   else if (0xF1 <=? n0) && (n0 <=? 0xF3) then Some (3%nat, 0x80, 0xBF)
   else if n0 =? 0xF4 then Some (3%nat, 0x80, 0x8F)
   else None)%N.

Fixpoint runes (s : string) : option (list N) :=
  match s with
  | "" => Some []
  | String b0 s1 =>
      let n0 := N_of_ascii b0 in
      if (n0 <? 0x80)%N then cons n0 <$> runes s1
      else
        match accept n0, s1 with
        | Some (1%nat, lo, hi), String b1 s2 =>
            if between lo hi b1
            then cons ((n0 - 0xC0) * 64 + cont b1)%N <$> runes s2
            else None
        | Some (2%nat, lo, hi), String b1 (String b2 s3) =>
            if between lo hi b1 && between 0x80 0xBF b2
            then cons (((n0 - 0xE0) * 64 + cont b1) * 64 + cont b2)%N
                   <$> runes s3
            else None
        | Some (3%nat, lo, hi), String b1 (String b2 (String b3 s4)) =>
            if between lo hi b1 && between 0x80 0xBF b2 && between 0x80 0xBF b3
            then cons ((((n0 - 0xF0) * 64 + cont b1) * 64 + cont b2) * 64
                       + cont b3)%N <$> runes s4
            else None
        | _, _ => None
        end
  end.

Definition minUnicodeRuneValue : N := 0.
Definition maxUnicodeRuneValue : N := 0x10FFFF.
Definition compositeKeyNamespace : string := String "000" "".
Definition emptyKeySubstitute : string := String "001" "".

(** [string(minUnicodeRuneValue)], the terminator of every key segment. *)
Definition sep : string := String "000" "".

Definition validateCompositeKeyAttribute (str : string) : result unit :=
  match runes str with
  | None => Err "not a valid utf8 string"
  | Some rs =>
      if existsb (fun r => (r =? minUnicodeRuneValue)
                           || (r =? maxUnicodeRuneValue))%N rs
      then Err "input contains a unicode rune that is not allowed in the input attribute of a composite key"
      else Ok tt
  end.

(** The loop of [CreateCompositeKey] over the attributes. *)
Fixpoint addAttributes (ck : string) (attributes : list string)
  : result string :=
  match attributes with
  | [] => Ok ck
  | att :: rest =>
      match validateCompositeKeyAttribute att with
      | Err e => Err e
      | Ok _ => addAttributes (ck +:+ att +:+ sep) rest
      end
  end.

Definition CreateCompositeKey (objectType : string) (attributes : list string)
  : result string :=
  match validateCompositeKeyAttribute objectType with
  | Err e => Err e
  | Ok _ =>
      addAttributes (compositeKeyNamespace +:+ objectType +:+ sep) attributes
  end.

(** The loop of [splitCompositeKey]: [cur] is the component being read; what
    follows the last terminator is dropped. *)
Fixpoint components (cur : string) (s : string) : list string :=
  match s with
  | "" => []
  | String c s' =>
      if decide (c = "000"%char) then cur :: components "" s'
      else components (cur +:+ String c "") s'
  end.

(** [SplitCompositeKey]: the object type and the attributes.  The first byte
    is skipped; [None] where the Go code indexes an empty slice. *)
Definition SplitCompositeKey (compositeKey : string)
  : option (string * list string) :=
  match compositeKey with
  | "" => None
  | String _ s =>
      match components "" s with
      | [] => None
      | objectType :: attributes => Some (objectType, attributes)
      end
  end.

(** *** Range scans and queries *)

Definition validateSimpleKeys (simpleKeys : list string) : result unit :=
  if existsb (fun key => String.prefix compositeKeyNamespace key) simpleKeys
  then Err "first character of the key contains a null character which is not allowed"
  else Ok tt.

Definition key_le (a b : KV) : Prop := String.leb a.1 b.1.

#[global] Instance key_le_dec : RelDecision key_le.
Proof. intros a b. unfold key_le. apply _. Defined.

(** The entries of the world state in key order. *)
Definition entries (w : gmap string string) : list KV :=
  merge_sort key_le (map_to_list w).

(** [startKey <= k < endKey]; an empty [endKey] is unbounded. *)
Definition in_range (startKey endKey k : string) : bool :=
  String.leb startKey k
  && (if decide (endKey = "") then true else String.ltb k endKey).

Definition range (startKey endKey : string) (w : gmap string string)
  : list KV :=
  filter (fun kv => in_range startKey endKey kv.1) (entries w).

Definition GetStateByRange (startKey endKey : string)
  : Tx StateQueryIterator :=
  let startKey :=
    if decide (startKey = "") then emptyKeySubstitute else startKey in
  let* _ := lift (validateSimpleKeys [startKey; endKey]) in
  let* _ := peer in
  read (fun w => Ok <$> range startKey endKey w).

(** What the state database answers to rich queries and to paginated calls.
    The query language, the page limits and the bookmarks are the
    database's; the contracts only pass them through. *)
Class StateDB : Type := {
  db_query : string -> gmap string string -> result (list KV);
  db_query_page : string -> Z -> string -> gmap string string
                  -> result (list KV * QueryResponseMetadata);
  db_range_page : string -> string -> Z -> string -> gmap string string
                  -> result (list KV * QueryResponseMetadata);
}.

(** [resultsIterator.Close]: one message to the peer. *)
Definition Close (resultsIterator : StateQueryIterator) : Tx unit := peer.

Definition answer {A} (f : gmap string string -> result A) : Tx A :=
  fun c => (f (state c), c).

Definition GetQueryResult `{StateDB} (query : string)
  : Tx StateQueryIterator :=
  let* _ := peer in
  let* kvs := answer (db_query query) in
  ret (Ok <$> kvs).

Definition GetQueryResultWithPagination `{StateDB}
    (query : string) (pageSize : Z) (bookmark : string)
  : Tx (StateQueryIterator * QueryResponseMetadata) :=
  let* _ := peer in
  let* r := answer (db_query_page query pageSize bookmark) in
  ret (Ok <$> r.1, r.2).

Definition GetStateByRangeWithPagination `{StateDB}
    (startKey endKey : string) (pageSize : Z) (bookmark : string)
  : Tx (StateQueryIterator * QueryResponseMetadata) :=
  let startKey :=
    if decide (startKey = "") then emptyKeySubstitute else startKey in
  let* _ := lift (validateSimpleKeys [startKey; endKey]) in
  let* _ := peer in
  let* r := answer (db_range_page startKey endKey pageSize bookmark) in
  ret (Ok <$> r.1, r.2).

End shim.

(** A call on [ctx.GetClientIdentity()]. *)
Definition client {A} (f : ClientIdentity -> result A) : Tx A :=
  fun c => (f (clientIdentity c), c).

(** [s] between double quotes, as the query strings of the source spell
    their keys and values. *)
Definition q (s : string) : string := dq +:+ s +:+ dq.

(** The loop every chaincode runs over a result iterator
    ([constructQueryResponseFromIterator] and the loops of [ReadLabs] and
    [GetAllClassses]): [records] is the slice built so far.  The first entry
    that [Next] fails on, or whose value [json.Unmarshal] rejects, ends the
    loop with that error. *)
Fixpoint iterate {A} `{Json A} (records : list A)
    (resultsIterator : shim.StateQueryIterator) : result (list A) :=
  match resultsIterator with
  | [] => Ok records
  | queryResult :: rest =>
      match queryResult with
      | Err e => Err e
      | Ok kv =>
          match json_Unmarshal kv.2 with
          | Err e => Err e
          | Ok r => iterate (records ++ [r]) rest
          end
      end
  end.

(** ** chaincode/lab *)

Module lab.
Import shim.

Record Lab : Type := mkLab {
  DocType : string;
  ID : string;
  ClassID : string;
  Name : string;
  Content : string;
  Image : string;
  StartTime : string;
  EndTime : string;
  Owner : string;
}.

Definition index : string := "classID~name".

Record PaginatedQueryResult : Type := {
  Labs : list Lab;
  FetchedRecordsCount : Z;
  Bookmark : string;
}.

(** The slice [labs] of [InitLedger]. *)
Definition labs : list Lab :=
  [ mkLab "lab" "lab1" "class1" "class1" "test" "1" "2022" "2022" "Tom";
    mkLab "lab" "lab2" "class1" "class1" "test" "1" "2022" "2022" "Tom";
    mkLab "lab" "lab3" "class1" "class1" "test" "1" "2022" "2022" "Tom" ].

Section contract.
Context `{Json Lab} `{StateDB}.

Definition LabExists (labID : string) : Tx bool :=
  let* labBytes :=
    wrapErr (fun e => "failed to read lab " +:+ labID
                      +:+ " from world state. " +:+ e)
            (GetState labID) in
  ret (bool_decide (labBytes <> None)).

(** The [fmt.Println] of the marshalled bytes only writes to the log. *)
Definition CreateLab
    (labID classID name content image startTime endTime owner : string)
  : Tx unit :=
  let* exists_ :=
    wrapErr (fun e => "failed to get lab: " +:+ e) (LabExists labID) in
  if exists_ : bool then throw ("lab already exists: " +:+ labID)
  else
    let lab := {| DocType := "lab"; ID := labID; ClassID := classID;
                  Name := name; Content := content; Image := image;
                  StartTime := startTime; EndTime := endTime;
                  Owner := owner |} in
    let* classBytes := lift (json_Marshal lab) in
    let* _ := PutState labID classBytes in
    let* labNameIndexKey :=
      lift (CreateCompositeKey index [ClassID lab; ID lab]) in
    PutState labNameIndexKey value.

Definition ReadLab (labID : string) : Tx Lab :=
  let* labBytes :=
    wrapErr (fun e => "failed to get asset " +:+ labID +:+ ": " +:+ e)
            (GetState labID) in
  match labBytes with
  | None => throw ("asset " +:+ labID +:+ " does not exist")
  | Some labBytes => lift (json_Unmarshal labBytes)
  end.

Definition ReadLabs : Tx (list Lab) :=
  let* resultsIterator := GetStateByRange "" "" in
  defer (Close resultsIterator) (lift (iterate [] resultsIterator)).

Definition DeleteLab (labID clientID : string) : Tx unit :=
  let* lab := ReadLab labID in
  if decide (clientID <> Owner lab)
  then throw "submitting client not authorized to delete lab, does not own lab"
  else
    let* _ :=
      wrapErr (fun e => "failed to delete asset " +:+ labID +:+ ": " +:+ e)
              (DelState labID) in
    let* labNameIndexKey :=
      lift (CreateCompositeKey index [ClassID lab; ID lab]) in
    DelState labNameIndexKey.

Definition UpdateLabContent (labID newContent clientID : string) : Tx unit :=
  let* lab := ReadLab labID in
  if decide (clientID <> Owner lab)
  then throw "submitting client not authorized to update lab, does not own lab"
  else
    let lab := {| DocType := DocType lab; ID := ID lab; ClassID := ClassID lab;
                  Name := Name lab; Content := newContent; Image := Image lab;
                  StartTime := StartTime lab; EndTime := EndTime lab;
                  Owner := Owner lab |} in
    let* labBytes := lift (json_Marshal lab) in
    PutState labID labBytes.

Definition UpdateLabImage (labID newImage clientID : string) : Tx unit :=
  let* lab := ReadLab labID in
  if decide (clientID <> Owner lab)
  then throw "submitting client not authorized to update lab, does not own lab"
  else
    let lab := {| DocType := DocType lab; ID := ID lab; ClassID := ClassID lab;
                  Name := Name lab; Content := Content lab; Image := newImage;
                  StartTime := StartTime lab; EndTime := EndTime lab;
                  Owner := Owner lab |} in
    let* labBytes := lift (json_Marshal lab) in
    PutState labID labBytes.

Definition UpdateLabEndtime (labID newTime clientID : string) : Tx unit :=
  let* lab := ReadLab labID in
  if decide (clientID <> Owner lab)
  then throw "submitting client not authorized to update lab, does not own lab"
  else
    let lab := {| DocType := DocType lab; ID := ID lab; ClassID := ClassID lab;
                  Name := Name lab; Content := Content lab; Image := Image lab;
                  StartTime := StartTime lab; EndTime := newTime;
                  Owner := Owner lab |} in
    let* labBytes := lift (json_Marshal lab) in
    PutState labID labBytes.

Definition UpdateLab
    (labID newImage newName newContent newStartTime newEndTime clientID
       : string) : Tx unit :=
  let* lab := ReadLab labID in
  if decide (clientID <> Owner lab)
  then throw "submitting client not authorized to update lab, does not own lab"
  else
    let lab := {| DocType := DocType lab; ID := ID lab; ClassID := ClassID lab;
                  Name := newName; Content := newContent; Image := newImage;
                  StartTime := newStartTime; EndTime := newEndTime;
                  Owner := Owner lab |} in
    let* labBytes := lift (json_Marshal lab) in
    PutState labID labBytes.

Definition constructQueryResponseFromIterator
    (resultsIterator : StateQueryIterator) : result (list Lab) :=
  iterate [] resultsIterator.

Definition GetLabsByRange (startKey endKey : string) : Tx (list Lab) :=
  let* resultsIterator := GetStateByRange startKey endKey in
  defer (Close resultsIterator)
    (lift (constructQueryResponseFromIterator resultsIterator)).

Definition getQueryResultForQueryString (queryString : string)
  : Tx (list Lab) :=
  let* resultsIterator := GetQueryResult queryString in
  defer (Close resultsIterator)
    (lift (constructQueryResponseFromIterator resultsIterator)).

Definition QueryLabsByClass (class : string) : Tx (list Lab) :=
  let queryString :=
    "{" +:+ q "selector" +:+ ":{" +:+ q "docType" +:+ ":" +:+ q "lab" +:+ ","
        +:+ q "classID" +:+ ":" +:+ q class +:+ "}}" in
  getQueryResultForQueryString queryString.

Definition QueryLabs (queryString : string) : Tx (list Lab) :=
  getQueryResultForQueryString queryString.

(** The response metadata of the paginated call is dropped ([_] in the
    source); only the records are returned. *)
Definition GetAssetsByRangeWithPagination
    (startKey endKey : string) (pageSize : Z) (bookmark : string)
  : Tx (list Lab) :=
  let* r :=
    GetStateByRangeWithPagination startKey endKey (int32 pageSize) bookmark in
  let resultsIterator := r.1 in
  defer (Close resultsIterator)
    (lift (constructQueryResponseFromIterator resultsIterator)).

Definition getQueryResultForQueryStringWithPagination
    (queryString : string) (pageSize : Z) (bookmark : string)
  : Tx PaginatedQueryResult :=
  let* r := GetQueryResultWithPagination queryString pageSize bookmark in
  let resultsIterator := r.1 in
  let responseMetadata := r.2 in
  defer (Close resultsIterator)
    (let* labs := lift (constructQueryResponseFromIterator resultsIterator) in
     ret {| Labs := labs;
            FetchedRecordsCount := shim.FetchedRecordsCount responseMetadata;
            Bookmark := shim.Bookmark responseMetadata |}).

Definition QueryAssetsWithPagination
    (queryString : string) (pageSize : Z) (bookmark : string)
  : Tx PaginatedQueryResult :=
  getQueryResultForQueryStringWithPagination
    queryString (int32 pageSize) bookmark.

(** The loop of [InitLedger] over its slice [labs]. *)
Fixpoint createAll (labs : list Lab) : Tx unit :=
  match labs with
  | [] => ret tt
  | lab :: rest =>
      let* _ := CreateLab (ID lab) (ClassID lab) (Name lab) (Content lab)
                  (Image lab) (StartTime lab) (EndTime lab) (Owner lab) in
      createAll rest
  end.

Definition InitLedger : Tx unit := createAll labs.

End contract.
End lab.

(** ** chaincode/instance *)

Module instance.
Import shim.

Record Instance : Type := mkInstance {
  DocType : string;
  ID : string;
  ClassID : string;
  LabID : string;
  Config : string;
  Owner : string;
}.

Definition index1 : string := "labID~name".
Definition index2 : string := "classID~name".
Definition index3 : string := "owner~name".

(** [%s] applied to a [*Instance]. *)
Definition fmt_s (i : Instance) : string :=
  "&{" +:+ DocType i +:+ " " +:+ ID i +:+ " " +:+ ClassID i +:+ " "
       +:+ LabID i +:+ " " +:+ Config i +:+ " " +:+ Owner i +:+ "}".

(** The slice [instances] of [InitLedger]; [DocType] is left empty there. *)
Definition instances : list Instance :=
  [ mkInstance "" "instance1" "class1" "lab1" "test" "Tom";
    mkInstance "" "instance2" "class1" "lab1" "test" "Tom";
    mkInstance "" "instance3" "class1" "lab2" "test" "Sam" ].

Section contract.
Context `{Json Instance} `{StateDB}.

Definition InstanceExists (instanceID : string) : Tx bool :=
  let* instanceBytes :=
    wrapErr (fun e => "failed to read lab " +:+ instanceID
                      +:+ " from world state. " +:+ e)
            (GetState instanceID) in
  ret (bool_decide (instanceBytes <> None)).

(** The failure of the second index write is answered by [return nil]. *)
Definition CreateInstance (instanceID labID classID config owner : string)
  : Tx unit :=
  let* exists_ :=
    wrapErr (fun e => "failed to get instance: " +:+ e)
            (InstanceExists instanceID) in
  if exists_ : bool then throw ("instance already exists: " +:+ labID)
  else
    let instance := {| DocType := "instance"; ID := instanceID;
                       ClassID := classID; LabID := labID; Config := config;
                       Owner := owner |} in
    let* instanceBytes := lift (json_Marshal instance) in
    let* _ := PutState instanceID instanceBytes in
    let* instanceNameIndex1Key :=
      lift (CreateCompositeKey index1 [LabID instance; ID instance]) in
    let* _ := PutState instanceNameIndex1Key value in
    let* instanceNameIndex2Key :=
      lift (CreateCompositeKey index2 [ClassID instance; ID instance]) in
    orReturn (PutState instanceNameIndex2Key value) (fun _ => Ok tt)
      (fun _ =>
         let* instanceNameIndex3Key :=
           lift (CreateCompositeKey index3 [Owner instance; ID instance]) in
         PutState instanceNameIndex3Key value).

Definition ReadInstance (instanceID : string) : Tx Instance :=
  let* instanceBytes :=
    wrapErr (fun e => "failed to get asset " +:+ instanceID +:+ ": " +:+ e)
            (GetState instanceID) in
  match instanceBytes with
  | None => throw ("instance " +:+ instanceID +:+ " does not exist")
  | Some instanceBytes => lift (json_Unmarshal instanceBytes)
  end.

Definition DeleteInstance (instanceID clientID : string) : Tx unit :=
  let* instance := ReadInstance instanceID in
  if decide (clientID <> Owner instance)
  then throw "submitting client not authorized to delete lab, does not own lab"
  else
    let* _ :=
      wrapErr (fun e => "failed to delete asset " +:+ fmt_s instance
                        +:+ ": " +:+ e)
              (DelState instanceID) in
    let* instanceNameIndexKey1 :=
      lift (CreateCompositeKey index1 [LabID instance; ID instance]) in
    let* _ := DelState instanceNameIndexKey1 in
    let* instanceNameIndexKey2 :=
      lift (CreateCompositeKey index2 [ClassID instance; ID instance]) in
    let* _ := DelState instanceNameIndexKey2 in
    let* instanceNameIndexKey3 :=
      lift (CreateCompositeKey index3 [Owner instance; ID instance]) in
    DelState instanceNameIndexKey3.

Definition constructQueryResponseFromIterator
    (resultsIterator : StateQueryIterator) : result (list Instance) :=
  iterate [] resultsIterator.

Definition GetInstanceByRange (startKey endKey : string)
  : Tx (list Instance) :=
  let* resultsIterator := GetStateByRange startKey endKey in
  defer (Close resultsIterator)
    (lift (constructQueryResponseFromIterator resultsIterator)).

Definition getQueryResultForQueryString (queryString : string)
  : Tx (list Instance) :=
  let* resultsIterator := GetQueryResult queryString in
  defer (Close resultsIterator)
    (lift (constructQueryResponseFromIterator resultsIterator)).

Definition selector (field val : string) : string :=
  "{" +:+ q "selector" +:+ ":{" +:+ q "docType" +:+ ":" +:+ q "instance"
      +:+ "," +:+ q field +:+ ":" +:+ q val +:+ "}}".

Definition QueryInstanceByClass (class : string) : Tx (list Instance) :=
  getQueryResultForQueryString (selector "classID" class).

Definition QueryInstanceByLab (lab : string) : Tx (list Instance) :=
  getQueryResultForQueryString (selector "labID" lab).

Definition QueryInstanceByOwner (owner : string) : Tx (list Instance) :=
  getQueryResultForQueryString (selector "owner" owner).

Fixpoint createAll (instances : list Instance) : Tx unit :=
  match instances with
  | [] => ret tt
  | i :: rest =>
      let* _ := CreateInstance (ID i) (LabID i) (ClassID i) (Config i)
                  (Owner i) in
      createAll rest
  end.

Definition InitLedger : Tx unit := createAll instances.

End contract.
End instance.

(** ** chaincode/submission *)

Module submission.
Import shim.

Record Submission : Type := mkSubmission {
  DocType : string;
  ID : string;
  ClassID : string;
  LabID : string;
  Content : string;
  Owner : string;
  Score : N;
}.

Definition index1 : string := "labID~name".
Definition index2 : string := "classID~name".
Definition index3 : string := "owner~name".

(** The slice [submissions] of [InitLedger]. *)
Definition submissions : list Submission :=
  [ mkSubmission "" "submission1" "class1" "lab1" "test" "Tom" 0;
    mkSubmission "" "submission2" "class1" "lab1" "test" "Tom" 0;
    mkSubmission "" "submission3" "class1" "lab2" "test" "Sam" 0 ].

Section contract.
Context `{Json Submission} `{StateDB}.

Definition SubmissionExists (submissionID : string) : Tx bool :=
  let* submissionBytes :=
    wrapErr (fun e => "failed to read lab " +:+ submissionID
                      +:+ " from world state. " +:+ e)
            (GetState submissionID) in
  ret (bool_decide (submissionBytes <> None)).

(** As in [CreateInstance], the failure of the second index write is
    answered by [return nil]. *)
Definition CreateSubmission
    (submissionID labID classID content owner : string) : Tx unit :=
  let* exists_ :=
    wrapErr (fun e => "failed to get instance: " +:+ e)
            (SubmissionExists submissionID) in
  if exists_ : bool then throw ("instance already exists: " +:+ labID)
  else
    let submission := {| DocType := "submission"; ID := submissionID;
                         ClassID := classID; LabID := labID;
                         Content := content; Owner := owner;
                         Score := 0 |} in
    let* SubmissionBytes := lift (json_Marshal submission) in
    let* _ := PutState submissionID SubmissionBytes in
    let* instanceNameIndex1Key :=
      lift (CreateCompositeKey index1 [LabID submission; ID submission]) in
    let* _ := PutState instanceNameIndex1Key value in
    let* instanceNameIndex2Key :=
      lift (CreateCompositeKey index2 [ClassID submission; ID submission]) in
    orReturn (PutState instanceNameIndex2Key value) (fun _ => Ok tt)
      (fun _ =>
         let* instanceNameIndex3Key :=
           lift (CreateCompositeKey index3
                   [Owner submission; ID submission]) in
         PutState instanceNameIndex3Key value).

Definition ReadSubmission (submissionID : string) : Tx Submission :=
  let* submissionBytes :=
    wrapErr (fun e => "failed to get asset " +:+ submissionID +:+ ": " +:+ e)
            (GetState submissionID) in
  match submissionBytes with
  | None => throw ("instance " +:+ submissionID +:+ " does not exist")
  | Some submissionBytes => lift (json_Unmarshal submissionBytes)
  end.

(** No caller identity is passed and none is compared with the owner. *)
Definition DeleteSubmission (submissionID : string) : Tx unit :=
  let* submission := ReadSubmission submissionID in
  let* _ :=
    wrapErr (fun e => "failed to delete asset " +:+ submissionID
                      +:+ ": " +:+ e)
            (DelState submissionID) in
  let* instanceNameIndexKey1 :=
    lift (CreateCompositeKey index1 [LabID submission; ID submission]) in
  let* _ := DelState instanceNameIndexKey1 in
  let* instanceNameIndexKey2 :=
    lift (CreateCompositeKey index2 [ClassID submission; ID submission]) in
  let* _ := DelState instanceNameIndexKey2 in
  let* instanceNameIndexKey3 :=
    lift (CreateCompositeKey index3 [Owner submission; ID submission]) in
  DelState instanceNameIndexKey3.

Definition UpdateSubmissionScore (submissionID : string) (newScore : N)
  : Tx unit :=
  let* submission := ReadSubmission submissionID in
  let submission := {| DocType := DocType submission; ID := ID submission;
                       ClassID := ClassID submission;
                       LabID := LabID submission;
                       Content := Content submission;
                       Owner := Owner submission; Score := newScore |} in
  let* submissionBytes := lift (json_Marshal submission) in
  PutState submissionID submissionBytes.

Definition constructQueryResponseFromIterator
    (resultsIterator : StateQueryIterator) : result (list Submission) :=
  iterate [] resultsIterator.

Definition GetSubmissionByRange (startKey endKey : string)
  : Tx (list Submission) :=
  let* resultsIterator := GetStateByRange startKey endKey in
  defer (Close resultsIterator)
    (lift (constructQueryResponseFromIterator resultsIterator)).

Definition getQueryResultForQueryString (queryString : string)
  : Tx (list Submission) :=
  let* resultsIterator := GetQueryResult queryString in
  defer (Close resultsIterator)
    (lift (constructQueryResponseFromIterator resultsIterator)).

Definition selector (field val : string) : string :=
  "{" +:+ q "selector" +:+ ":{" +:+ q "docType" +:+ ":" +:+ q "submission"
      +:+ "," +:+ q field +:+ ":" +:+ q val +:+ "}}".

Definition QueryInstanceByClass (class : string) : Tx (list Submission) :=
  getQueryResultForQueryString (selector "classID" class).

Definition QueryInstanceByLab (lab : string) : Tx (list Submission) :=
  getQueryResultForQueryString (selector "labID" lab).

Definition QueryInstanceByOwner (owner : string) : Tx (list Submission) :=
  getQueryResultForQueryString (selector "owner" owner).

Fixpoint createAll (submissions : list Submission) : Tx unit :=
  match submissions with
  | [] => ret tt
  | s :: rest =>
      let* _ := CreateSubmission (ID s) (LabID s) (ClassID s) (Content s)
                  (Owner s) in
      createAll rest
  end.

Definition InitLedger : Tx unit := createAll submissions.

End contract.
End submission.

(** ** chaincode/class *)

Module class.
Import shim.

Record Class : Type := mkClass {
  ID : string;
  Name : string;
  Content : string;
  Owner : string;
}.

(** The slice [classes] of [InitLedger]. *)
Definition classes : list Class :=
  [ mkClass "class1" "class1" "test" "Tomoko";
    mkClass "class2" "class2" "test" "Brad";
    mkClass "class3" "class3" "test" "Jin Soo";
    mkClass "class4" "class4" "test" "Max";
    mkClass "class5" "class5" "test" "Adriana";
    mkClass "class6" "class6" "test" "Michel" ].

Section contract.
Context `{Json Class} `{Base64}.

Definition ClassExists (id : string) : Tx bool :=
  let* classJSON :=
    wrapErr (fun e => "failed to read from world state: " +:+ e)
            (GetState id) in
  ret (bool_decide (classJSON <> None)).

Definition GetSubmittingClientIdentity : Tx string :=
  let* b64ID :=
    wrapErr (fun e => "Failed to read clientID: " +:+ e) (client GetID) in
  let* decodeID :=
    wrapErr (fun e => "failed to base64 decode clientID: " +:+ e)
            (lift (base64_DecodeString b64ID)) in
  ret decodeID.

(** The parameter [owner] is never read. *)
Definition CreateClass (id name content owner : string) : Tx unit :=
  let* _ :=
    wrapErr (fun _ => "submitting client not authorized to create class, does not have class.creator role")
            (client (fun cid => AssertAttributeValue cid "class.creator" "true")) in
  let* exists_ := ClassExists id in
  if exists_ : bool then throw ("the class " +:+ id +:+ " already exists")
  else
    let* clientID := GetSubmittingClientIdentity in
    let class := {| ID := id; Name := name; Content := content;
                    Owner := clientID |} in
    let* classJSON := lift (json_Marshal class) in
    PutState id classJSON.

Definition ReadClass (id : string) : Tx Class :=
  let* classJSON :=
    wrapErr (fun e => "failed to read from world state: " +:+ e)
            (GetState id) in
  match classJSON with
  | None => throw ("the asset " +:+ id +:+ " does not exist")
  | Some classJSON => lift (json_Unmarshal classJSON)
  end.

Definition UpdateClass (id newName newContent : string) : Tx unit :=
  let* class := ReadClass id in
  let* clientID := GetSubmittingClientIdentity in
  if decide (clientID <> Owner class)
  then throw "submitting client not authorized to update class, does not own class"
  else
    let class := {| ID := ID class; Name := newName; Content := newContent;
                    Owner := Owner class |} in
    let* classJSON := lift (json_Marshal class) in
    PutState id classJSON.

Definition DeleteClass (id : string) : Tx unit :=
  let* asset := ReadClass id in
  let* clientID := GetSubmittingClientIdentity in
  if decide (clientID <> Owner asset)
  then throw "submitting client not authorized to update class, does not own class"
  else DelState id.

Definition TransferClass (id newOwner : string) : Tx unit :=
  let* class := ReadClass id in
  let* clientID := GetSubmittingClientIdentity in
  if decide (clientID <> Owner class)
  then throw "submitting client not authorized to update class, does not own class"
  else
    let class := {| ID := ID class; Name := Name class;
                    Content := Content class; Owner := newOwner |} in
    let* classJSON := lift (json_Marshal class) in
    PutState id classJSON.

Definition GetAllClassses : Tx (list Class) :=
  let* resultsIterator := GetStateByRange "" "" in
  defer (Close resultsIterator) (lift (iterate [] resultsIterator)).

Fixpoint createAll (classes : list Class) : Tx unit :=
  match classes with
  | [] => ret tt
  | class :: rest =>
      let* _ := CreateClass (ID class) (Name class) (Content class)
                  (Owner class) in
      createAll rest
  end.

Definition InitLedger : Tx unit := createAll classes.

End contract.
End class.

(** ** The ledger's unit of work

    Modelled from the spec: the ledger runs one contract operation as one
    atomic unit of work.  The writes of an operation that reports an error
    are dropped; those of an operation that returns [nil] are committed. *)
Definition invoke {A} (f : Tx A) (cid : ClientIdentity)
    (fs : list (option string)) (w : gmap string string)
  : result A * gmap string string :=
  match f (mkCtx cid w fs) with
  | (Ok a, c') => (Ok a, state c')
  | (Err e, _) => (Err e, w)
  end.

(** ** A reference implementation of the libraries

    A small JSON codec for flat objects, a base64 decoder and a state
    database, used to run the contracts on concrete ledgers. *)

Module sample.

Definition backslash : ascii := "092"%char.
Definition quote_char : ascii := "034"%char.

Fixpoint escape (s : string) : string :=
  match s with
  | "" => ""
  | String c s' =>
      if decide (c = quote_char \/ c = backslash)
      then String backslash (String c (escape s'))
      else String c (escape s')
  end.

(** Reads an escaped string up to its closing quote: the string and what
    follows the quote. *)
Fixpoint unescape (s : string) : option (string * string) :=
  match s with
  | "" => None
  | String c s' =>
      if decide (c = quote_char) then Some ("", s')
      else if decide (c = backslash) then
        match s' with
        | "" => None
        | String d s'' =>
            match unescape s'' with
            | Some (x, r) => Some (String d x, r)
            | None => None
            end
        end
      else
        match unescape s' with
        | Some (x, r) => Some (String c x, r)
        | None => None
        end
  end.

(** Strips the literal [lit] from the front of [s]. *)
Fixpoint expect (lit s : string) : option string :=
  match lit, s with
  | "", _ => Some s
  | String a l, String b s' => if decide (a = b) then expect l s' else None
  | _, "" => None
  end.

Definition is_digit (c : ascii) : bool :=
  ((48 <=? N_of_ascii c) && (N_of_ascii c <=? 57))%N.

Fixpoint span_digits (s : string) : string * string :=
  match s with
  | "" => ("", "")
  | String c s' =>
      if is_digit c
      then let '(d, r) := span_digits s' in (String c d, r)
      else ("", s)
  end.

Inductive jval : Type :=
  | JStr (s : string)
  | JNum (n : N).

Definition digits (n : N) : string := NilEmpty.string_of_uint (N.to_uint n).

Definition encode_val (v : jval) : string :=
  match v with
  | JStr s => dq +:+ escape s +:+ dq
  | JNum n => digits n
  end.

(** The members of an object after its opening brace, each but the first
    after a comma. *)
Fixpoint encode_members (first : bool) (fields : list (string * jval))
  : string :=
  match fields with
  | [] => "}"
  | (k, v) :: rest =>
      (if first then "" else ",") +:+ q k +:+ ":" +:+ encode_val v
        +:+ encode_members false rest
  end.

Definition encode (fields : list (string * jval)) : string :=
  "{" +:+ encode_members true fields.

Definition decode_val (like : jval) (s : string) : option (jval * string) :=
  match like with
  | JStr _ =>
      match expect dq s with
      | Some s' =>
          match unescape s' with
          | Some (x, r) => Some (JStr x, r)
          | None => None
          end
      | None => None
      end
  | JNum _ =>
      let '(d, r) := span_digits s in
      if decide (d = "") then None
      else
        match NilEmpty.uint_of_string d with
        | Some u => Some (JNum (N.of_uint u), r)
        | None => None
        end
  end.

(** Reads the members listed by [schema] (a key and a value of the expected
    kind each), in that order. *)
Fixpoint decode_members (first : bool) (schema : list (string * jval))
    (s : string) : option (list jval) :=
  match schema with
  | [] => if decide (s = "}") then Some [] else None
  | (k, like) :: rest =>
      match expect ((if first then "" else ",") +:+ q k +:+ ":") s with
      | None => None
      | Some s1 =>
          match decode_val like s1 with
          | None => None
          | Some (v, s2) =>
              match decode_members false rest s2 with
              | Some vs => Some (v :: vs)
              | None => None
              end
          end
      end
  end.

Definition decode (schema : list (string * jval)) (s : string)
  : option (list jval) :=
  match expect "{" s with
  | Some s' => decode_members true schema s'
  | None => None
  end.

(** [r] is empty or starts with a character that is no digit. *)
Definition stops (r : string) : Prop :=
  match r with "" => True | String c _ => is_digit c = false end.

(** Two values of the same kind, string or number. *)
Definition same_kind (a b : jval) : Prop :=
  match a, b with JStr _, JStr _ | JNum _, JNum _ => True | _, _ => False end.

Definition lab_fields (l : lab.Lab) : list (string * jval) :=
  [ ("docType", JStr (lab.DocType l)); ("ID", JStr (lab.ID l));
    ("classID", JStr (lab.ClassID l)); ("name", JStr (lab.Name l));
    ("content", JStr (lab.Content l)); ("image", JStr (lab.Image l));
    ("startTime", JStr (lab.StartTime l)); ("endTime", JStr (lab.EndTime l));
    ("owner", JStr (lab.Owner l)) ].

Definition instance_fields (i : instance.Instance) : list (string * jval) :=
  [ ("docType", JStr (instance.DocType i)); ("ID", JStr (instance.ID i));
    ("classID", JStr (instance.ClassID i));
    ("labID", JStr (instance.LabID i));
    ("config", JStr (instance.Config i));
    ("owner", JStr (instance.Owner i)) ].

Definition submission_fields (s : submission.Submission)
  : list (string * jval) :=
  [ ("docType", JStr (submission.DocType s)); ("ID", JStr (submission.ID s));
    ("classID", JStr (submission.ClassID s));
    ("labID", JStr (submission.LabID s));
    ("content", JStr (submission.Content s));
    ("owner", JStr (submission.Owner s));
    ("score", JNum (submission.Score s)) ].

Definition class_fields (c : class.Class) : list (string * jval) :=
  [ ("ID", JStr (class.ID c)); ("name", JStr (class.Name c));
    ("content", JStr (class.Content c)); ("owner", JStr (class.Owner c)) ].

Definition syntax_error {A} : result A :=
  Err "invalid character looking for beginning of value".

#[global] Instance lab_json : Json lab.Lab := {
  json_Marshal l := Ok (encode (lab_fields l));
  json_Unmarshal b :=
    match decode (lab_fields (lab.mkLab "" "" "" "" "" "" "" "" "")) b with
    | Some [JStr a1; JStr a2; JStr a3; JStr a4; JStr a5; JStr a6; JStr a7;
            JStr a8; JStr a9] => Ok (lab.mkLab a1 a2 a3 a4 a5 a6 a7 a8 a9)
    | _ => syntax_error
    end;
}.

#[global] Instance instance_json : Json instance.Instance := {
  json_Marshal i := Ok (encode (instance_fields i));
  json_Unmarshal b :=
    match decode (instance_fields (instance.mkInstance "" "" "" "" "" "")) b
    with
    | Some [JStr a1; JStr a2; JStr a3; JStr a4; JStr a5; JStr a6] =>
        Ok (instance.mkInstance a1 a2 a3 a4 a5 a6)
    | _ => syntax_error
    end;
}.

#[global] Instance submission_json : Json submission.Submission := {
  json_Marshal s := Ok (encode (submission_fields s));
  json_Unmarshal b :=
    match decode
            (submission_fields (submission.mkSubmission "" "" "" "" "" "" 0))
            b with
    | Some [JStr a1; JStr a2; JStr a3; JStr a4; JStr a5; JStr a6; JNum n] =>
        Ok (submission.mkSubmission a1 a2 a3 a4 a5 a6 n)
    | _ => syntax_error
    end;
}.

#[global] Instance class_json : Json class.Class := {
  json_Marshal c := Ok (encode (class_fields c));
  json_Unmarshal b :=
    match decode (class_fields (class.mkClass "" "" "" "")) b with
    | Some [JStr a1; JStr a2; JStr a3; JStr a4] =>
        Ok (class.mkClass a1 a2 a3 a4)
    | _ => syntax_error
    end;
}.

(** Standard base64 with padding, four characters at a time. *)
Definition sextet (c : ascii) : option N :=
  let n := N_of_ascii c in
  (if (65 <=? n) && (n <=? 90) then Some (n - 65)
   else if (97 <=? n) && (n <=? 122) then Some (n - 71)
   else if (48 <=? n) && (n <=? 57) then Some (n + 4)
   else if n =? 43 then Some 62
   else if n =? 47 then Some 63
   else None)%N.

Definition byte (n : N) : string := String (ascii_of_N (n mod 256)) "".

Definition corrupt {A} : result A := Err "illegal base64 data".

Fixpoint b64decode (s : string) : result string :=
  match s with
  | "" => Ok ""
  | String a (String b (String c (String d rest))) =>
      match sextet a, sextet b with
      | Some x, Some y =>
          let b1 := byte (x * 4 + y / 16) in
          if decide (c = "="%char /\ d = "="%char /\ rest = "") then Ok b1
          else
            match sextet c with
            | Some z =>
                let b2 := byte (y * 16 + z / 4) in
                if decide (d = "="%char /\ rest = "") then Ok (b1 +:+ b2)
                else
                  match sextet d, b64decode rest with
                  | Some t, Ok r => Ok (b1 +:+ b2 +:+ byte (z * 64 + t) +:+ r)
                  | _, _ => corrupt
                  end
            | None => corrupt
            end
      | _, _ => corrupt
      end
  | _ => corrupt
  end.

#[global] Instance base64 : Base64 := {
  base64_DecodeString := b64decode;
}.

(** One page of [l]: the entries from the bookmark on, at most [pageSize] of
    them (all of them when [pageSize] is not positive), with the key of the
    entry after the page as the next bookmark. *)
Definition page (pageSize : Z) (bookmark : string) (l : list shim.KV)
  : list shim.KV * shim.QueryResponseMetadata :=
  let l := filter (fun kv => String.leb bookmark kv.1) l in
  let n := if (pageSize <=? 0)%Z then length l else Z.to_nat pageSize in
  (take n l,
   {| shim.FetchedRecordsCount := Z.of_nat (length (take n l));
      shim.Bookmark := match drop n l with [] => "" | kv :: _ => kv.1 end |}).

(** A state database whose rich queries select the documents that [matches]
    accepts. *)
Definition statedb (matches : string -> string -> bool) : shim.StateDB := {|
  shim.db_query query w :=
    Ok (filter (fun kv => matches query kv.2) (shim.entries w));
  shim.db_query_page query pageSize bookmark w :=
    Ok (page pageSize bookmark
          (filter (fun kv => matches query kv.2) (shim.entries w)));
  shim.db_range_page startKey endKey pageSize bookmark w :=
    Ok (page pageSize bookmark (shim.range startKey endKey w));
|}.

(** The database that accepts every document that is not an index entry. *)
#[global] Instance alldocs : shim.StateDB :=
  statedb (fun _ v => bool_decide (v <> value)).

End sample.

(** * Specification vocabulary *)

(** A string without a NUL byte. *)
Fixpoint nul_free (s : string) : Prop :=
  match s with
  | "" => True
  | String c s' => c <> "000"%char /\ nul_free s'
  end.

(** A string [CreateCompositeKey] accepts as an object type or attribute. *)
Definition valid (s : string) : Prop :=
  shim.validateCompositeKeyAttribute s = Ok tt.

(** A string that is valid UTF-8 ([utf8.ValidString]).  [encoding/json]
    writes such a string as it is; in any other string it replaces the bytes
    that are not valid UTF-8 by U+FFFD, so that the text read back is not the
    text that was written. *)
Definition utf8 (s : string) : Prop := is_Some (shim.runes s).

(** The context [c] over the world state [w]. *)
Definition set_state (c : TransactionContext) (w : gmap string string)
  : TransactionContext :=
  mkCtx (clientIdentity c) w (faults c).

(** Modelled from the spec: the index specifications of a record kind and the
    index-consistency invariant of the data model.  A kind is given by its
    record type [R], the field [ID] and the ordered list [specs] of its index
    specifications, each an index name and the indexed source field. *)
Section index_model.
Context {R : Type} `{Json R}.
Variable ID : R -> string.
Variable specs : list (string * (R -> string)).

(** The composite key of [r] under the specification [s]: the indexed field
    first and the record's ID as the last segment. *)
Definition index_key (s : string * (R -> string)) (r : R) : result string :=
  shim.CreateCompositeKey s.1 [s.2 r; ID r].

(** [k |-> v] is the primary entry of a record whose index entries are all
    in [w]. *)
Definition primary_entry (w : gmap string string) (k v : string) : Prop :=
  exists r, json_Unmarshal v = Ok r /\ ID r = k /\ k <> "" /\ valid k
    /\ forall s, s ∈ specs ->
         exists key, index_key s r = Ok key /\ w !! key = Some value.

(** [k |-> v] is the index entry of a record stored in [w], keyed over the
    record's current field values. *)
Definition index_entry (w : gmap string string) (k v : string) : Prop :=
  v = value
  /\ exists s r b, s ∈ specs /\ w !! ID r = Some b /\ json_Unmarshal b = Ok r
       /\ index_key s r = Ok k.

(** The invariant: every entry is a primary entry with all its index
    entries, or the index entry of a stored record. *)
Definition consistent (w : gmap string string) : Prop :=
  forall k v, w !! k = Some v -> primary_entry w k v \/ index_entry w k v.

End index_model.

(** Modelled from the spec: a scan over the key prefix of the index [name],
    and its entries that resolve back to the record [id], that is, whose key
    splits into the index name, one field value and [id]. *)
Definition PrefixScan (name : string) (w : gmap string string)
  : list shim.KV :=
  filter (fun kv => String.prefix
                      (shim.compositeKeyNamespace +:+ name +:+ shim.sep) kv.1)
         (shim.entries w).

Definition resolves (name id key : string) : bool :=
  match shim.SplitCompositeKey key with
  | Some (objectType, [_; i]) => bool_decide (objectType = name /\ i = id)
  | _ => false
  end.

Definition index_refs (name id : string) (w : gmap string string)
  : list shim.KV :=
  filter (fun kv => resolves name id kv.1) (PrefixScan name w).

(** Modelled from the spec: the index maintainer's [AddIndexes] and
    [RemoveIndexes], as functions on the world state. *)
Definition put_all (keys : list string) (w : gmap string string)
  : gmap string string :=
  foldl (fun acc k => <[k := value]> acc) w keys.

Definition del_all (keys : list string) (w : gmap string string)
  : gmap string string :=
  foldl (fun acc k => delete k acc) w keys.

(** The index specifications the chaincodes declare. *)
Definition lab_specs : list (string * (lab.Lab -> string)) :=
  [ (lab.index, lab.ClassID) ].

Definition instance_specs : list (string * (instance.Instance -> string)) :=
  [ (instance.index1, instance.LabID); (instance.index2, instance.ClassID);
    (instance.index3, instance.Owner) ].

Definition submission_specs
  : list (string * (submission.Submission -> string)) :=
  [ (submission.index1, submission.LabID);
    (submission.index2, submission.ClassID);
    (submission.index3, submission.Owner) ].

(** The identity of the submitting client, as [GetSubmittingClientIdentity]
    computes it from the identity provider's answer. *)
Definition submitter `{Base64} (cid : ClientIdentity) : result string :=
  match GetID cid with
  | Err e => Err ("Failed to read clientID: " +:+ e)
  | Ok b64ID =>
      match base64_DecodeString b64ID with
      | Err e => Err ("failed to base64 decode clientID: " +:+ e)
      | Ok decodeID => Ok decodeID
      end
  end.

(** [op] reports the error [msg] and leaves the world state as it was. *)
Definition refused (op : Tx unit) (c : TransactionContext) (msg : string)
  : Prop :=
  exists c', op c = (Err msg, c') /\ state c' = state c.

(** The ledger answers the next stub call of [c]. *)
Definition answers (c : TransactionContext) : Prop :=
  hd None (faults c) = None.

(** The composite key of the index [name] for the field value [a] of the
    record [id]: the index name, the field value and, last, the record's
    ID, each closed by the separator. *)
Definition key_of (name a id : string) : string :=
  shim.compositeKeyNamespace +:+ name +:+ shim.sep +:+ a +:+ shim.sep
    +:+ id +:+ shim.sep.

(** [kv] holds a value that parses as the record [a]. *)
Definition parses {A} `{Json A} (kv : shim.KV) (a : A) : Prop :=
  json_Unmarshal kv.2 = Ok a.

(** The start key a range scan really uses. *)
Definition from (startKey : string) : string :=
  if decide (startKey = "") then shim.emptyKeySubstitute else startKey.

(** [m] leaves the world state as it was, whatever it returns. *)
Definition readonly {A} (m : Tx A) : Prop :=
  forall c, state (m c).2 = state c.

(** [m] run for its effect only. *)
Definition forget {A} (m : Tx A) : Tx unit :=
  let* _ := m in ret tt.

(** The operations of the lab contract, as a client may invoke them. *)
Inductive lab_call : Type :=
  | call_CreateLab
      (labID classID name content image startTime endTime owner : string)
  | call_ReadLab (labID : string)
  | call_ReadLabs
  | call_DeleteLab (labID clientID : string)
  | call_UpdateLabContent (labID newContent clientID : string)
  | call_UpdateLabImage (labID newImage clientID : string)
  | call_UpdateLabEndtime (labID newTime clientID : string)
  | call_UpdateLab
      (labID newImage newName newContent newStartTime newEndTime clientID
         : string)
  | call_GetLabsByRange (startKey endKey : string)
  | call_QueryLabsByClass (class : string)
  | call_QueryLabs (queryString : string)
  | call_GetAssetsByRangeWithPagination
      (startKey endKey : string) (pageSize : Z) (bookmark : string)
  | call_QueryAssetsWithPagination
      (queryString : string) (pageSize : Z) (bookmark : string)
  | call_LabExists (labID : string)
  | call_InitLedger.

Section lab_runs.
Context `{Json lab.Lab} `{shim.StateDB}.

Definition lab_run (k : lab_call) : Tx unit :=
  match k with
  | call_CreateLab labID classID name content image startTime endTime owner =>
      lab.CreateLab labID classID name content image startTime endTime owner
  | call_ReadLab labID => forget (lab.ReadLab labID)
  | call_ReadLabs => forget lab.ReadLabs
  | call_DeleteLab labID clientID => lab.DeleteLab labID clientID
  | call_UpdateLabContent labID newContent clientID =>
      lab.UpdateLabContent labID newContent clientID
  | call_UpdateLabImage labID newImage clientID =>
      lab.UpdateLabImage labID newImage clientID
  | call_UpdateLabEndtime labID newTime clientID =>
      lab.UpdateLabEndtime labID newTime clientID
  | call_UpdateLab labID newImage newName newContent newStartTime newEndTime
      clientID =>
      lab.UpdateLab labID newImage newName newContent newStartTime newEndTime
        clientID
  | call_GetLabsByRange startKey endKey =>
      forget (lab.GetLabsByRange startKey endKey)
  | call_QueryLabsByClass class => forget (lab.QueryLabsByClass class)
  | call_QueryLabs queryString => forget (lab.QueryLabs queryString)
  | call_GetAssetsByRangeWithPagination startKey endKey pageSize bookmark =>
      forget
        (lab.GetAssetsByRangeWithPagination startKey endKey pageSize bookmark)
  | call_QueryAssetsWithPagination queryString pageSize bookmark =>
      forget (lab.QueryAssetsWithPagination queryString pageSize bookmark)
  | call_LabExists labID => forget (lab.LabExists labID)
  | call_InitLedger => lab.InitLedger
  end.

(** The worlds the lab contract can reach from the empty one: each step is
    one invocation, by any client and under any behaviour of the ledger,
    run as one unit of work. *)
Inductive lab_reachable : gmap string string -> Prop :=
  | lab_reach_empty : lab_reachable ∅
  | lab_reach_step w k cid fs :
      lab_reachable w -> lab_reachable (invoke (lab_run k) cid fs w).2.

End lab_runs.

(** The operations of the instance contract. *)
Inductive instance_call : Type :=
  | call_CreateInstance (instanceID labID classID config owner : string)
  | call_ReadInstance (instanceID : string)
  | call_DeleteInstance (instanceID clientID : string)
  | call_GetInstanceByRange (startKey endKey : string)
  | call_QueryInstanceByClass (class : string)
  | call_QueryInstanceByLab (lab : string)
  | call_QueryInstanceByOwner (owner : string)
  | call_InstanceExists (instanceID : string)
  | call_InitInstances.

Section instance_runs.
Context `{Json instance.Instance} `{shim.StateDB}.

Definition instance_run (k : instance_call) : Tx unit :=
  match k with
  | call_CreateInstance instanceID labID classID config owner =>
      instance.CreateInstance instanceID labID classID config owner
  | call_ReadInstance instanceID => forget (instance.ReadInstance instanceID)
  | call_DeleteInstance instanceID clientID =>
      instance.DeleteInstance instanceID clientID
  | call_GetInstanceByRange startKey endKey =>
      forget (instance.GetInstanceByRange startKey endKey)
  | call_QueryInstanceByClass class =>
      forget (instance.QueryInstanceByClass class)
  | call_QueryInstanceByLab lab => forget (instance.QueryInstanceByLab lab)
  | call_QueryInstanceByOwner owner =>
      forget (instance.QueryInstanceByOwner owner)
  | call_InstanceExists instanceID =>
      forget (instance.InstanceExists instanceID)
  | call_InitInstances => instance.InitLedger
  end.

(** The worlds the instance contract can reach from the empty one while the
    ledger answers every stub call. *)
Inductive instance_reachable : gmap string string -> Prop :=
  | instance_reach_empty : instance_reachable ∅
  | instance_reach_step w k cid :
      instance_reachable w ->
      instance_reachable (invoke (instance_run k) cid [] w).2.

End instance_runs.

(** The operations of the submission contract. *)
Inductive submission_call : Type :=
  | call_CreateSubmission (submissionID labID classID content owner : string)
  | call_ReadSubmission (submissionID : string)
  | call_DeleteSubmission (submissionID : string)
  | call_UpdateSubmissionScore (submissionID : string) (newScore : N)
  | call_GetSubmissionByRange (startKey endKey : string)
  | call_QuerySubmissionByClass (class : string)
  | call_QuerySubmissionByLab (lab : string)
  | call_QuerySubmissionByOwner (owner : string)
  | call_SubmissionExists (submissionID : string)
  | call_InitSubmissions.

Section submission_runs.
Context `{Json submission.Submission} `{shim.StateDB}.

Definition submission_run (k : submission_call) : Tx unit :=
  match k with
  | call_CreateSubmission submissionID labID classID content owner =>
      submission.CreateSubmission submissionID labID classID content owner
  | call_ReadSubmission submissionID => forget (submission.ReadSubmission submissionID)
  | call_DeleteSubmission submissionID =>
      submission.DeleteSubmission submissionID
  | call_UpdateSubmissionScore submissionID newScore =>
      submission.UpdateSubmissionScore submissionID newScore
  | call_GetSubmissionByRange startKey endKey =>
      forget (submission.GetSubmissionByRange startKey endKey)
  | call_QuerySubmissionByClass class =>
      forget (submission.QueryInstanceByClass class)
  | call_QuerySubmissionByLab lab => forget (submission.QueryInstanceByLab lab)
  | call_QuerySubmissionByOwner owner =>
      forget (submission.QueryInstanceByOwner owner)
  | call_SubmissionExists submissionID =>
      forget (submission.SubmissionExists submissionID)
  | call_InitSubmissions => submission.InitLedger
  end.

(** The worlds the submission contract can reach from the empty one while the
    ledger answers every stub call. *)
Inductive submission_reachable : gmap string string -> Prop :=
  | submission_reach_empty : submission_reachable ∅
  | submission_reach_step w k cid :
      submission_reachable w ->
      submission_reachable (invoke (submission_run k) cid [] w).2.

End submission_runs.

(** The operations of the class contract. *)
Inductive class_call : Type :=
  | call_CreateClass (id name content owner : string)
  | call_UpdateClass (id newName newContent : string)
  | call_DeleteClass (id : string)
  | call_TransferClass (id newOwner : string)
  | call_ReadClass (id : string)
  | call_GetAllClassses
  | call_ClassExists (id : string)
  | call_GetSubmittingClientIdentity
  | call_InitClasses.

Section class_runs.
Context `{Json class.Class} `{Base64}.

Definition class_run (k : class_call) : Tx unit :=
  match k with
  | call_CreateClass id name content owner =>
      class.CreateClass id name content owner
  | call_UpdateClass id newName newContent =>
      class.UpdateClass id newName newContent
  | call_DeleteClass id => class.DeleteClass id
  | call_TransferClass id newOwner => class.TransferClass id newOwner
  | call_ReadClass id => forget (class.ReadClass id)
  | call_GetAllClassses => forget class.GetAllClassses
  | call_ClassExists id => forget (class.ClassExists id)
  | call_GetSubmittingClientIdentity =>
      forget class.GetSubmittingClientIdentity
  | call_InitClasses => class.InitLedger
  end.

(** The worlds the class contract can reach from the empty one: each step
    is one invocation, by any client and under any behaviour of the ledger,
    run as one unit of work. *)
Inductive class_reachable : gmap string string -> Prop :=
  | class_reach_empty : class_reachable ∅
  | class_reach_step w k cid fs :
      class_reachable w -> class_reachable (invoke (class_run k) cid fs w).2.

(** Every entry of [w] is a class stored under its own, non-empty, ID. *)
Definition class_keyed (w : gmap string string) : Prop :=
  forall k v, w !! k = Some v ->
    k <> "" /\ exists cl, json_Unmarshal v = Ok cl /\ class.ID cl = k.

End class_runs.

(** [k] is an update, a transfer or a deletion of the class [id]. *)
Definition class_mutation (k : class_call) (id : string) : Prop :=
  match k with
  | call_UpdateClass i _ _ | call_TransferClass i _ | call_DeleteClass i =>
      i = id
  | _ => False
  end.

(** [k] creates classes: [CreateClass] or [InitLedger]. *)
Definition class_creation (k : class_call) : Prop :=
  match k with
  | call_CreateClass _ _ _ _ | call_InitClasses => True
  | _ => False
  end.

Section class_changes.
Context `{Json class.Class} `{Base64}.

(** The entry [id] is new in [w']: a class that a client holding the
    creator attribute has created, owned by that client. *)
Definition class_created (cid : ClientIdentity) (w w' : gmap string string)
    (id : string) : Prop :=
  w !! id = None /\ id <> ""
  /\ AssertAttributeValue cid "class.creator" "true" = Ok tt
  /\ exists clientID name content b',
       submitter cid = Ok clientID
       /\ json_Marshal (class.mkClass id name content clientID) = Ok b'
       /\ w' !! id = Some b'.

(** The entry [id] of [w] is a class that its owner has updated, transferred
    or deleted by the call [k]. *)
Definition class_changed (cid : ClientIdentity) (k : class_call)
    (w w' : gmap string string) (id : string) : Prop :=
  exists b cl,
    w !! id = Some b /\ json_Unmarshal b = Ok cl
    /\ submitter cid = Ok (class.Owner cl)
    /\ ((exists newName newContent b',
           k = call_UpdateClass id newName newContent
           /\ json_Marshal
                (class.mkClass (class.ID cl) newName newContent
                   (class.Owner cl)) = Ok b'
           /\ w' !! id = Some b')
        \/ (exists newOwner b',
              k = call_TransferClass id newOwner
              /\ json_Marshal
                   (class.mkClass (class.ID cl) (class.Name cl)
                      (class.Content cl) newOwner) = Ok b'
              /\ w' !! id = Some b')
        \/ (k = call_DeleteClass id /\ w' !! id = None)).

End class_changes.

(** [m] reports the error [msg] and leaves the world state as it was. *)
Definition fails {A} (m : Tx A) (c : TransactionContext) (msg : string)
  : Prop :=
  exists c', m c = (Err msg, c') /\ state c' = state c.

(** The context [c] with [cid] as the submitting client. *)
Definition set_identity (c : TransactionContext) (cid : ClientIdentity)
  : TransactionContext :=
  mkCtx cid (state c) (faults c).

(** [m] never looks at the submitting client: under another client it
    returns the same result and leaves the same world state. *)
Definition oblivious {A} (m : Tx A) : Prop :=
  forall c cid, m (set_identity c cid) = ((m c).1, set_identity (m c).2 cid).

(** [m] reports the failures of the ledger: when it returns without an
    error, every answer of the ledger that it has consumed let the stub
    call through. *)
Definition reports {A} (m : Tx A) : Prop :=
  forall c a c',
    m c = (Ok a, c') ->
    exists fs, faults c = (fs ++ faults c')%list
               /\ Forall (fun f => f = None) fs.








(** [m] answers the rich query [query]: while the ledger answers, it fails
    with the state database's error, or it returns the records of the
    entries the database selects, in the database's order, or, when the value
    of a selected entry does not parse, fails with the parse error of the
    first such entry; either way it leaves the context as it was. *)
Definition answers_query {A} `{Json A} `{shim.StateDB} (m : Tx (list A))
    (query : string) : Prop :=
  forall c,
    faults c = [] ->
    match shim.db_query query (state c) with
    | Err e => m c = (Err e, c)
    | Ok kvs =>
        (forall rs, Forall2 parses kvs rs -> m c = (Ok rs, c))
        /\ (forall pre kv post rs e,
              kvs = (pre ++ kv :: post)%list -> Forall2 parses pre rs ->
              json_Unmarshal (A:=A) kv.2 = Err e ->
              m c = (Err e, c))
    end.

(** What is left of the index invariant when index entries may be missing:
    every entry is the primary entry of a record that has at least the
    index entries of [must], or the index entry, under one of [specs], of a
    stored record.  No index entry is left without its record. *)
Definition weakly_consistent {R} `{Json R} (ID : R -> string)
    (must specs : list (string * (R -> string))) (w : gmap string string)
  : Prop :=
  forall k v, w !! k = Some v ->
    primary_entry ID must w k v \/ index_entry ID specs w k v.

Section instance_faulty_runs.
Context `{Json instance.Instance} `{shim.StateDB}.

(** The worlds the instance contract can reach from the empty one under any
    behaviour of the ledger. *)
Inductive instance_reachable_under_faults : gmap string string -> Prop :=
  | instance_faulty_empty : instance_reachable_under_faults ∅
  | instance_faulty_step w k cid fs :
      instance_reachable_under_faults w ->
      instance_reachable_under_faults (invoke (instance_run k) cid fs w).2.

End instance_faulty_runs.

Section submission_faulty_runs.
Context `{Json submission.Submission} `{shim.StateDB}.

(** The worlds the submission contract can reach from the empty one under
    any behaviour of the ledger. *)
Inductive submission_reachable_under_faults : gmap string string -> Prop :=
  | submission_faulty_empty : submission_reachable_under_faults ∅
  | submission_faulty_step w k cid fs :
      submission_reachable_under_faults w ->
      submission_reachable_under_faults
        (invoke (submission_run k) cid fs w).2.

End submission_faulty_runs.

(** Callers and ledgers for the examples. *)
Module ledger.
Definition tom : ClientIdentity :=
  {| GetID := Ok "VG9t"; attributes := [("class.creator", "true")] |}.
Definition sam : ClientIdentity :=
  {| GetID := Ok "U2Ft"; attributes := [] |}.
(** The context of a call by [cid] on the world [w], the ledger answering
    every stub call. *)
Definition quiet (cid : ClientIdentity) (w : gmap string string)
  : TransactionContext := mkCtx cid w [].

(** The worlds the four [InitLedger] functions build from the empty one when
    [tom] submits them. *)
Definition labs : gmap string string :=
  state (lab.InitLedger (quiet tom ∅)).2.
Definition instances : gmap string string :=
  state (instance.InitLedger (quiet tom ∅)).2.
Definition submissions : gmap string string :=
  state (submission.InitLedger (quiet tom ∅)).2.
Definition classes : gmap string string :=
  state (class.InitLedger (quiet tom ∅)).2.

(** The labs of the sample ledger and one entry that is not a lab. *)
Definition labs_and_note : gmap string string :=
  <["lab2a" := "a note, not JSON"]> labs.
(** The lab [id] of class1, as [InitLedger] writes its labs. *)
Definition lab_of (id : string) : lab.Lab :=
  lab.mkLab "lab" id "class1" "class1" "test" "1" "2022" "2022" "Tom".

(** The world with the two labs [a] and [b]. *)
Definition two_labs (a b : string) : gmap string string :=
  state (lab.createAll [lab_of a; lab_of b] (quiet tom ∅)).2.

(** The primary entry of [lab_of id] under the reference codec. *)
Definition lab_entry (id : string) : shim.KV :=
  (id, sample.encode (sample.lab_fields (lab_of id))).
End ledger.

(** * Facts about strings *)

Lemma string_app_cons x (a b : string) : String x a +:+ b = String x (a +:+ b).
Proof. reflexivity. Qed.

Lemma string_app_nil (b : string) : "" +:+ b = b.
Proof. reflexivity. Qed.

Lemma string_app_assoc (a b c : string) : (a +:+ b) +:+ c = a +:+ (b +:+ c).
Proof. induction a as [|x a IH]; [done|]. by rewrite !string_app_cons, IH. Qed.

(** * Facts about the reference codec *)

Module sample_laws.
Import sample.

Lemma expect_app lit s : expect lit (lit +:+ s) = Some s.
Proof.
  induction lit as [|a l IH]; [done|].
  rewrite string_app_cons. simpl. by rewrite decide_True.
Qed.

Lemma unescape_escape x r :
  unescape (escape x +:+ dq +:+ r) = Some (x, r).
Proof.
  induction x as [|c x IH]; simpl; [done|].
  destruct (decide (c = quote_char \/ c = backslash)) as [Hc|Hc];
    rewrite ?string_app_cons; simpl; rewrite ?IH;
    repeat case_decide; try done; try tauto; discriminate.
Qed.

Lemma span_digits_uint d r :
  stops r ->
  span_digits (NilEmpty.string_of_uint d +:+ r)
  = (NilEmpty.string_of_uint d, r).
Proof.
  intros Hr.
  induction d; simpl; rewrite ?string_app_cons; simpl; try (rewrite IHd; reflexivity).
  rewrite string_app_nil. destruct r as [|c r]; simpl in *; [done|]. by rewrite Hr.
Qed.

Lemma digits_nonempty n : digits n <> "".
Proof.
  unfold digits. destruct n as [|p]; [done|]. simpl.
  pose proof (DecimalPos.Unsigned.to_uint_nonnil p) as Hp.
  by destruct (Pos.to_uint p).
Qed.

Lemma decode_val_encode like v r :
  same_kind like v -> stops r ->
  decode_val like (encode_val v +:+ r) = Some (v, r).
Proof.
  intros Hk Hr. destruct like, v; try done; simpl.
  - by rewrite string_app_nil, string_app_assoc, unescape_escape.
  - unfold digits. rewrite span_digits_uint by done.
    case_decide as Hd; [by apply digits_nonempty in Hd|].
    by rewrite NilEmpty.usu, DecimalN.Unsigned.of_to.
Qed.

Lemma stops_members first fields : stops (encode_members first fields).
Proof. destruct fields as [|[k v] fields], first; done. Qed.

Lemma decode_members_encode first schema fields :
  Forall2 (fun a b => a.1 = b.1 /\ same_kind a.2 b.2) schema fields ->
  decode_members first schema (encode_members first fields)
  = Some (fields.*2).
Proof.
  intros HF. revert first.
  induction HF as [|[k like] [k' v] schema fields [Hk Hv] _ IH]; intros first.
  - done.
  - simpl in Hk, Hv. subst k'. cbn [decode_members encode_members].
    rewrite <- !string_app_assoc.
    rewrite !(string_app_assoc _ (encode_val v)), expect_app.
    rewrite decode_val_encode by auto using stops_members.
    by rewrite IH.
Qed.

Lemma decode_encode schema fields :
  Forall2 (fun a b => a.1 = b.1 /\ same_kind a.2 b.2) schema fields ->
  decode schema (encode fields) = Some (fields.*2).
Proof. intros HF. unfold decode, encode. simpl. by apply decode_members_encode. Qed.

Lemma encode_nonempty fields : encode fields <> "".
Proof. done. Qed.

Lemma decode_value schema : decode schema value = None.
Proof. done. Qed.

(** The reference codec satisfies the laws the development relies on. *)
#[global] Instance lab_json_laws : JsonLaws lab.Lab.
Proof.
  split.
  - intros [????? ????]. eexists. split; [done|]. simpl.
    rewrite decode_encode; [done|].
    repeat constructor.
  - by intros a b [= <-].
  - by eexists.
Qed.
#[global] Instance instance_json_laws : JsonLaws instance.Instance.
Proof.
  split.
  - intros [????? ?]. eexists. split; [done|]. simpl.
    rewrite decode_encode; [done|].
    repeat constructor.
  - by intros a b [= <-].
  - by eexists.
Qed.

#[global] Instance submission_json_laws : JsonLaws submission.Submission.
Proof.
  split.
  - intros [????? ??]. eexists. split; [done|]. simpl.
    rewrite decode_encode; [done|].
    repeat constructor.
  - by intros a b [= <-].
  - by eexists.
Qed.

#[global] Instance class_json_laws : JsonLaws class.Class.
Proof.
  split.
  - intros [????]. eexists. split; [done|]. simpl.
    rewrite decode_encode; [done|].
    repeat constructor.
  - by intros a b [= <-].
  - by eexists.
Qed.

End sample_laws.

(** * Facts about the codec *)

Lemma json_read_back {A} `{Json A} `{!JsonLaws A} (a : A) b :
  json_Marshal a = Ok b -> json_Unmarshal b = Ok a.
Proof.
  intros Hb. destruct (json_roundtrip a) as (b' & Hb' & Ha). congruence.
Qed.

(** * Facts about the shim *)

Section shim_facts.
Import shim.

Lemma accept_lo n0 k lo hi : accept n0 = Some (k, lo, hi) -> (0x80 <= lo)%N.
Proof.
  unfold accept. intros Ha.
  repeat (case_match; simplify_eq); lia.
Qed.

Lemma between_not_nul lo hi b :
  (0x80 <= lo)%N -> between lo hi b = true -> b <> "000"%char.
Proof.
  unfold between. intros Hlo Hb ->. simpl in Hb.
  apply andb_prop in Hb as [Hb _]. apply N.leb_le in Hb. lia.
Qed.

Lemma runes_nul_free_aux n : forall s rs,
  String.length s < n -> runes s = Some rs -> 0%N ∉ rs -> nul_free s.
Proof.
  induction n as [|n IH]; intros s rs Hn Hs Hrs; [lia|].
  destruct s as [|b0 s1]; [done|].
  cbn [runes] in Hs. cbn [String.length] in Hn.
  destruct (N_of_ascii b0 <? 128)%N eqn:Hb0.
  - destruct (runes s1) as [rs1|] eqn:Hs1; simplify_eq/=.
    apply not_elem_of_cons in Hrs as [Hne Hrs]. split.
    + intros ->. by apply Hne.
    + eapply IH; [|done..]. lia.
  - assert (b0 <> "000"%char) as Hb0'.
    { intros ->. done. }
    destruct (accept (N_of_ascii b0)) as [[[k lo] hi]|] eqn:Ha; [|by destruct s1].
    apply accept_lo in Ha.
    destruct k as [|[|[|[|k]]]]; try by destruct s1.
    + destruct s1 as [|b1 s2]; [done|].
      destruct (between lo hi b1) eqn:H1; [|done].
      destruct (runes s2) as [rs2|] eqn:Hs2; simplify_eq/=.
      apply not_elem_of_cons in Hrs as [_ Hrs].
      split_and!; try done;
        try (eapply between_not_nul; [|done]; lia);
        (eapply IH; [|done..]; lia).
    + destruct s1 as [|b1 [|b2 s3]]; [done..|].
      destruct (between lo hi b1) eqn:H1; [|done].
      destruct (between 128 191 b2) eqn:H2; [|done].
      destruct (runes s3) as [rs3|] eqn:Hs3; simplify_eq/=.
      apply not_elem_of_cons in Hrs as [_ Hrs].
      split_and!; try done;
        try (eapply between_not_nul; [|done]; lia);
        (eapply IH; [|done..]; lia).
    + destruct s1 as [|b1 [|b2 [|b3 s4]]]; [done..|].
      destruct (between lo hi b1) eqn:H1; [|done].
      destruct (between 128 191 b2) eqn:H2; [|done].
      destruct (between 128 191 b3) eqn:H3; [|done].
      destruct (runes s4) as [rs4|] eqn:Hs4; simplify_eq/=.
      apply not_elem_of_cons in Hrs as [_ Hrs].
      split_and!; try done;
        try (eapply between_not_nul; [|done]; lia);
        (eapply IH; [|done..]; lia).
Qed.

Lemma valid_nul_free s : valid s -> nul_free s.
Proof.
  unfold valid, validateCompositeKeyAttribute. intros Hv.
  destruct (runes s) as [rs|] eqn:Hs; [|done].
  destruct (existsb _ rs) eqn:He; [done|].
  eapply (runes_nul_free_aux (S (String.length s))); [lia|done|].
  intros Hin. apply not_true_iff_false in He. apply He.
  apply existsb_exists. exists 0%N. split; [by apply list_elem_of_In|done].
Qed.

Lemma string_app_nil_r (s : string) : s +:+ "" = s.
Proof. induction s as [|c s IH]; [done|]. by rewrite string_app_cons, IH. Qed.

Lemma components_app cur a rest :
  nul_free a ->
  components cur (a +:+ sep +:+ rest) = (cur +:+ a) :: components "" rest.
Proof.
  revert cur. induction a as [|c a IH]; intros cur Ha.
  - rewrite string_app_nil, string_app_nil_r. done.
  - destruct Ha as [Hc Ha]. rewrite string_app_cons. cbn [components].
    rewrite decide_False by done. rewrite IH by done.
    by rewrite string_app_assoc.
Qed.

Lemma components_nul_free cur s : nul_free s -> components cur s = [].
Proof.
  revert cur. induction s as [|c s IH]; intros cur Hs; [done|].
  destruct Hs as [Hc Hs]. cbn [components].
  rewrite decide_False by done. by apply IH.
Qed.

Lemma CreateCompositeKey_Ok ot a b k :
  CreateCompositeKey ot [a; b] = Ok k <->
  valid ot /\ valid a /\ valid b
  /\ k = compositeKeyNamespace +:+ ot +:+ sep +:+ a +:+ sep +:+ b +:+ sep.
Proof.
  unfold CreateCompositeKey, valid. cbn [addAttributes].
  destruct (validateCompositeKeyAttribute ot) as [[]|];
    [|split; [done|by intros [? _]]].
  destruct (validateCompositeKeyAttribute a) as [[]|];
    [|split; [done|by intros (_ & ? & _)]].
  destruct (validateCompositeKeyAttribute b) as [[]|];
    [|split; [done|by intros (_ & _ & ? & _)]].
  rewrite !string_app_assoc. split.
  - by intros [= <-].
  - by intros (_ & _ & _ & ->).
Qed.

Lemma composite_key name a id :
  valid name -> valid a -> valid id ->
  CreateCompositeKey name [a; id]
  = Ok (compositeKeyNamespace +:+ name +:+ sep +:+ a +:+ sep +:+ id +:+ sep).
Proof. intros. apply CreateCompositeKey_Ok. by split_and!. Qed.

Lemma SplitCompositeKey_Create ot a b k :
  CreateCompositeKey ot [a; b] = Ok k ->
  SplitCompositeKey k = Some (ot, [a; b]).
Proof.
  intros (Hot & Ha & Hb & ->)%CreateCompositeKey_Ok.
  apply valid_nul_free in Hot, Ha, Hb.
  unfold compositeKeyNamespace. rewrite string_app_cons, string_app_nil.
  unfold SplitCompositeKey.
  rewrite <- (string_app_nil_r sep) at 3.
  rewrite !components_app by done. by rewrite !string_app_nil.
Qed.

Lemma SplitCompositeKey_valid k : valid k -> SplitCompositeKey k = None.
Proof.
  intros Hk%valid_nul_free. destruct k as [|c k]; [done|].
  destruct Hk as [_ Hk]. unfold SplitCompositeKey.
  by rewrite components_nul_free.
Qed.

Lemma set_state_id c : set_state c (state c) = c.
Proof. by destruct c. Qed.

Lemma peer_quiet c : faults c = [] -> peer c = (Ok tt, c).
Proof. unfold peer. by intros ->. Qed.

Lemma GetState_quiet key c :
  faults c = [] -> GetState key c = (Ok (state c !! key), c).
Proof. intros Hq. unfold GetState, bind. by rewrite peer_quiet. Qed.

Lemma PutState_quiet key val c :
  faults c = [] -> key <> "" -> val <> "" ->
  PutState key val c = (Ok tt, set_state c (<[key := val]> (state c))).
Proof.
  intros Hq Hk Hv. unfold PutState, bind, write.
  rewrite decide_False by done. rewrite peer_quiet by done.
  by rewrite decide_False by done.
Qed.

Lemma DelState_quiet key c :
  faults c = [] ->
  DelState key c = (Ok tt, set_state c (delete key (state c))).
Proof. intros Hq. unfold DelState, bind. by rewrite peer_quiet. Qed.

Lemma Close_quiet resultsIterator c :
  faults c = [] -> Close resultsIterator c = (Ok tt, c).
Proof. apply peer_quiet. Qed.

Lemma defer_Close_quiet {A} resultsIterator (body : Tx A) c r :
  faults c = [] -> body c = (r, c) ->
  defer (Close resultsIterator) body c = (r, c).
Proof. intros Hq Hb. unfold defer. by rewrite Hb, Close_quiet. Qed.

Lemma defer_Close_lift {A} resultsIterator (r : result A) c :
  faults c = [] -> defer (Close resultsIterator) (lift r) c = (r, c).
Proof. intros Hq. by apply defer_Close_quiet. Qed.

Lemma peer_state c r c' : peer c = (r, c') ->
  state c' = state c /\ clientIdentity c' = clientIdentity c.
Proof.
  unfold peer. destruct (faults c) as [|[e|] fs]; by intros [= <- <-].
Qed.

Lemma GetState_state key c r c' : GetState key c = (r, c') ->
  state c' = state c /\ clientIdentity c' = clientIdentity c.
Proof.
  unfold GetState, bind, read. destruct (peer c) as [[[]|e] c1] eqn:Hp;
    intros [= <- <-]; by apply peer_state in Hp.
Qed.


Lemma elem_of_entries w k v : (k, v) ∈ entries w <-> w !! k = Some v.
Proof.
  unfold entries. rewrite merge_sort_Permutation.
  apply elem_of_map_to_list.
Qed.

Lemma NoDup_entries w : NoDup (entries w).
Proof.
  unfold entries. rewrite merge_sort_Permutation. apply NoDup_map_to_list.
Qed.

Lemma prefix_app p s : String.prefix p (p +:+ s) = true.
Proof.
  induction p as [|a p IH]; [by destruct s|].
  rewrite string_app_cons. simpl. by destruct (ascii_dec a a).
Qed.

Lemma list_singleton {A} (l : list A) a :
  NoDup l -> a ∈ l -> (forall x, x ∈ l -> x = a) -> l = [a].
Proof.
  intros Hnd Ha Hall. destruct l as [|x l]; [by apply elem_of_nil in Ha|].
  assert (x = a) as -> by (apply Hall; left).
  f_equal. destruct l as [|y l]; [done|].
  assert (y = a) as -> by (apply Hall; right; left).
  apply NoDup_cons in Hnd as [Hnd _]. exfalso. apply Hnd. left.
Qed.

Lemma elem_of_index_refs name id w k v :
  (k, v) ∈ index_refs name id w <->
  w !! k = Some v /\ resolves name id k = true
  /\ String.prefix (compositeKeyNamespace +:+ name +:+ sep) k = true.
Proof.
  unfold index_refs, PrefixScan. rewrite !list_elem_of_filter. simpl.
  rewrite elem_of_entries. rewrite !Is_true_true. tauto.
Qed.

Lemma NoDup_index_refs name id w : NoDup (index_refs name id w).
Proof. unfold index_refs, PrefixScan. apply NoDup_filter, NoDup_filter, NoDup_entries. Qed.

Lemma CreateCompositeKey_not_valid ot a b k :
  CreateCompositeKey ot [a; b] = Ok k -> ~ valid k.
Proof.
  intros (_ & _ & _ & ->)%CreateCompositeKey_Ok Hv%valid_nul_free.
  unfold compositeKeyNamespace in Hv. rewrite string_app_cons in Hv. by destruct Hv.
Qed.

Lemma CreateCompositeKey_nonempty ot a b k :
  CreateCompositeKey ot [a; b] = Ok k -> k <> "".
Proof. by intros (_ & _ & _ & ->)%CreateCompositeKey_Ok. Qed.

Lemma CreateCompositeKey_prefix ot a b k :
  CreateCompositeKey ot [a; b] = Ok k ->
  String.prefix (compositeKeyNamespace +:+ ot +:+ sep) k = true.
Proof.
  intros (_ & _ & _ & ->)%CreateCompositeKey_Ok.
  replace (compositeKeyNamespace +:+ ot +:+ sep +:+ a +:+ sep +:+ b +:+ sep)
    with ((compositeKeyNamespace +:+ ot +:+ sep) +:+ a +:+ sep +:+ b +:+ sep)
    by (by rewrite !string_app_assoc).
  apply prefix_app.
Qed.

Lemma resolves_Create ot a b k name id :
  CreateCompositeKey ot [a; b] = Ok k ->
  resolves name id k = true <-> ot = name /\ b = id.
Proof.
  intros Hk. unfold resolves. rewrite (SplitCompositeKey_Create _ _ _ _ Hk).
  by rewrite bool_decide_eq_true.
Qed.

Lemma resolves_valid name id k : valid k -> resolves name id k = false.
Proof. intros Hk. unfold resolves. by rewrite SplitCompositeKey_valid. Qed.

(** ** The transaction monad and the stub calls *)

Lemma bind_Ok {A B} (m : Tx A) (k : A -> Tx B) c b c' :
  bind m k c = (Ok b, c') ->
  exists a c1, m c = (Ok a, c1) /\ k a c1 = (Ok b, c').
Proof.
  unfold bind. destruct (m c) as [[a|e] c1]; [|done]. intros Hk. eauto.
Qed.

Lemma bind_run {A B} (m : Tx A) (k : A -> Tx B) c a c1 :
  m c = (Ok a, c1) -> bind m k c = k a c1.
Proof. unfold bind. by intros ->. Qed.

Lemma wrapErr_Ok {A} f (m : Tx A) c a c' :
  wrapErr f m c = (Ok a, c') -> m c = (Ok a, c').
Proof. unfold wrapErr. destruct (m c) as [[a'|e] c1]; by intros [= <- <-]. Qed.

Lemma wrapErr_run {A} f (m : Tx A) c a c1 :
  m c = (Ok a, c1) -> wrapErr f m c = (Ok a, c1).
Proof. unfold wrapErr. by intros ->. Qed.

Lemma lift_Ok {A} (r : result A) c a c' :
  lift r c = (Ok a, c') -> r = Ok a /\ c' = c.
Proof. unfold lift. by intros [= -> ->]. Qed.

Lemma PutState_Ok key val c c' :
  PutState key val c = (Ok tt, c') ->
  key <> ""
  /\ state c' = (if decide (val = "") then delete key (state c)
                 else <[key := val]> (state c))
  /\ clientIdentity c' = clientIdentity c.
Proof.
  unfold PutState. case_decide as Hk; [done|].
  intros (_ & c1 & (Hs & Hc)%peer_state & Hw)%bind_Ok.
  unfold write in Hw. injection Hw as <-. simpl. by rewrite Hs, Hc.
Qed.

Lemma PutState_state key val c e c' :
  PutState key val c = (Err e, c') ->
  state c' = state c /\ clientIdentity c' = clientIdentity c.
Proof.
  unfold PutState, throw, bind, write. case_decide; [by intros [= _ <-]|].
  destruct (peer c) as [[[]|e'] c1] eqn:Hp; [done|].
  intros [= _ <-]. by apply peer_state in Hp.
Qed.

Lemma DelState_Ok key c c' :
  DelState key c = (Ok tt, c') ->
  state c' = delete key (state c) /\ clientIdentity c' = clientIdentity c.
Proof.
  unfold DelState.
  intros (_ & c1 & (Hs & Hc)%peer_state & Hw)%bind_Ok.
  unfold write in Hw. injection Hw as <-. simpl. by rewrite Hs, Hc.
Qed.

Lemma GetState_Ok key c v c' :
  GetState key c = (Ok v, c') ->
  v = state c !! key /\ state c' = state c
  /\ clientIdentity c' = clientIdentity c.
Proof.
  unfold GetState.
  intros (_ & c1 & (Hs & Hc)%peer_state & Hw)%bind_Ok.
  unfold read in Hw. injection Hw as <- <-. by rewrite Hs.
Qed.

Lemma set_state_faults c w : faults (set_state c w) = faults c.
Proof. done. Qed.

Lemma set_state_state c w : state (set_state c w) = w.
Proof. done. Qed.

Lemma set_state_twice c w w' : set_state (set_state c w) w' = set_state c w'.
Proof. done. Qed.



End shim_facts.

(** * Read-only computations *)

Lemma readonly_ret {A} (a : A) : readonly (ret a).
Proof. by intros c. Qed.

Lemma readonly_throw {A} e : readonly (throw (A:=A) e).
Proof. by intros c. Qed.

Lemma readonly_lift {A} (r : result A) : readonly (lift r).
Proof. by intros c. Qed.

Lemma readonly_peer : readonly shim.peer.
Proof.
  intros c. unfold shim.peer. by destruct (faults c) as [|[e|] fs].
Qed.

Lemma readonly_read {A} (f : gmap string string -> A) :
  readonly (shim.read f).
Proof. by intros c. Qed.

Lemma readonly_answer {A} (f : gmap string string -> result A) :
  readonly (shim.answer f).
Proof. by intros c. Qed.

Lemma readonly_bind {A B} (m : Tx A) (k : A -> Tx B) :
  readonly m -> (forall a, readonly (k a)) -> readonly (bind m k).
Proof.
  intros Hm Hk c. unfold bind. specialize (Hm c).
  destruct (m c) as [[a|e] c1]; [|done]. simpl in Hm. by rewrite Hk.
Qed.

Lemma readonly_wrapErr {A} f (m : Tx A) : readonly m -> readonly (wrapErr f m).
Proof.
  intros Hm c. unfold wrapErr. specialize (Hm c).
  by destruct (m c) as [[a|e] c1].
Qed.

Lemma readonly_Close resultsIterator : readonly (shim.Close resultsIterator).
Proof. apply readonly_peer. Qed.

Lemma readonly_defer {A B} (f : Tx B) (m : Tx A) :
  readonly f -> readonly m -> readonly (defer f m).
Proof.
  intros Hf Hm c. unfold defer. specialize (Hm c).
  destruct (m c) as [r c1]. cbn [snd] in *. by rewrite Hf.
Qed.

Lemma readonly_forget {A} (m : Tx A) : readonly m -> readonly (forget m).
Proof. intros Hm. apply readonly_bind; [done|]. intros. apply readonly_ret. Qed.

Lemma readonly_match {A B} (o : option A) (m : Tx B) (k : A -> Tx B) :
  readonly m -> (forall a, readonly (k a)) ->
  readonly (match o with None => m | Some a => k a end).
Proof. intros Hm Hk. by destruct o. Qed.

Create HintDb readonly.
#[local] Hint Resolve readonly_ret readonly_throw readonly_lift readonly_peer
  readonly_read readonly_answer readonly_wrapErr readonly_forget
  readonly_match : readonly.
#[local] Hint Extern 2 (readonly (bind _ _)) =>
  apply readonly_bind; [|intros] : readonly.
#[local] Hint Resolve readonly_Close readonly_defer : readonly.

Lemma readonly_invoke {A} (m : Tx A) cid fs w :
  readonly m -> (invoke m cid fs w).2 = w.
Proof.
  intros Hm. unfold invoke. specialize (Hm (mkCtx cid w fs)).
  by destruct (m _) as [[a|e] c1].
Qed.

Section readonly_stub.
Import shim.
Context `{StateDB}.

Lemma readonly_GetState key : readonly (GetState key).
Proof. unfold GetState. auto with readonly. Qed.

Lemma readonly_GetStateByRange startKey endKey :
  readonly (GetStateByRange startKey endKey).
Proof. unfold GetStateByRange. auto with readonly. Qed.

Lemma readonly_GetQueryResult query : readonly (GetQueryResult query).
Proof. unfold GetQueryResult. auto 6 with readonly. Qed.

Lemma readonly_GetQueryResultWithPagination query pageSize bookmark :
  readonly (GetQueryResultWithPagination query pageSize bookmark).
Proof. unfold GetQueryResultWithPagination. auto 6 with readonly. Qed.

Lemma readonly_GetStateByRangeWithPagination startKey endKey pageSize
    bookmark :
  readonly (GetStateByRangeWithPagination startKey endKey pageSize bookmark).
Proof. unfold GetStateByRangeWithPagination. auto 8 with readonly. Qed.

End readonly_stub.

#[local] Hint Resolve readonly_GetState readonly_GetStateByRange
  readonly_GetQueryResult readonly_GetQueryResultWithPagination
  readonly_GetStateByRangeWithPagination : readonly.

(** * Facts about the index invariant *)

Section index_theory.
Import shim.
Context {R : Type} `{Json R} `{!JsonLaws R}.
Variable ID : R -> string.
Variable specs : list (string * (R -> string)).

Abbreviation consistent := (consistent ID specs).
Abbreviation primary_entry := (primary_entry ID specs).
Abbreviation index_entry := (index_entry ID specs).

Lemma primary_not_value w k : ~ primary_entry w k value.
Proof.
  intros (r & Hr & _). destruct (json_value_invalid (A:=R)) as [e He].
  congruence.
Qed.

(** A stored record, in a consistent world, sits under its own ID. *)
Lemma consistent_record w k b r :
  consistent w -> w !! k = Some b -> json_Unmarshal b = Ok r ->
  primary_entry w k b /\ ID r = k /\ valid k.
Proof.
  intros Hw Hk Hr. destruct (Hw k b Hk) as [Hp|[-> _]].
  - split; [done|]. destruct Hp as (r' & Hr' & ? & ? & ? & _).
    assert (r' = r) as -> by congruence. by split.
  - destruct (json_value_invalid (A:=R)) as [e He]. congruence.
Qed.

Lemma index_key_not_valid s r k : index_key ID s r = Ok k -> ~ valid k.
Proof. apply CreateCompositeKey_not_valid. Qed.

(** After the record [id] and its index entries are gone, no index entry
    resolves to [id]. *)
Lemma refs_none w w' id name :
  consistent w ->
  (forall k v, w' !! k = Some v -> w !! k = Some v) ->
  (forall r b s key, w !! id = Some b -> json_Unmarshal b = Ok r ->
     s ∈ specs -> index_key ID s r = Ok key -> w' !! key = None) ->
  index_refs name id w' = [].
Proof.
  intros Hw Hsub Hgone. apply elem_of_nil_inv. intros [k v] Hin.
  apply elem_of_index_refs in Hin as (Hk & Hres & _).
  destruct (Hw k v (Hsub _ _ Hk)) as [Hp|[-> (s & r & b & Hs & Hb & Hr & Hkey)]].
  - destruct Hp as (_ & _ & _ & _ & Hv & _).
    by rewrite resolves_valid in Hres.
  - eapply resolves_Create in Hres as [_ Hid]; [|exact Hkey].
    rewrite Hid in Hb. specialize (Hgone r b s k Hb Hr Hs Hkey). congruence.
Qed.

(** After a fresh record [r] and its index entries are added, exactly one
    entry of each index resolves to it. *)
Lemma refs_one w w' r s key :
  consistent w -> w !! ID r = None -> valid (ID r) ->
  NoDup specs.*1 ->
  (forall k v, w' !! k = Some v ->
     w !! k = Some v \/ k = ID r \/ exists s', s' ∈ specs /\ index_key ID s' r = Ok k) ->
  s ∈ specs -> index_key ID s r = Ok key -> w' !! key = Some value ->
  index_refs s.1 (ID r) w' = [(key, value)].
Proof.
  intros Hw Hfresh Hid Hnd Hw' Hs Hkey Hin.
  apply list_singleton; [apply NoDup_index_refs| |].
  - apply elem_of_index_refs. split; [done|]. split.
    + by eapply resolves_Create.
    + by eapply CreateCompositeKey_prefix.
  - intros [k v] (Hk & Hres & _)%elem_of_index_refs.
    destruct (Hw' k v Hk) as [Hold|[->|(s' & Hs' & Hk')]].
    + destruct (Hw k v Hold) as [Hp|[-> (s' & r' & b & Hs' & Hb & Hr & Hkey')]].
      * destruct Hp as (_ & _ & _ & _ & Hv & _).
        by rewrite resolves_valid in Hres.
      * eapply resolves_Create in Hres as [_ Hid']; [|exact Hkey'].
        rewrite Hid' in Hb. congruence.
    + by rewrite resolves_valid in Hres.
    + eapply resolves_Create in Hres as [Hname _]; [|exact Hk'].
      assert (s' = s) as ->.
      { destruct s as [n f], s' as [n' f']. simpl in Hname. subst n'.
        apply list_elem_of_lookup in Hs as [i Hi], Hs' as [j Hj].
        assert (i = j) as ->.
        { eapply NoDup_lookup; [exact Hnd| |].
          - rewrite list_lookup_fmap, Hi. done.
          - rewrite list_lookup_fmap, Hj. done. }
        congruence. }
      unfold index_key in *. simplify_eq. congruence.
Qed.

Lemma keys_of_spec r keys s :
  Forall2 (fun s key => index_key ID s r = Ok key) specs keys ->
  s ∈ specs -> exists key, key ∈ keys /\ index_key ID s r = Ok key.
Proof.
  intros HF (i & Hi)%list_elem_of_lookup.
  destruct (Forall2_lookup_l _ _ _ _ _ HF Hi) as (key & Hkey & Hk).
  exists key. split; [|done]. by eapply list_elem_of_lookup_2.
Qed.

Lemma spec_of_key r keys key :
  Forall2 (fun s key => index_key ID s r = Ok key) specs keys ->
  key ∈ keys -> exists s, s ∈ specs /\ index_key ID s r = Ok key.
Proof.
  intros HF (i & Hi)%list_elem_of_lookup.
  destruct (Forall2_lookup_r _ _ _ _ _ HF Hi) as (s & Hs & Hk).
  exists s. split; [|done]. by eapply list_elem_of_lookup_2.
Qed.

Lemma key_not_valid r keys key :
  Forall2 (fun s key => index_key ID s r = Ok key) specs keys ->
  key ∈ keys -> ~ valid key.
Proof.
  intros HF Hk. destruct (spec_of_key _ _ _ HF Hk) as (s & _ & Hs).
  by eapply index_key_not_valid.
Qed.

(** Adding a fresh record with all its index entries keeps the world
    consistent. *)
Lemma consistent_create w w' r b keys :
  consistent w -> w !! ID r = None -> ID r <> "" -> valid (ID r) ->
  json_Unmarshal b = Ok r ->
  Forall2 (fun s key => index_key ID s r = Ok key) specs keys ->
  (forall k, w' !! k = if decide (k ∈ keys) then Some value
                       else if decide (k = ID r) then Some b else w !! k) ->
  consistent w'.
Proof.
  intros Hw Hfresh Hne Hv Hb HF Hw'.
  assert (w' !! ID r = Some b) as Hnew.
  { rewrite Hw'. rewrite decide_False, decide_True; [done..|].
    intros Hin. by eapply key_not_valid. }
  intros k v Hk. rewrite Hw' in Hk.
  destruct (decide (k ∈ keys)) as [Hin|Hnin].
  - right. injection Hk as <-. split; [done|].
    destruct (spec_of_key _ _ _ HF Hin) as (s & Hs & Hkey).
    by exists s, r, b.
  - destruct (decide (k = ID r)) as [->|Hkr].
    + left. injection Hk as <-. exists r. split_and!; try done.
      intros s Hs. destruct (keys_of_spec _ _ _ HF Hs) as (key & Hin & Hkey).
      exists key. split; [done|]. rewrite Hw'. by rewrite decide_True.
    + destruct (Hw k v Hk) as [Hp|Hi].
      * left. destruct Hp as (r' & Hr' & Hid' & Hne' & Hv' & Hall).
        exists r'. split_and!; try done.
        intros s Hs. destruct (Hall s Hs) as (key & Hkey & Hin).
        exists key. split; [done|]. rewrite Hw'.
        destruct (decide (key ∈ keys)); [done|].
        rewrite decide_False; [done|].
        intros ->. by eapply index_key_not_valid.
      * right. destruct Hi as (-> & s & r' & b' & Hs & Hb' & Hr' & Hkey).
        split; [done|]. exists s, r', b'. split_and!; try done.
        rewrite Hw'.
        destruct (consistent_record _ _ _ _ Hw Hb' Hr') as (_ & _ & Hvr).
        rewrite decide_False by (intros Hin; by eapply key_not_valid).
        rewrite decide_False by congruence. done.
Qed.

(** Removing a record together with all its index entries keeps the world
    consistent. *)
Lemma consistent_delete w w' id b r keys :
  consistent w -> w !! id = Some b -> json_Unmarshal b = Ok r ->
  Forall2 (fun s key => index_key ID s r = Ok key) specs keys ->
  (forall k, w' !! k = if decide (k = id \/ k ∈ keys) then None
                       else w !! k) ->
  consistent w'.
Proof.
  intros Hw Hid Hr HF Hw'.
  destruct (consistent_record _ _ _ _ Hw Hid Hr) as (_ & Hidr & Hv).
  intros k v Hk. rewrite Hw' in Hk.
  destruct (decide (k = id \/ k ∈ keys)) as [|Hnot]; [done|].
  destruct (Hw k v Hk) as [Hp|Hi].
  - left. destruct Hp as (r' & Hr' & Hid' & Hne' & Hv' & Hall).
    exists r'. split_and!; try done.
    intros s Hs. destruct (Hall s Hs) as (key & Hkey & Hin).
    exists key. split; [done|]. rewrite Hw'.
    rewrite decide_False; [done|]. intros [->|Hin'].
    + by eapply index_key_not_valid.
    + destruct (spec_of_key _ _ _ HF Hin') as (s' & _ & Hkey').
      apply SplitCompositeKey_Create in Hkey, Hkey'.
      rewrite Hkey in Hkey'. injection Hkey' as _ _ Hrr.
      apply Hnot. left. congruence.
  - right. destruct Hi as (-> & s & r' & b' & Hs & Hb' & Hr' & Hkey).
    split; [done|]. exists s, r', b'. split_and!; try done.
    rewrite Hw'. rewrite decide_False; [done|].
    destruct (consistent_record _ _ _ _ Hw Hb' Hr') as (_ & _ & Hvr).
    intros [Heq|Hin].
    + rewrite Heq in Hb'. assert (r' = r) as -> by congruence.
      apply Hnot. right.
      destruct (keys_of_spec _ _ _ HF Hs) as (key & Hin & Hkey').
      congruence.
    + by eapply key_not_valid.
Qed.

(** Overwriting a record without touching its ID or its indexed fields
    keeps the world consistent. *)
Lemma consistent_update w id b r b' r' :
  consistent w -> w !! id = Some b -> json_Unmarshal b = Ok r ->
  json_Unmarshal b' = Ok r' -> ID r' = ID r ->
  (forall s, s ∈ specs -> s.2 r' = s.2 r) ->
  consistent (<[id := b']> w).
Proof.
  intros Hw Hid Hr Hr' Hsame Hflds.
  destruct (consistent_record _ _ _ _ Hw Hid Hr) as (Hp & Hidr & Hv).
  assert (forall s, s ∈ specs -> index_key ID s r' = index_key ID s r) as Hkeys.
  { intros s Hs. unfold index_key.
    by rewrite Hsame, Hflds. }
  intros k v Hk. destruct (decide (k = id)) as [->|Hne].
  - rewrite lookup_insert_eq in Hk. injection Hk as <-. left.
    destruct Hp as (r0 & Hr0 & _ & Hne & _ & Hall).
    assert (r0 = r) as -> by congruence.
    exists r'. split_and!; try done; [congruence|].
    intros s Hs. destruct (Hall s Hs) as (key & Hkey & Hin).
    exists key. rewrite Hkeys by done. split; [done|].
    rewrite lookup_insert_ne; [done|].
    intros <-. by eapply index_key_not_valid.
  - rewrite lookup_insert_ne in Hk by done.
    destruct (Hw k v Hk) as [Hp'|Hi].
    + left. destruct Hp' as (r0 & Hr0 & Hid0 & Hne0 & Hv0 & Hall).
      exists r0. split_and!; try done.
      intros s Hs. destruct (Hall s Hs) as (key & Hkey & Hin).
      exists key. split; [done|].
      rewrite lookup_insert_ne; [done|].
      intros <-. by eapply index_key_not_valid.
    + right. destruct Hi as (-> & s & r0 & b0 & Hs & Hb0 & Hr0 & Hkey).
      split; [done|].
      destruct (decide (ID r0 = id)) as [Heq|Hneq].
      * rewrite Heq in Hb0. assert (r0 = r) as -> by congruence.
        exists s, r', b'. split_and!; try done.
        -- rewrite Hsame, Hidr. apply lookup_insert_eq.
        -- by rewrite Hkeys.
      * exists s, r0, b0. split_and!; try done.
        by rewrite lookup_insert_ne.
Qed.

End index_theory.

Lemma lookup_put_all keys w k :
  put_all keys w !! k = if decide (k ∈ keys) then Some value else w !! k.
Proof.
  revert w. induction keys as [|a keys IH]; intros w; [done|].
  cbn [put_all foldl]. fold (put_all keys (<[a:=value]> w)). rewrite IH.
  destruct (decide (k ∈ keys)) as [Hin|Hnin].
  - rewrite decide_True; [done|]. by right.
  - destruct (decide (k = a)) as [->|Hne].
    + rewrite lookup_insert_eq. rewrite decide_True; [done|]. by left.
    + rewrite lookup_insert_ne by done. rewrite decide_False; [done|].
      by intros [?|?]%elem_of_cons.
Qed.

Lemma lookup_del_all keys w k :
  del_all keys w !! k = if decide (k ∈ keys) then None else w !! k.
Proof.
  revert w. induction keys as [|a keys IH]; intros w; [done|].
  cbn [del_all foldl]. fold (del_all keys (delete a w)). rewrite IH.
  destruct (decide (k ∈ keys)) as [Hin|Hnin].
  - rewrite decide_True; [done|]. by right.
  - destruct (decide (k = a)) as [->|Hne].
    + rewrite lookup_delete_eq. rewrite decide_True; [done|]. by left.
    + rewrite lookup_delete_ne by done. rewrite decide_False; [done|].
      by intros [?|?]%elem_of_cons.
Qed.

Lemma consistent_empty {R} `{Json R} (ID : R -> string) specs :
  consistent ID specs ∅.
Proof. intros k v Hk. by rewrite lookup_empty in Hk. Qed.

Section index_maintenance.
Import shim.
Context {R : Type} `{Json R} `{!JsonLaws R}.
Variable ID : R -> string.
Variable specs : list (string * (R -> string)).

(** [AddIndexes] after the primary write of a fresh record. *)
Lemma consistent_put_all w r b keys :
  consistent ID specs w -> w !! ID r = None -> ID r <> "" -> valid (ID r) ->
  json_Unmarshal b = Ok r ->
  Forall2 (fun s key => index_key ID s r = Ok key) specs keys ->
  consistent ID specs (put_all keys (<[ID r := b]> w)).
Proof.
  intros Hw Hfresh Hne Hv Hb HF.
  eapply consistent_create; try done.
  intros k. rewrite lookup_put_all. case_decide; [done|].
  case_decide as Hk; [rewrite Hk; apply lookup_insert_eq|].
  by rewrite lookup_insert_ne.
Qed.

Lemma refs_put_all w r b keys s key :
  consistent ID specs w -> w !! ID r = None -> valid (ID r) ->
  NoDup specs.*1 ->
  Forall2 (fun s key => index_key ID s r = Ok key) specs keys ->
  s ∈ specs -> index_key ID s r = Ok key ->
  index_refs s.1 (ID r) (put_all keys (<[ID r := b]> w)) = [(key, value)].
Proof.
  intros Hw Hfresh Hv Hnd HF Hs Hkey.
  eapply refs_one; try done.
  - intros k v. rewrite lookup_put_all. case_decide as Hin.
    + intros _. right; right. by eapply spec_of_key.
    + destruct (decide (k = ID r)) as [->|Hk]; [by right; left|].
      rewrite lookup_insert_ne by done. by left.
  - rewrite lookup_put_all. rewrite decide_True; [done|].
    destruct (keys_of_spec _ _ _ _ _ HF Hs) as (key' & Hin & Hkey').
    congruence.
Qed.

(** [RemoveIndexes] after the primary delete. *)
Lemma consistent_del_all w id b r keys :
  consistent ID specs w -> w !! id = Some b -> json_Unmarshal b = Ok r ->
  Forall2 (fun s key => index_key ID s r = Ok key) specs keys ->
  consistent ID specs (del_all keys (delete id w)).
Proof.
  intros Hw Hid Hr HF. eapply consistent_delete; try done.
  intros k. rewrite lookup_del_all.
  destruct (decide (k ∈ keys)) as [Hin|Hnin].
  - rewrite decide_True; [done|]. by right.
  - destruct (decide (k = id)) as [->|Hk].
    + rewrite lookup_delete_eq. rewrite decide_True; [done|]. by left.
    + rewrite lookup_delete_ne by done. rewrite decide_False; [done|].
      by intros [?|?].
Qed.

Lemma refs_del_all w id b r keys name :
  consistent ID specs w -> w !! id = Some b -> json_Unmarshal b = Ok r ->
  Forall2 (fun s key => index_key ID s r = Ok key) specs keys ->
  index_refs name id (del_all keys (delete id w)) = [].
Proof.
  intros Hw Hid Hr HF. eapply refs_none; try done.
  - intros k v. rewrite lookup_del_all. case_decide; [done|].
    destruct (decide (k = id)) as [->|Hk].
    + by rewrite lookup_delete_eq.
    + by rewrite lookup_delete_ne.
  - intros r' b' s key Hb' Hr' Hs Hkey.
    assert (r' = r) as -> by congruence.
    rewrite lookup_del_all. rewrite decide_True; [done|].
    destruct (keys_of_spec _ _ _ _ _ HF Hs) as (key' & Hin & Hkey').
    congruence.
Qed.

Lemma lookup_del_all_primary w id keys :
  del_all keys (delete id w) !! id = None.
Proof.
  rewrite lookup_del_all. case_decide; [done|]. apply lookup_delete_eq.
Qed.

Lemma lookup_put_all_primary w r b keys :
  valid (ID r) ->
  Forall2 (fun s key => index_key ID s r = Ok key) specs keys ->
  put_all keys (<[ID r := b]> w) !! ID r = Some b.
Proof.
  intros Hv HF. rewrite lookup_put_all. rewrite decide_False.
  - apply lookup_insert_eq.
  - intros Hin. by eapply key_not_valid.
Qed.

End index_maintenance.


(** * Facts about chaincode/lab *)

Section lab_facts.
Import shim lab.
Context `{Json Lab} `{!JsonLaws Lab} `{StateDB}.

Lemma ReadLab_state labID c r c' : ReadLab labID c = (r, c') ->
  state c' = state c /\ clientIdentity c' = clientIdentity c.
Proof.
  unfold ReadLab, bind, wrapErr, throw, lift.
  destruct (GetState labID c) as [[[b|]|e] c1] eqn:Hg;
    intros [= <- <-]; by apply GetState_state in Hg.
Qed.

Lemma ReadLab_Ok labID c lab c' :
  ReadLab labID c = (Ok lab, c') ->
  exists b, state c !! labID = Some b /\ json_Unmarshal b = Ok lab.
Proof.
  unfold ReadLab.
  intros (v & c1 & (-> & _)%wrapErr_Ok%GetState_Ok & Hk)%bind_Ok.
  destruct (state c !! labID) as [b|]; [|done].
  apply lift_Ok in Hk as [Hb _]. eauto.
Qed.

Lemma ReadLab_quiet labID c b lab :
  faults c = [] -> state c !! labID = Some b -> json_Unmarshal b = Ok lab ->
  ReadLab labID c = (Ok lab, c).
Proof.
  intros Hq Hb Hl. unfold ReadLab, bind, wrapErr, lift.
  by rewrite GetState_quiet, Hb, Hl.
Qed.

Lemma LabExists_quiet labID c :
  faults c = [] ->
  LabExists labID c = (Ok (bool_decide (state c !! labID <> None)), c).
Proof.
  intros Hq. unfold LabExists, bind, wrapErr, ret.
  by rewrite GetState_quiet.
Qed.

Lemma CreateLab_quiet labID classID name content image startTime endTime
    owner c b key :
  faults c = [] -> state c !! labID = None -> labID <> "" ->
  json_Marshal
    (mkLab "lab" labID classID name content image startTime endTime owner)
    = Ok b ->
  CreateCompositeKey index [classID; labID] = Ok key ->
  CreateLab labID classID name content image startTime endTime owner c
  = (Ok tt, set_state c (<[key := value]> (<[labID := b]> (state c)))).
Proof.
  intros Hq Hfresh Hid Hb Hkey.
  unfold CreateLab, bind, wrapErr, throw, lift.
  rewrite LabExists_quiet, Hfresh by done. simpl.
  rewrite Hb. rewrite PutState_quiet; [|done..|by eapply json_nonempty].
  rewrite Hkey. rewrite PutState_quiet; [done|done| |done].
  by eapply CreateCompositeKey_nonempty.
Qed.

Lemma CreateLab_Ok labID classID name content image startTime endTime
    owner c c' :
  CreateLab labID classID name content image startTime endTime owner c
  = (Ok tt, c') ->
  exists b key,
    state c !! labID = None /\ labID <> ""
    /\ json_Marshal
         (mkLab "lab" labID classID name content image startTime endTime owner)
       = Ok b
    /\ CreateCompositeKey index [classID; labID] = Ok key
    /\ state c' = <[key := value]> (<[labID := b]> (state c)).
Proof.
  unfold CreateLab.
  intros (ex & c1 & Hex%wrapErr_Ok & Hk)%bind_Ok.
  unfold LabExists in Hex.
  apply bind_Ok in Hex as (v & c0 & (-> & Hs0 & _)%wrapErr_Ok%GetState_Ok & Hret).
  injection Hret as <- <-.
  case_bool_decide as Hfresh; [done|].
  apply bind_Ok in Hk as (b & c2 & [Hb ->]%lift_Ok & Hk).
  apply bind_Ok in Hk as ([] & c3 & (Hid & Hs3 & _)%PutState_Ok & Hk).
  apply bind_Ok in Hk as (key & c4 & [Hkey ->]%lift_Ok & Hk).
  apply PutState_Ok in Hk as (_ & Hs' & _).
  rewrite decide_False in Hs3 by (by eapply json_nonempty).
  rewrite decide_False in Hs' by done.
  exists b, key. split_and!; try done. by rewrite Hs', Hs3, Hs0.
Qed.

Lemma DeleteLab_quiet labID clientID c b lab key :
  faults c = [] -> state c !! labID = Some b -> json_Unmarshal b = Ok lab ->
  clientID = Owner lab ->
  CreateCompositeKey index [ClassID lab; ID lab] = Ok key ->
  DeleteLab labID clientID c
  = (Ok tt, set_state c (delete key (delete labID (state c)))).
Proof.
  intros Hq Hb Hl -> Hkey. unfold DeleteLab.
  rewrite (bind_run _ _ _ _ _ (ReadLab_quiet _ _ _ _ Hq Hb Hl)).
  rewrite decide_False by (by intros []).
  unfold bind, wrapErr, lift. rewrite DelState_quiet by done.
  rewrite Hkey. by rewrite DelState_quiet.
Qed.

Lemma DeleteLab_Ok labID clientID c c' :
  DeleteLab labID clientID c = (Ok tt, c') ->
  exists b lab key,
    state c !! labID = Some b /\ json_Unmarshal b = Ok lab
    /\ clientID = Owner lab
    /\ CreateCompositeKey index [ClassID lab; ID lab] = Ok key
    /\ state c' = delete key (delete labID (state c)).
Proof.
  unfold DeleteLab. intros (lab & c1 & Hr & Hk)%bind_Ok.
  destruct (ReadLab_Ok _ _ _ _ Hr) as (b & Hb & Hl).
  apply ReadLab_state in Hr as [Hs1 _].
  case_decide as Ho; [done|].
  apply bind_Ok in Hk as ([] & c2 & (Hs2 & _)%wrapErr_Ok%DelState_Ok & Hk).
  apply bind_Ok in Hk as (key & c3 & [Hkey ->]%lift_Ok & Hk).
  apply DelState_Ok in Hk as [Hs' _].
  exists b, lab, key. split_and!; try done. by rewrite Hs', Hs2, Hs1.
Qed.

(** The four update operations share one shape: the record is read, the
    owner checked, and one marshalled record written back under the same
    key. *)
Ltac update_Ok :=
  let lab := fresh "lab" in
  let b := fresh "b" in
  let b' := fresh "b'" in
  let Hr := fresh "Hr" in
  let Hk := fresh "Hk" in
  let Hs := fresh "Hs" in
  let Hs' := fresh "Hs'" in
  intros (lab & ? & Hr & Hk)%bind_Ok;
  destruct (ReadLab_Ok _ _ _ _ Hr) as (b & ? & ?);
  apply ReadLab_state in Hr as [Hs _];
  case_decide; [done|];
  apply bind_Ok in Hk as (b' & ? & [? ->]%lift_Ok & Hk);
  apply PutState_Ok in Hk as (_ & Hs' & _);
  rewrite decide_False in Hs' by (by eapply json_nonempty);
  exists b, lab, b'; split_and!; try done; by rewrite Hs', Hs.

Lemma UpdateLabContent_Ok labID newContent clientID c c' :
  UpdateLabContent labID newContent clientID c = (Ok tt, c') ->
  exists b lab b',
    state c !! labID = Some b /\ json_Unmarshal b = Ok lab
    /\ clientID = Owner lab
    /\ json_Marshal
         (mkLab (DocType lab) (ID lab) (ClassID lab) (Name lab) newContent
            (Image lab) (StartTime lab) (EndTime lab) (Owner lab)) = Ok b'
    /\ state c' = <[labID := b']> (state c).
Proof. unfold UpdateLabContent. update_Ok. Qed.

Lemma UpdateLabImage_Ok labID newImage clientID c c' :
  UpdateLabImage labID newImage clientID c = (Ok tt, c') ->
  exists b lab b',
    state c !! labID = Some b /\ json_Unmarshal b = Ok lab
    /\ clientID = Owner lab
    /\ json_Marshal
         (mkLab (DocType lab) (ID lab) (ClassID lab) (Name lab) (Content lab)
            newImage (StartTime lab) (EndTime lab) (Owner lab)) = Ok b'
    /\ state c' = <[labID := b']> (state c).
Proof. unfold UpdateLabImage. update_Ok. Qed.

Lemma UpdateLabEndtime_Ok labID newTime clientID c c' :
  UpdateLabEndtime labID newTime clientID c = (Ok tt, c') ->
  exists b lab b',
    state c !! labID = Some b /\ json_Unmarshal b = Ok lab
    /\ clientID = Owner lab
    /\ json_Marshal
         (mkLab (DocType lab) (ID lab) (ClassID lab) (Name lab) (Content lab)
            (Image lab) (StartTime lab) newTime (Owner lab)) = Ok b'
    /\ state c' = <[labID := b']> (state c).
Proof. unfold UpdateLabEndtime. update_Ok. Qed.

Lemma UpdateLab_Ok labID newImage newName newContent newStartTime newEndTime
    clientID c c' :
  UpdateLab labID newImage newName newContent newStartTime newEndTime
    clientID c = (Ok tt, c') ->
  exists b lab b',
    state c !! labID = Some b /\ json_Unmarshal b = Ok lab
    /\ clientID = Owner lab
    /\ json_Marshal
         (mkLab (DocType lab) (ID lab) (ClassID lab) newName newContent
            newImage newStartTime newEndTime (Owner lab)) = Ok b'
    /\ state c' = <[labID := b']> (state c).
Proof. unfold UpdateLab. update_Ok. Qed.

Lemma DeleteLab_unauthorized labID clientID c lab c1 :
  ReadLab labID c = (Ok lab, c1) -> clientID <> Owner lab ->
  DeleteLab labID clientID c
  = (Err "submitting client not authorized to delete lab, does not own lab",
     c1).
Proof.
  intros Hr Ho. unfold DeleteLab. rewrite (bind_run _ _ _ _ _ Hr).
  by rewrite decide_True.
Qed.

Lemma lab_index_valid : valid index.
Proof. reflexivity. Qed.

Lemma lab_keys lab key :
  CreateCompositeKey index [ClassID lab; ID lab] = Ok key ->
  Forall2 (fun s key => index_key ID s lab = Ok key) lab_specs [key].
Proof. intros Hkey. by repeat constructor. Qed.

Lemma lab_specs_NoDup : NoDup lab_specs.*1.
Proof. apply NoDup_singleton. Qed.

Lemma CreateLab_spec labID classID name content image startTime endTime
    owner c :
  let lab :=
    mkLab "lab" labID classID name content image startTime endTime owner in
  faults c = [] -> consistent ID lab_specs (state c) ->
  state c !! labID = None -> labID <> "" -> valid classID -> valid labID ->
  exists c' key,
    CreateLab labID classID name content image startTime endTime owner c
      = (Ok tt, c')
    /\ key = compositeKeyNamespace +:+ index +:+ sep +:+ classID +:+ sep
             +:+ labID +:+ sep
    /\ LabExists labID c' = (Ok true, c')
    /\ ReadLab labID c' = (Ok lab, c')
    /\ index_refs index labID (state c') = [(key, value)]
    /\ consistent ID lab_specs (state c').
Proof.
  intros lab Hq Hw Hfresh Hne Hcl Hid.
  destruct (json_roundtrip lab) as (b & Hb & Hl).
  pose proof (composite_key index _ _ eq_refl Hcl Hid) as Hkey.
  pose proof (lab_keys lab _ Hkey) as HF.
  set (w' := put_all [compositeKeyNamespace +:+ index +:+ sep +:+ classID
                      +:+ sep +:+ labID +:+ sep] (<[labID := b]> (state c))).
  assert (w' !! labID = Some b) as Hin
    by exact (lookup_put_all_primary ID lab_specs (state c) lab b _ Hid HF).
  eexists (set_state c w'), _. split; [by eapply CreateLab_quiet|].
  split_and!; try done.
  - rewrite LabExists_quiet by done. rewrite set_state_state.
    by rewrite Hin, bool_decide_true.
  - by eapply ReadLab_quiet.
  - apply (refs_put_all ID lab_specs (state c) lab b _ (index, ClassID));
      try done; [apply lab_specs_NoDup|by left].
  - by apply (consistent_put_all ID lab_specs (state c) lab b).
Qed.

Lemma DeleteLab_spec labID lab c :
  faults c = [] -> consistent ID lab_specs (state c) ->
  ReadLab labID c = (Ok lab, c) ->
  exists c',
    DeleteLab labID (Owner lab) c = (Ok tt, c')
    /\ LabExists labID c' = (Ok false, c')
    /\ index_refs index labID (state c') = []
    /\ consistent ID lab_specs (state c').
Proof.
  intros Hq Hw Hr. destruct (ReadLab_Ok _ _ _ _ Hr) as (b & Hb & Hl).
  destruct (consistent_record _ _ _ _ _ _ Hw Hb Hl) as (Hp & Hid & Hv).
  destruct Hp as (lab' & Hl' & _ & _ & _ & Hall).
  assert (lab' = lab) as -> by congruence.
  destruct (Hall (index, ClassID)) as (key & Hkey & Hin); [by left|].
  pose proof (lab_keys lab _ Hkey) as HF.
  set (w' := del_all [key] (delete labID (state c))).
  exists (set_state c w'). split; [by eapply DeleteLab_quiet|].
  split_and!.
  - rewrite LabExists_quiet by done. rewrite set_state_state. unfold w'.
    rewrite lookup_del_all_primary. by rewrite bool_decide_false by auto.
  - by eapply refs_del_all.
  - by eapply consistent_del_all.
Qed.

End lab_facts.

(** * Facts about chaincode/instance *)

Section instance_facts.
Import shim instance.
Context `{Json Instance} `{!JsonLaws Instance} `{StateDB}.

Lemma ReadInstance_state instanceID c r c' :
  ReadInstance instanceID c = (r, c') ->
  state c' = state c /\ clientIdentity c' = clientIdentity c.
Proof.
  unfold ReadInstance, bind, wrapErr, throw, lift.
  destruct (GetState instanceID c) as [[[b|]|e] c1] eqn:Hg;
    intros [= <- <-]; by apply GetState_state in Hg.
Qed.

Lemma ReadInstance_Ok instanceID c i c' :
  ReadInstance instanceID c = (Ok i, c') ->
  exists b, state c !! instanceID = Some b /\ json_Unmarshal b = Ok i.
Proof.
  unfold ReadInstance.
  intros (v & c1 & (-> & _)%wrapErr_Ok%GetState_Ok & Hk)%bind_Ok.
  destruct (state c !! instanceID) as [b|]; [|done].
  apply lift_Ok in Hk as [Hb _]. eauto.
Qed.

Lemma ReadInstance_quiet instanceID c b i :
  faults c = [] -> state c !! instanceID = Some b ->
  json_Unmarshal b = Ok i ->
  ReadInstance instanceID c = (Ok i, c).
Proof.
  intros Hq Hb Hl. unfold ReadInstance, bind, wrapErr, lift.
  by rewrite GetState_quiet, Hb, Hl.
Qed.

Lemma InstanceExists_quiet instanceID c :
  faults c = [] ->
  InstanceExists instanceID c
  = (Ok (bool_decide (state c !! instanceID <> None)), c).
Proof.
  intros Hq. unfold InstanceExists, bind, wrapErr, ret.
  by rewrite GetState_quiet.
Qed.

Lemma instance_keys i k1 k2 k3 :
  CreateCompositeKey index1 [LabID i; ID i] = Ok k1 ->
  CreateCompositeKey index2 [ClassID i; ID i] = Ok k2 ->
  CreateCompositeKey index3 [Owner i; ID i] = Ok k3 ->
  Forall2 (fun s key => index_key ID s i = Ok key) instance_specs
    [k1; k2; k3].
Proof. intros. by repeat constructor. Qed.

Lemma instance_specs_NoDup : NoDup instance_specs.*1.
Proof. by apply (bool_decide_unpack _). Qed.

Lemma CreateInstance_quiet instanceID labID classID config owner c b k1 k2 k3 :
  faults c = [] -> state c !! instanceID = None -> instanceID <> "" ->
  json_Marshal (mkInstance "instance" instanceID classID labID config owner)
    = Ok b ->
  CreateCompositeKey index1 [labID; instanceID] = Ok k1 ->
  CreateCompositeKey index2 [classID; instanceID] = Ok k2 ->
  CreateCompositeKey index3 [owner; instanceID] = Ok k3 ->
  CreateInstance instanceID labID classID config owner c
  = (Ok tt,
     set_state c (put_all [k1; k2; k3] (<[instanceID := b]> (state c)))).
Proof.
  intros Hq Hfresh Hid Hb Hk1 Hk2 Hk3.
  unfold CreateInstance, bind, wrapErr, throw, lift, orReturn.
  rewrite InstanceExists_quiet, Hfresh by done. simpl.
  rewrite Hb. rewrite PutState_quiet; [|done..|by eapply json_nonempty].
  rewrite Hk1.
  rewrite PutState_quiet; [|done|by eapply CreateCompositeKey_nonempty|done].
  rewrite Hk2.
  rewrite PutState_quiet; [|done|by eapply CreateCompositeKey_nonempty|done].
  rewrite Hk3.
  rewrite PutState_quiet; [|done|by eapply CreateCompositeKey_nonempty|done].
  done.
Qed.

(** Under any ledger: a [CreateInstance] that returns [nil] has written the
    record and its first index entry, and either nothing more (the second
    index write failed) or the other two index entries as well. *)
Lemma CreateInstance_Ok instanceID labID classID config owner c c' :
  CreateInstance instanceID labID classID config owner c = (Ok tt, c') ->
  exists b k1 k2,
    state c !! instanceID = None /\ instanceID <> ""
    /\ json_Marshal (mkInstance "instance" instanceID classID labID config owner)
       = Ok b
    /\ CreateCompositeKey index1 [labID; instanceID] = Ok k1
    /\ CreateCompositeKey index2 [classID; instanceID] = Ok k2
    /\ (state c' = put_all [k1] (<[instanceID := b]> (state c))
        \/ exists k3,
             CreateCompositeKey index3 [owner; instanceID] = Ok k3
             /\ state c'
                = put_all [k1; k2; k3] (<[instanceID := b]> (state c))).
Proof.
  unfold CreateInstance.
  intros (ex & c1 & Hex%wrapErr_Ok & Hk)%bind_Ok.
  unfold InstanceExists in Hex.
  apply bind_Ok in Hex
    as (v & c0 & (-> & Hs0 & _)%wrapErr_Ok%GetState_Ok & Hret).
  injection Hret as <- <-.
  case_bool_decide as Hfresh; [done|].
  apply bind_Ok in Hk as (b & c2 & [Hb ->]%lift_Ok & Hk).
  apply bind_Ok in Hk as ([] & c3 & (Hid & Hs3 & _)%PutState_Ok & Hk).
  rewrite decide_False in Hs3 by (by eapply json_nonempty).
  apply bind_Ok in Hk as (k1 & c4 & [Hk1 ->]%lift_Ok & Hk).
  apply bind_Ok in Hk as ([] & c5 & (_ & Hs5 & _)%PutState_Ok & Hk).
  rewrite decide_False in Hs5 by done.
  apply bind_Ok in Hk as (k2 & c6 & [Hk2 ->]%lift_Ok & Hk).
  exists b, k1, k2. split_and!; try done.
  unfold orReturn in Hk.
  destruct (PutState k2 value c5) as [[[]|e] c7] eqn:Hp2.
  - apply PutState_Ok in Hp2 as (_ & Hs7 & _).
    rewrite decide_False in Hs7 by done.
    apply bind_Ok in Hk as (k3 & c8 & [Hk3 ->]%lift_Ok & Hk).
    apply PutState_Ok in Hk as (_ & Hs' & _).
    rewrite decide_False in Hs' by done.
    right. exists k3. split; [done|].
    by rewrite Hs', Hs7, Hs5, Hs3, Hs0.
  - injection Hk as <-. apply PutState_state in Hp2 as [Hs7 _].
    left. by rewrite Hs7, Hs5, Hs3, Hs0.
Qed.

Lemma DeleteInstance_quiet instanceID clientID c b i k1 k2 k3 :
  faults c = [] -> state c !! instanceID = Some b ->
  json_Unmarshal b = Ok i -> clientID = Owner i ->
  CreateCompositeKey index1 [LabID i; ID i] = Ok k1 ->
  CreateCompositeKey index2 [ClassID i; ID i] = Ok k2 ->
  CreateCompositeKey index3 [Owner i; ID i] = Ok k3 ->
  DeleteInstance instanceID clientID c
  = (Ok tt, set_state c (del_all [k1; k2; k3] (delete instanceID (state c)))).
Proof.
  intros Hq Hb Hl -> Hk1 Hk2 Hk3. unfold DeleteInstance.
  rewrite (bind_run _ _ _ _ _ (ReadInstance_quiet _ _ _ _ Hq Hb Hl)).
  rewrite decide_False by (by intros []).
  unfold bind, wrapErr, lift. rewrite DelState_quiet by done.
  rewrite Hk1. rewrite DelState_quiet by done.
  rewrite Hk2. rewrite DelState_quiet by done.
  rewrite Hk3. by rewrite DelState_quiet.
Qed.

Lemma DeleteInstance_Ok instanceID clientID c c' :
  DeleteInstance instanceID clientID c = (Ok tt, c') ->
  exists b i k1 k2 k3,
    state c !! instanceID = Some b /\ json_Unmarshal b = Ok i
    /\ clientID = Owner i
    /\ CreateCompositeKey index1 [LabID i; ID i] = Ok k1
    /\ CreateCompositeKey index2 [ClassID i; ID i] = Ok k2
    /\ CreateCompositeKey index3 [Owner i; ID i] = Ok k3
    /\ state c' = del_all [k1; k2; k3] (delete instanceID (state c)).
Proof.
  unfold DeleteInstance. intros (i & c1 & Hr & Hk)%bind_Ok.
  destruct (ReadInstance_Ok _ _ _ _ Hr) as (b & Hb & Hl).
  apply ReadInstance_state in Hr as [Hs1 _].
  case_decide as Ho; [done|].
  apply bind_Ok in Hk as ([] & c2 & (Hs2 & _)%wrapErr_Ok%DelState_Ok & Hk).
  apply bind_Ok in Hk as (k1 & c3 & [Hk1 ->]%lift_Ok & Hk).
  apply bind_Ok in Hk as ([] & c4 & (Hs4 & _)%DelState_Ok & Hk).
  apply bind_Ok in Hk as (k2 & c5 & [Hk2 ->]%lift_Ok & Hk).
  apply bind_Ok in Hk as ([] & c6 & (Hs6 & _)%DelState_Ok & Hk).
  apply bind_Ok in Hk as (k3 & c7 & [Hk3 ->]%lift_Ok & Hk).
  apply DelState_Ok in Hk as [Hs' _].
  exists b, i, k1, k2, k3. split_and!; try done.
  by rewrite Hs', Hs6, Hs4, Hs2, Hs1.
Qed.

Lemma DeleteInstance_unauthorized instanceID clientID c i c1 :
  ReadInstance instanceID c = (Ok i, c1) -> clientID <> Owner i ->
  DeleteInstance instanceID clientID c
  = (Err "submitting client not authorized to delete lab, does not own lab",
     c1).
Proof.
  intros Hr Ho. unfold DeleteInstance. rewrite (bind_run _ _ _ _ _ Hr).
  by rewrite decide_True.
Qed.

Lemma CreateInstance_spec instanceID labID classID config owner c :
  let i := mkInstance "instance" instanceID classID labID config owner in
  let key name a :=
    compositeKeyNamespace +:+ name +:+ sep +:+ a +:+ sep +:+ instanceID
      +:+ sep in
  faults c = [] -> consistent ID instance_specs (state c) ->
  state c !! instanceID = None -> instanceID <> "" ->
  valid labID -> valid classID -> valid owner -> valid instanceID ->
  exists c',
    CreateInstance instanceID labID classID config owner c = (Ok tt, c')
    /\ InstanceExists instanceID c' = (Ok true, c')
    /\ ReadInstance instanceID c' = (Ok i, c')
    /\ index_refs index1 instanceID (state c') = [(key index1 labID, value)]
    /\ index_refs index2 instanceID (state c') = [(key index2 classID, value)]
    /\ index_refs index3 instanceID (state c') = [(key index3 owner, value)]
    /\ consistent ID instance_specs (state c').
Proof.
  intros i key Hq Hw Hfresh Hne Hl Hcl Ho Hid.
  destruct (json_roundtrip i) as (b & Hb & Hi).
  pose proof (composite_key index1 _ _ eq_refl Hl Hid) as Hk1.
  pose proof (composite_key index2 _ _ eq_refl Hcl Hid) as Hk2.
  pose proof (composite_key index3 _ _ eq_refl Ho Hid) as Hk3.
  pose proof (instance_keys i _ _ _ Hk1 Hk2 Hk3) as HF.
  set (w' := put_all [key index1 labID; key index2 classID; key index3 owner]
               (<[instanceID := b]> (state c))).
  assert (w' !! instanceID = Some b) as Hin
    by exact (lookup_put_all_primary ID instance_specs (state c) i b _ Hid HF).
  exists (set_state c w'). split; [by eapply CreateInstance_quiet|].
  split_and!.
  - rewrite InstanceExists_quiet by done. rewrite set_state_state.
    by rewrite Hin, bool_decide_true.
  - by eapply ReadInstance_quiet.
  - apply (refs_put_all ID instance_specs (state c) i b _ (index1, LabID));
      try done; [apply instance_specs_NoDup|by left].
  - apply (refs_put_all ID instance_specs (state c) i b _ (index2, ClassID));
      try done; [apply instance_specs_NoDup|by right; left].
  - apply (refs_put_all ID instance_specs (state c) i b _ (index3, Owner));
      try done; [apply instance_specs_NoDup|by do 2 right; left].
  - by apply (consistent_put_all ID instance_specs (state c) i b).
Qed.

Lemma DeleteInstance_spec instanceID i c :
  faults c = [] -> consistent ID instance_specs (state c) ->
  ReadInstance instanceID c = (Ok i, c) ->
  exists c',
    DeleteInstance instanceID (Owner i) c = (Ok tt, c')
    /\ InstanceExists instanceID c' = (Ok false, c')
    /\ (forall name, index_refs name instanceID (state c') = [])
    /\ consistent ID instance_specs (state c').
Proof.
  intros Hq Hw Hr. destruct (ReadInstance_Ok _ _ _ _ Hr) as (b & Hb & Hl).
  destruct (consistent_record _ _ _ _ _ _ Hw Hb Hl) as (Hp & Hid & Hv).
  destruct Hp as (i' & Hl' & _ & _ & _ & Hall).
  assert (i' = i) as -> by congruence.
  destruct (Hall (index1, LabID)) as (k1 & Hk1 & _); [by left|].
  destruct (Hall (index2, ClassID)) as (k2 & Hk2 & _); [by right; left|].
  destruct (Hall (index3, Owner)) as (k3 & Hk3 & _); [by do 2 right; left|].
  pose proof (instance_keys i _ _ _ Hk1 Hk2 Hk3) as HF.
  set (w' := del_all [k1; k2; k3] (delete instanceID (state c))).
  exists (set_state c w'). split; [by eapply DeleteInstance_quiet|].
  split_and!.
  - rewrite InstanceExists_quiet by done. rewrite set_state_state. unfold w'.
    rewrite lookup_del_all_primary. by rewrite bool_decide_false by auto.
  - intros name. by eapply refs_del_all.
  - by eapply consistent_del_all.
Qed.

End instance_facts.

(** * Facts about chaincode/submission *)

Section submission_facts.
Import shim submission.
Context `{Json Submission} `{!JsonLaws Submission} `{StateDB}.

Lemma ReadSubmission_state submissionID c r c' :
  ReadSubmission submissionID c = (r, c') ->
  state c' = state c /\ clientIdentity c' = clientIdentity c.
Proof.
  unfold ReadSubmission, bind, wrapErr, throw, lift.
  destruct (GetState submissionID c) as [[[b|]|e] c1] eqn:Hg;
    intros [= <- <-]; by apply GetState_state in Hg.
Qed.

Lemma ReadSubmission_Ok submissionID c i c' :
  ReadSubmission submissionID c = (Ok i, c') ->
  exists b, state c !! submissionID = Some b /\ json_Unmarshal b = Ok i.
Proof.
  unfold ReadSubmission.
  intros (v & c1 & (-> & _)%wrapErr_Ok%GetState_Ok & Hk)%bind_Ok.
  destruct (state c !! submissionID) as [b|]; [|done].
  apply lift_Ok in Hk as [Hb _]. eauto.
Qed.

Lemma ReadSubmission_quiet submissionID c b i :
  faults c = [] -> state c !! submissionID = Some b ->
  json_Unmarshal b = Ok i ->
  ReadSubmission submissionID c = (Ok i, c).
Proof.
  intros Hq Hb Hl. unfold ReadSubmission, bind, wrapErr, lift.
  by rewrite GetState_quiet, Hb, Hl.
Qed.

Lemma SubmissionExists_quiet submissionID c :
  faults c = [] ->
  SubmissionExists submissionID c
  = (Ok (bool_decide (state c !! submissionID <> None)), c).
Proof.
  intros Hq. unfold SubmissionExists, bind, wrapErr, ret.
  by rewrite GetState_quiet.
Qed.

Lemma submission_keys i k1 k2 k3 :
  CreateCompositeKey index1 [LabID i; ID i] = Ok k1 ->
  CreateCompositeKey index2 [ClassID i; ID i] = Ok k2 ->
  CreateCompositeKey index3 [Owner i; ID i] = Ok k3 ->
  Forall2 (fun s key => index_key ID s i = Ok key) submission_specs
    [k1; k2; k3].
Proof. intros. by repeat constructor. Qed.

Lemma submission_specs_NoDup : NoDup submission_specs.*1.
Proof. by apply (bool_decide_unpack _). Qed.

Lemma CreateSubmission_quiet submissionID labID classID content owner c b k1 k2 k3 :
  faults c = [] -> state c !! submissionID = None -> submissionID <> "" ->
  json_Marshal (mkSubmission "submission" submissionID classID labID content owner 0)
    = Ok b ->
  CreateCompositeKey index1 [labID; submissionID] = Ok k1 ->
  CreateCompositeKey index2 [classID; submissionID] = Ok k2 ->
  CreateCompositeKey index3 [owner; submissionID] = Ok k3 ->
  CreateSubmission submissionID labID classID content owner c
  = (Ok tt,
     set_state c (put_all [k1; k2; k3] (<[submissionID := b]> (state c)))).
Proof.
  intros Hq Hfresh Hid Hb Hk1 Hk2 Hk3.
  unfold CreateSubmission, bind, wrapErr, throw, lift, orReturn.
  rewrite SubmissionExists_quiet, Hfresh by done. simpl.
  rewrite Hb. rewrite PutState_quiet; [|done..|by eapply json_nonempty].
  rewrite Hk1.
  rewrite PutState_quiet; [|done|by eapply CreateCompositeKey_nonempty|done].
  rewrite Hk2.
  rewrite PutState_quiet; [|done|by eapply CreateCompositeKey_nonempty|done].
  rewrite Hk3.
  rewrite PutState_quiet; [|done|by eapply CreateCompositeKey_nonempty|done].
  done.
Qed.

(** Under any ledger: a [CreateSubmission] that returns [nil] has written the
    record and its first index entry, and either nothing more (the second
    index write failed) or the other two index entries as well. *)
Lemma CreateSubmission_Ok submissionID labID classID content owner c c' :
  CreateSubmission submissionID labID classID content owner c = (Ok tt, c') ->
  exists b k1 k2,
    state c !! submissionID = None /\ submissionID <> ""
    /\ json_Marshal (mkSubmission "submission" submissionID classID labID content owner 0)
       = Ok b
    /\ CreateCompositeKey index1 [labID; submissionID] = Ok k1
    /\ CreateCompositeKey index2 [classID; submissionID] = Ok k2
    /\ (state c' = put_all [k1] (<[submissionID := b]> (state c))
        \/ exists k3,
             CreateCompositeKey index3 [owner; submissionID] = Ok k3
             /\ state c'
                = put_all [k1; k2; k3] (<[submissionID := b]> (state c))).
Proof.
  unfold CreateSubmission.
  intros (ex & c1 & Hex%wrapErr_Ok & Hk)%bind_Ok.
  unfold SubmissionExists in Hex.
  apply bind_Ok in Hex
    as (v & c0 & (-> & Hs0 & _)%wrapErr_Ok%GetState_Ok & Hret).
  injection Hret as <- <-.
  case_bool_decide as Hfresh; [done|].
  apply bind_Ok in Hk as (b & c2 & [Hb ->]%lift_Ok & Hk).
  apply bind_Ok in Hk as ([] & c3 & (Hid & Hs3 & _)%PutState_Ok & Hk).
  rewrite decide_False in Hs3 by (by eapply json_nonempty).
  apply bind_Ok in Hk as (k1 & c4 & [Hk1 ->]%lift_Ok & Hk).
  apply bind_Ok in Hk as ([] & c5 & (_ & Hs5 & _)%PutState_Ok & Hk).
  rewrite decide_False in Hs5 by done.
  apply bind_Ok in Hk as (k2 & c6 & [Hk2 ->]%lift_Ok & Hk).
  exists b, k1, k2. split_and!; try done.
  unfold orReturn in Hk.
  destruct (PutState k2 value c5) as [[[]|e] c7] eqn:Hp2.
  - apply PutState_Ok in Hp2 as (_ & Hs7 & _).
    rewrite decide_False in Hs7 by done.
    apply bind_Ok in Hk as (k3 & c8 & [Hk3 ->]%lift_Ok & Hk).
    apply PutState_Ok in Hk as (_ & Hs' & _).
    rewrite decide_False in Hs' by done.
    right. exists k3. split; [done|].
    by rewrite Hs', Hs7, Hs5, Hs3, Hs0.
  - injection Hk as <-. apply PutState_state in Hp2 as [Hs7 _].
    left. by rewrite Hs7, Hs5, Hs3, Hs0.
Qed.

Lemma DeleteSubmission_quiet submissionID c b i k1 k2 k3 :
  faults c = [] -> state c !! submissionID = Some b ->
  json_Unmarshal b = Ok i ->
  CreateCompositeKey index1 [LabID i; ID i] = Ok k1 ->
  CreateCompositeKey index2 [ClassID i; ID i] = Ok k2 ->
  CreateCompositeKey index3 [Owner i; ID i] = Ok k3 ->
  DeleteSubmission submissionID c
  = (Ok tt,
     set_state c (del_all [k1; k2; k3] (delete submissionID (state c)))).
Proof.
  intros Hq Hb Hl Hk1 Hk2 Hk3. unfold DeleteSubmission.
  rewrite (bind_run _ _ _ _ _ (ReadSubmission_quiet _ _ _ _ Hq Hb Hl)).
  unfold bind, wrapErr, lift. rewrite DelState_quiet by done.
  rewrite Hk1. rewrite DelState_quiet by done.
  rewrite Hk2. rewrite DelState_quiet by done.
  rewrite Hk3. by rewrite DelState_quiet.
Qed.

Lemma DeleteSubmission_Ok submissionID c c' :
  DeleteSubmission submissionID c = (Ok tt, c') ->
  exists b i k1 k2 k3,
    state c !! submissionID = Some b /\ json_Unmarshal b = Ok i
    /\ CreateCompositeKey index1 [LabID i; ID i] = Ok k1
    /\ CreateCompositeKey index2 [ClassID i; ID i] = Ok k2
    /\ CreateCompositeKey index3 [Owner i; ID i] = Ok k3
    /\ state c' = del_all [k1; k2; k3] (delete submissionID (state c)).
Proof.
  unfold DeleteSubmission. intros (i & c1 & Hr & Hk)%bind_Ok.
  destruct (ReadSubmission_Ok _ _ _ _ Hr) as (b & Hb & Hl).
  apply ReadSubmission_state in Hr as [Hs1 _].
  apply bind_Ok in Hk as ([] & c2 & (Hs2 & _)%wrapErr_Ok%DelState_Ok & Hk).
  apply bind_Ok in Hk as (k1 & c3 & [Hk1 ->]%lift_Ok & Hk).
  apply bind_Ok in Hk as ([] & c4 & (Hs4 & _)%DelState_Ok & Hk).
  apply bind_Ok in Hk as (k2 & c5 & [Hk2 ->]%lift_Ok & Hk).
  apply bind_Ok in Hk as ([] & c6 & (Hs6 & _)%DelState_Ok & Hk).
  apply bind_Ok in Hk as (k3 & c7 & [Hk3 ->]%lift_Ok & Hk).
  apply DelState_Ok in Hk as [Hs' _].
  exists b, i, k1, k2, k3. split_and!; try done.
  by rewrite Hs', Hs6, Hs4, Hs2, Hs1.
Qed.

Lemma UpdateSubmissionScore_quiet submissionID newScore c b i b' :
  faults c = [] -> state c !! submissionID = Some b ->
  json_Unmarshal b = Ok i -> submissionID <> "" ->
  json_Marshal
    (mkSubmission (DocType i) (ID i) (ClassID i) (LabID i) (Content i)
       (Owner i) newScore) = Ok b' ->
  UpdateSubmissionScore submissionID newScore c
  = (Ok tt, set_state c (<[submissionID := b']> (state c))).
Proof.
  intros Hq Hb Hl Hne Hb'. unfold UpdateSubmissionScore.
  rewrite (bind_run _ _ _ _ _ (ReadSubmission_quiet _ _ _ _ Hq Hb Hl)).
  unfold bind, lift. rewrite Hb'.
  rewrite PutState_quiet; [done..|by eapply json_nonempty].
Qed.

Lemma UpdateSubmissionScore_Ok submissionID newScore c c' :
  UpdateSubmissionScore submissionID newScore c = (Ok tt, c') ->
  exists b i b',
    state c !! submissionID = Some b /\ json_Unmarshal b = Ok i
    /\ json_Marshal
         (mkSubmission (DocType i) (ID i) (ClassID i) (LabID i) (Content i)
            (Owner i) newScore) = Ok b'
    /\ state c' = <[submissionID := b']> (state c).
Proof.
  unfold UpdateSubmissionScore. intros (i & c1 & Hr & Hk)%bind_Ok.
  destruct (ReadSubmission_Ok _ _ _ _ Hr) as (b & Hb & Hl).
  apply ReadSubmission_state in Hr as [Hs1 _].
  apply bind_Ok in Hk as (b' & c2 & [Hb' ->]%lift_Ok & Hk).
  apply PutState_Ok in Hk as (_ & Hs' & _).
  rewrite decide_False in Hs' by (by eapply json_nonempty).
  exists b, i, b'. split_and!; try done. by rewrite Hs', Hs1.
Qed.

Lemma CreateSubmission_spec submissionID labID classID content owner c :
  let i := mkSubmission "submission" submissionID classID labID content owner 0 in
  let key name a :=
    compositeKeyNamespace +:+ name +:+ sep +:+ a +:+ sep +:+ submissionID
      +:+ sep in
  faults c = [] -> consistent ID submission_specs (state c) ->
  state c !! submissionID = None -> submissionID <> "" ->
  valid labID -> valid classID -> valid owner -> valid submissionID ->
  exists c',
    CreateSubmission submissionID labID classID content owner c = (Ok tt, c')
    /\ SubmissionExists submissionID c' = (Ok true, c')
    /\ ReadSubmission submissionID c' = (Ok i, c')
    /\ index_refs index1 submissionID (state c') = [(key index1 labID, value)]
    /\ index_refs index2 submissionID (state c') = [(key index2 classID, value)]
    /\ index_refs index3 submissionID (state c') = [(key index3 owner, value)]
    /\ consistent ID submission_specs (state c').
Proof.
  intros i key Hq Hw Hfresh Hne Hl Hcl Ho Hid.
  destruct (json_roundtrip i) as (b & Hb & Hi).
  pose proof (composite_key index1 _ _ eq_refl Hl Hid) as Hk1.
  pose proof (composite_key index2 _ _ eq_refl Hcl Hid) as Hk2.
  pose proof (composite_key index3 _ _ eq_refl Ho Hid) as Hk3.
  pose proof (submission_keys i _ _ _ Hk1 Hk2 Hk3) as HF.
  set (w' := put_all [key index1 labID; key index2 classID; key index3 owner]
               (<[submissionID := b]> (state c))).
  assert (w' !! submissionID = Some b) as Hin
    by exact (lookup_put_all_primary ID submission_specs (state c) i b _ Hid HF).
  exists (set_state c w'). split; [by eapply CreateSubmission_quiet|].
  split_and!.
  - rewrite SubmissionExists_quiet by done. rewrite set_state_state.
    by rewrite Hin, bool_decide_true.
  - by eapply ReadSubmission_quiet.
  - apply (refs_put_all ID submission_specs (state c) i b _ (index1, LabID));
      try done; [apply submission_specs_NoDup|by left].
  - apply (refs_put_all ID submission_specs (state c) i b _ (index2, ClassID));
      try done; [apply submission_specs_NoDup|by right; left].
  - apply (refs_put_all ID submission_specs (state c) i b _ (index3, Owner));
      try done; [apply submission_specs_NoDup|by do 2 right; left].
  - by apply (consistent_put_all ID submission_specs (state c) i b).
Qed.

Lemma DeleteSubmission_spec submissionID i c :
  faults c = [] -> consistent ID submission_specs (state c) ->
  ReadSubmission submissionID c = (Ok i, c) ->
  exists c',
    DeleteSubmission submissionID c = (Ok tt, c')
    /\ SubmissionExists submissionID c' = (Ok false, c')
    /\ (forall name, index_refs name submissionID (state c') = [])
    /\ consistent ID submission_specs (state c').
Proof.
  intros Hq Hw Hr. destruct (ReadSubmission_Ok _ _ _ _ Hr) as (b & Hb & Hl).
  destruct (consistent_record _ _ _ _ _ _ Hw Hb Hl) as (Hp & Hid & Hv).
  destruct Hp as (i' & Hl' & _ & _ & _ & Hall).
  assert (i' = i) as -> by congruence.
  destruct (Hall (index1, LabID)) as (k1 & Hk1 & _); [by left|].
  destruct (Hall (index2, ClassID)) as (k2 & Hk2 & _); [by right; left|].
  destruct (Hall (index3, Owner)) as (k3 & Hk3 & _); [by do 2 right; left|].
  pose proof (submission_keys i _ _ _ Hk1 Hk2 Hk3) as HF.
  set (w' := del_all [k1; k2; k3] (delete submissionID (state c))).
  exists (set_state c w'). split; [by eapply DeleteSubmission_quiet|].
  split_and!.
  - rewrite SubmissionExists_quiet by done. rewrite set_state_state. unfold w'.
    rewrite lookup_del_all_primary. by rewrite bool_decide_false by auto.
  - intros name. by eapply refs_del_all.
  - by eapply consistent_del_all.
Qed.

End submission_facts.

(** * Facts about chaincode/class *)

Section class_facts.
Import shim class.
Context `{Json Class} `{!JsonLaws Class} `{Base64}.

Lemma GetSubmittingClientIdentity_run c :
  GetSubmittingClientIdentity c = (submitter (clientIdentity c), c).
Proof.
  unfold GetSubmittingClientIdentity, submitter, bind, wrapErr, client, lift,
    ret.
  destruct (GetID (clientIdentity c)) as [b64|e]; [|done].
  by destruct (base64_DecodeString b64).
Qed.

Lemma ReadClass_state id c r c' : ReadClass id c = (r, c') ->
  state c' = state c /\ clientIdentity c' = clientIdentity c.
Proof.
  unfold ReadClass, bind, wrapErr, throw, lift.
  destruct (GetState id c) as [[[b|]|e] c1] eqn:Hg;
    intros [= <- <-]; by apply GetState_state in Hg.
Qed.

Lemma ReadClass_Ok id c class c' :
  ReadClass id c = (Ok class, c') ->
  exists b, state c !! id = Some b /\ json_Unmarshal b = Ok class.
Proof.
  unfold ReadClass.
  intros (v & c1 & (-> & _)%wrapErr_Ok%GetState_Ok & Hk)%bind_Ok.
  destruct (state c !! id) as [b|]; [|done].
  apply lift_Ok in Hk as [Hb _]. eauto.
Qed.

Lemma ReadClass_quiet id c b class :
  faults c = [] -> state c !! id = Some b -> json_Unmarshal b = Ok class ->
  ReadClass id c = (Ok class, c).
Proof.
  intros Hq Hb Hl. unfold ReadClass, bind, wrapErr, lift.
  by rewrite GetState_quiet, Hb, Hl.
Qed.

Lemma ClassExists_quiet id c :
  faults c = [] ->
  ClassExists id c = (Ok (bool_decide (state c !! id <> None)), c).
Proof.
  intros Hq. unfold ClassExists, bind, wrapErr, ret.
  by rewrite GetState_quiet.
Qed.

(** Under any ledger: a [CreateClass] that returns [nil] was submitted by a
    client holding the creator attribute, for a fresh id, and has stored the
    record with the submitter as owner. *)
Lemma CreateClass_Ok id name content owner c c' :
  CreateClass id name content owner c = (Ok tt, c') ->
  exists clientID classJSON,
    AssertAttributeValue (clientIdentity c) "class.creator" "true" = Ok tt
    /\ state c !! id = None /\ id <> ""
    /\ submitter (clientIdentity c) = Ok clientID
    /\ json_Marshal (mkClass id name content clientID) = Ok classJSON
    /\ state c' = <[id := classJSON]> (state c)
    /\ clientIdentity c' = clientIdentity c.
Proof.
  unfold CreateClass.
  intros ([] & c1 & Ha%wrapErr_Ok & Hk)%bind_Ok.
  unfold client in Ha. injection Ha as Ha <-.
  apply bind_Ok in Hk as (ex & c2 & Hex & Hk).
  unfold ClassExists in Hex.
  apply bind_Ok in Hex
    as (v & c0 & (-> & Hs0 & Hc0)%wrapErr_Ok%GetState_Ok & Hret).
  injection Hret as <- <-.
  case_bool_decide as Hfresh; [done|].
  apply bind_Ok in Hk as (clientID & c3 & Hid & Hk).
  rewrite GetSubmittingClientIdentity_run in Hid. injection Hid as Hid <-.
  apply bind_Ok in Hk as (b & c4 & [Hb ->]%lift_Ok & Hk).
  apply PutState_Ok in Hk as (Hne & Hs' & Hc').
  rewrite decide_False in Hs' by (by eapply json_nonempty).
  exists clientID, b. rewrite Hc0 in Hid.
  split_and!; try done; [by rewrite Hs', Hs0|by rewrite Hc', Hc0].
Qed.

Lemma CreateClass_quiet id name content owner c clientID classJSON :
  faults c = [] ->
  AssertAttributeValue (clientIdentity c) "class.creator" "true" = Ok tt ->
  state c !! id = None -> id <> "" ->
  submitter (clientIdentity c) = Ok clientID ->
  json_Marshal (mkClass id name content clientID) = Ok classJSON ->
  CreateClass id name content owner c
  = (Ok tt, set_state c (<[id := classJSON]> (state c))).
Proof.
  intros Hq Ha Hfresh Hne Hid Hb.
  unfold CreateClass, bind, wrapErr, client, throw, lift.
  rewrite Ha. rewrite ClassExists_quiet, Hfresh by done. simpl.
  rewrite GetSubmittingClientIdentity_run, Hid. rewrite Hb.
  rewrite PutState_quiet; [done..|by eapply json_nonempty].
Qed.

Lemma DeleteClass_quiet id c b class :
  faults c = [] -> state c !! id = Some b -> json_Unmarshal b = Ok class ->
  submitter (clientIdentity c) = Ok (Owner class) ->
  DeleteClass id c = (Ok tt, set_state c (delete id (state c))).
Proof.
  intros Hq Hb Hl Hid. unfold DeleteClass.
  rewrite (bind_run _ _ _ _ _ (ReadClass_quiet _ _ _ _ Hq Hb Hl)).
  unfold bind. rewrite GetSubmittingClientIdentity_run, Hid.
  rewrite decide_False by (by intros []).
  by rewrite DelState_quiet.
Qed.

(** The three owner-gated operations stop at the comparison. *)
Lemma UpdateClass_unauthorized id newName newContent c class c1 clientID :
  ReadClass id c = (Ok class, c1) ->
  submitter (clientIdentity c) = Ok clientID -> clientID <> Owner class ->
  UpdateClass id newName newContent c
  = (Err "submitting client not authorized to update class, does not own class",
     c1).
Proof.
  intros Hr Hid Ho. unfold UpdateClass. rewrite (bind_run _ _ _ _ _ Hr).
  apply ReadClass_state in Hr as [_ Hc].
  unfold bind. rewrite GetSubmittingClientIdentity_run, Hc, Hid.
  by rewrite decide_True.
Qed.

Lemma DeleteClass_unauthorized id c class c1 clientID :
  ReadClass id c = (Ok class, c1) ->
  submitter (clientIdentity c) = Ok clientID -> clientID <> Owner class ->
  DeleteClass id c
  = (Err "submitting client not authorized to update class, does not own class",
     c1).
Proof.
  intros Hr Hid Ho. unfold DeleteClass. rewrite (bind_run _ _ _ _ _ Hr).
  apply ReadClass_state in Hr as [_ Hc].
  unfold bind. rewrite GetSubmittingClientIdentity_run, Hc, Hid.
  by rewrite decide_True.
Qed.

Lemma TransferClass_unauthorized id newOwner c class c1 clientID :
  ReadClass id c = (Ok class, c1) ->
  submitter (clientIdentity c) = Ok clientID -> clientID <> Owner class ->
  TransferClass id newOwner c
  = (Err "submitting client not authorized to update class, does not own class",
     c1).
Proof.
  intros Hr Hid Ho. unfold TransferClass. rewrite (bind_run _ _ _ _ _ Hr).
  apply ReadClass_state in Hr as [_ Hc].
  unfold bind. rewrite GetSubmittingClientIdentity_run, Hc, Hid.
  by rewrite decide_True.
Qed.

End class_facts.

(** * The claims *)

(** ** The owner of a class *)

Section class_claims.
Import shim class.
Context `{Json Class} `{!JsonLaws Class} `{Base64}.

Lemma createAll_frame cs c c' k :
  createAll cs c = (Ok tt, c') -> k ∉ ID <$> cs ->
  state c' !! k = state c !! k /\ clientIdentity c' = clientIdentity c.
Proof.
  revert c. induction cs as [|x cs IH]; intros c Hrun Hk.
  { by injection Hrun as <-. }
  cbn [createAll] in Hrun.
  apply bind_Ok in Hrun as ([] & c1 & Hx & Hrest).
  apply CreateClass_Ok in Hx as (_ & b & _ & _ & _ & _ & _ & Hs1 & Hc1).
  rewrite fmap_cons in Hk. apply not_elem_of_cons in Hk as [Hkx Hk].
  destruct (IH _ Hrest Hk) as [-> ->].
  split; [|done]. rewrite Hs1. by apply lookup_insert_ne.
Qed.

Lemma createAll_Ok cs c c' :
  createAll cs c = (Ok tt, c') ->
  NoDup (ID <$> cs) ->
  forall class, class ∈ cs ->
    exists clientID classJSON,
      submitter (clientIdentity c) = Ok clientID
      /\ json_Marshal
           (mkClass (ID class) (Name class) (Content class) clientID)
         = Ok classJSON
      /\ state c' !! ID class = Some classJSON.
Proof.
  revert c. induction cs as [|x cs IH]; intros c Hrun Hnd class Hin.
  { by apply elem_of_nil in Hin. }
  cbn [createAll] in Hrun.
  apply bind_Ok in Hrun as ([] & c1 & Hx & Hrest).
  apply CreateClass_Ok in Hx
    as (clientID & b & _ & _ & _ & Hid & Hb & Hs1 & Hc1).
  rewrite fmap_cons in Hnd. apply NoDup_cons in Hnd as [Hx Hnd].
  apply elem_of_cons in Hin as [->|Hin].
  - exists clientID, b. split_and!; [done..|].
    destruct (createAll_frame _ _ _ _ Hrest Hx) as [-> _].
    rewrite Hs1. apply lookup_insert_eq.
  - rewrite <- Hc1. by apply (IH c1).
Qed.

(** C10. [CreateClass] never reads its [owner] parameter: the record it
    stores is the JSON text of the struct whose owner is the base64-decoded
    identity of the submitting client.  Two calls that differ only in the
    owner argument are the same computation, and the records [InitLedger]
    stores are built with its submitter as owner, not with the owners named
    in its slice. *)
Theorem CreateClass_owner_is_submitter :
  (forall id name content owner owner',
     CreateClass id name content owner = CreateClass id name content owner')
  /\ (forall id name content owner c c',
        CreateClass id name content owner c = (Ok tt, c') ->
        exists clientID classJSON,
          submitter (clientIdentity c) = Ok clientID
          /\ json_Marshal (mkClass id name content clientID) = Ok classJSON
          /\ state c' !! id = Some classJSON)
  /\ (forall c c',
        InitLedger c = (Ok tt, c') ->
        forall class, class ∈ classes ->
          exists clientID classJSON,
            submitter (clientIdentity c) = Ok clientID
            /\ json_Marshal
                 (mkClass (ID class) (Name class) (Content class) clientID)
               = Ok classJSON
            /\ state c' !! ID class = Some classJSON).
Proof.
  split_and!.
  - done.
  - intros id name content owner c c' Hrun.
    apply CreateClass_Ok in Hrun
      as (clientID & b & _ & _ & _ & Hid & Hb & Hs & _).
    exists clientID, b. split_and!; [done..|].
    rewrite Hs. apply lookup_insert_eq.
  - intros c c' Hrun. eapply createAll_Ok; [done|].
    by apply (bool_decide_unpack _).
Qed.

End class_claims.

Lemma CreateClass_owner_is_submitter_witness :
  let c := ledger.quiet ledger.tom ∅ in
  let c' := ledger.quiet ledger.tom
              {[ "class1" :=
                   sample.encode
                     (sample.class_fields
                        (class.mkClass "class1" "class1" "test" "Tom")) ]} in
  class.CreateClass "class1" "class1" "test" "Tomoko" c = (Ok tt, c')
  /\ exists clientID classJSON,
       submitter (clientIdentity c) = Ok clientID
       /\ json_Marshal (class.mkClass "class1" "class1" "test" clientID)
          = Ok classJSON
       /\ state c' !! "class1" = Some classJSON.
Proof.
  intros c c'.
  assert (class.CreateClass "class1" "class1" "test" "Tomoko" c = (Ok tt, c'))
    as Hrun by (vm_compute; reflexivity).
  split; [exact Hrun|].
  exact (proj1 (proj2 CreateClass_owner_is_submitter) _ _ _ _ _ _ Hrun).
Defined.

(** ** Ownership-gated mutation *)

Section lab_refusals.
Import shim lab.
Context `{Json Lab} `{!JsonLaws Lab} `{StateDB}.

Ltac unauthorized Hr :=
  rewrite (bind_run _ _ _ _ _ Hr); by rewrite decide_True.

Lemma lab_mutations_refused labID clientID c l c1 :
  ReadLab labID c = (Ok l, c1) -> clientID <> Owner l ->
  refused (DeleteLab labID clientID) c
    "submitting client not authorized to delete lab, does not own lab"
  /\ (forall newContent,
        refused (UpdateLabContent labID newContent clientID) c
          "submitting client not authorized to update lab, does not own lab")
  /\ (forall newImage,
        refused (UpdateLabImage labID newImage clientID) c
          "submitting client not authorized to update lab, does not own lab")
  /\ (forall newTime,
        refused (UpdateLabEndtime labID newTime clientID) c
          "submitting client not authorized to update lab, does not own lab")
  /\ (forall newImage newName newContent newStartTime newEndTime,
        refused
          (UpdateLab labID newImage newName newContent newStartTime
             newEndTime clientID) c
          "submitting client not authorized to update lab, does not own lab").
Proof.
  intros Hr Ho. pose proof (ReadLab_state _ _ _ _ Hr) as [Hs _].
  split_and!; intros; exists c1; (split; [|done]).
  - unfold DeleteLab. unauthorized Hr.
  - unfold UpdateLabContent. unauthorized Hr.
  - unfold UpdateLabImage. unauthorized Hr.
  - unfold UpdateLabEndtime. unauthorized Hr.
  - unfold UpdateLab. unauthorized Hr.
Qed.

End lab_refusals.

Section refusals.
Context `{Json lab.Lab} `{!JsonLaws lab.Lab}.
Context `{Json instance.Instance} `{!JsonLaws instance.Instance}.
Context `{Json submission.Submission} `{!JsonLaws submission.Submission}.
Context `{Json class.Class} `{!JsonLaws class.Class}.
Context `{shim.StateDB} `{Base64}.

(** C1 (amended). For the Lab, Instance and Class kinds, every mutating
    operation other than Create that is invoked for a record owned by [O]
    with a caller identity different from [O] reports the authorization
    error of its kind and leaves the world state, primary entry and index
    entries alike, as it was.  The Submission kind has no such gate:
    [DeleteSubmission] and [UpdateSubmissionScore] take no caller identity
    and succeed on an existing submission whoever submits them. *)
Theorem unauthorized_mutation_is_refused :
  (forall labID clientID c l c1,
     lab.ReadLab labID c = (Ok l, c1) -> clientID <> lab.Owner l ->
     refused (lab.DeleteLab labID clientID) c
       "submitting client not authorized to delete lab, does not own lab"
     /\ (forall newContent,
           refused (lab.UpdateLabContent labID newContent clientID) c
             "submitting client not authorized to update lab, does not own lab")
     /\ (forall newImage,
           refused (lab.UpdateLabImage labID newImage clientID) c
             "submitting client not authorized to update lab, does not own lab")
     /\ (forall newTime,
           refused (lab.UpdateLabEndtime labID newTime clientID) c
             "submitting client not authorized to update lab, does not own lab")
     /\ (forall newImage newName newContent newStartTime newEndTime,
           refused
             (lab.UpdateLab labID newImage newName newContent newStartTime
                newEndTime clientID) c
             "submitting client not authorized to update lab, does not own lab"))
  /\ (forall instanceID clientID c i c1,
        instance.ReadInstance instanceID c = (Ok i, c1) ->
        clientID <> instance.Owner i ->
        refused (instance.DeleteInstance instanceID clientID) c
          "submitting client not authorized to delete lab, does not own lab")
  /\ (forall id c cl c1 clientID,
        class.ReadClass id c = (Ok cl, c1) ->
        submitter (clientIdentity c) = Ok clientID ->
        clientID <> class.Owner cl ->
        (forall newName newContent,
           refused (class.UpdateClass id newName newContent) c
             "submitting client not authorized to update class, does not own class")
        /\ refused (class.DeleteClass id) c
             "submitting client not authorized to update class, does not own class"
        /\ (forall newOwner,
              refused (class.TransferClass id newOwner) c
                "submitting client not authorized to update class, does not own class"))
  /\ (forall submissionID c s,
        faults c = [] ->
        consistent submission.ID submission_specs (state c) ->
        submission.ReadSubmission submissionID c = (Ok s, c) ->
        (exists c',
           submission.DeleteSubmission submissionID c = (Ok tt, c')
           /\ state c' !! submissionID = None)
        /\ (forall newScore, exists c',
              submission.UpdateSubmissionScore submissionID newScore c
                = (Ok tt, c')
              /\ submission.ReadSubmission submissionID c'
                 = (Ok (submission.mkSubmission
                          (submission.DocType s) (submission.ID s)
                          (submission.ClassID s) (submission.LabID s)
                          (submission.Content s) (submission.Owner s)
                          newScore), c'))).
Proof.
  split_and!.
  - intros. by eapply lab_mutations_refused.
  - intros instanceID clientID c i c1 Hr Ho. exists c1.
    split; [by eapply DeleteInstance_unauthorized|].
    by apply ReadInstance_state in Hr as [-> _].
  - intros id c cl c1 clientID Hr Hid Ho.
    pose proof (ReadClass_state _ _ _ _ Hr) as [Hs _].
    split_and!; intros; exists c1; (split; [|done]).
    + by eapply UpdateClass_unauthorized.
    + by eapply DeleteClass_unauthorized.
    + by eapply TransferClass_unauthorized.
  - intros submissionID c s Hq Hw Hr.
    destruct (ReadSubmission_Ok _ _ _ _ Hr) as (b & Hb & Hs).
    destruct (consistent_record _ _ _ _ _ _ Hw Hb Hs) as (Hp & _ & _).
    destruct Hp as (_ & _ & _ & Hne & _).
    split.
    + destruct (DeleteSubmission_spec _ _ _ Hq Hw Hr)
        as (c' & Hrun & Hex & _).
      exists c'. split; [done|].
      pose proof (DeleteSubmission_Ok _ _ _ Hrun)
        as (b0 & i0 & k1 & k2 & k3 & _ & _ & _ & _ & _ & ->).
      apply lookup_del_all_primary.
    + intros newScore.
      destruct (json_roundtrip
                  (submission.mkSubmission
                     (submission.DocType s) (submission.ID s)
                     (submission.ClassID s) (submission.LabID s)
                     (submission.Content s) (submission.Owner s) newScore))
        as (b' & Hb' & Hs').
      eexists. split; [by eapply UpdateSubmissionScore_quiet|].
      eapply ReadSubmission_quiet; [done| |done].
      apply lookup_insert_eq.
Qed.

End refusals.

Lemma unauthorized_mutation_is_refused_witness :
  let c := ledger.quiet ledger.sam ledger.labs in
  let l := lab.mkLab "lab" "lab1" "class1" "class1" "test" "1" "2022" "2022"
             "Tom" in
  lab.ReadLab "lab1" c = (Ok l, c)
  /\ "Sam" <> lab.Owner l
  /\ refused (lab.DeleteLab "lab1" "Sam") c
       "submitting client not authorized to delete lab, does not own lab".
Proof.
  intros c l.
  assert (lab.ReadLab "lab1" c = (Ok l, c)) as Hr by (vm_compute; reflexivity).
  assert ("Sam" <> lab.Owner l) as Ho by discriminate.
  split_and!; [exact Hr|exact Ho|].
  exact (proj1 (proj1 unauthorized_mutation_is_refused _ _ _ _ _ Hr Ho)).
Defined.

(** C1 as stated fails for the Submission kind: a submission owned by Tom is
    deleted, and its score overwritten, in a transaction submitted by Sam. *)
Lemma DeleteSubmission_by_another_client :
  let c := ledger.quiet ledger.sam ledger.submissions in
  submitter (clientIdentity c) = Ok "Sam"
  /\ (submission.ReadSubmission "submission1" c).1
     = Ok (submission.mkSubmission "submission" "submission1" "class1" "lab1"
             "test" "Tom" 0)
  /\ (submission.DeleteSubmission "submission1" c).1 = Ok tt
  /\ state (submission.DeleteSubmission "submission1" c).2 !! "submission1"
     = None
  /\ (submission.UpdateSubmissionScore "submission1" 100 c).1 = Ok tt
  /\ (submission.ReadSubmission "submission1"
        (submission.UpdateSubmissionScore "submission1" 100 c).2).1
     = Ok (submission.mkSubmission "submission" "submission1" "class1" "lab1"
             "test" "Tom" 100).
Proof. vm_compute. by split_and!. Qed.

(** ** Create on an existing id *)

Lemma peer_answers c :
  answers c ->
  exists c1, shim.peer c = (Ok tt, c1) /\ state c1 = state c
             /\ clientIdentity c1 = clientIdentity c.
Proof.
  unfold answers, shim.peer. destruct (faults c) as [|[e|] fs]; [|done|];
    intros _; eexists; by split_and!.
Qed.

Lemma GetState_answers key c :
  answers c ->
  exists c1, shim.GetState key c = (Ok (state c !! key), c1)
             /\ state c1 = state c /\ clientIdentity c1 = clientIdentity c.
Proof.
  intros (c1 & Hp & Hs & Hc)%peer_answers. exists c1.
  unfold shim.GetState, bind, shim.read. rewrite Hp. by rewrite Hs.
Qed.

Lemma lookup_put_all_Some keys w id b :
  w !! id = Some b -> is_Some (put_all keys w !! id).
Proof. intros Hb. rewrite lookup_put_all. case_decide; eauto. Qed.

Section second_create.
Context `{Json lab.Lab} `{!JsonLaws lab.Lab}.
Context `{Json instance.Instance} `{!JsonLaws instance.Instance}.
Context `{Json submission.Submission} `{!JsonLaws submission.Submission}.
Context `{Json class.Class} `{!JsonLaws class.Class}.
Context `{shim.StateDB} `{Base64}.

Lemma CreateLab_exists labID classID name content image startTime endTime
    owner c :
  is_Some (state c !! labID) -> answers c ->
  refused
    (lab.CreateLab labID classID name content image startTime endTime owner)
    c ("lab already exists: " +:+ labID).
Proof.
  intros [b Hb] Ha.
  destruct (GetState_answers labID c Ha) as (c1 & Hg & Hs & _).
  exists c1. split; [|done].
  unfold lab.CreateLab, lab.LabExists, bind, wrapErr, ret, throw.
  rewrite Hg, Hb. by rewrite bool_decide_true.
Qed.

Lemma CreateInstance_exists instanceID labID classID config owner c :
  is_Some (state c !! instanceID) -> answers c ->
  refused (instance.CreateInstance instanceID labID classID config owner)
    c ("instance already exists: " +:+ labID).
Proof.
  intros [b Hb] Ha.
  destruct (GetState_answers instanceID c Ha) as (c1 & Hg & Hs & _).
  exists c1. split; [|done].
  unfold instance.CreateInstance, instance.InstanceExists, bind, wrapErr, ret,
    throw.
  rewrite Hg, Hb. by rewrite bool_decide_true.
Qed.

Lemma CreateSubmission_exists submissionID labID classID content owner c :
  is_Some (state c !! submissionID) -> answers c ->
  refused
    (submission.CreateSubmission submissionID labID classID content owner)
    c ("instance already exists: " +:+ labID).
Proof.
  intros [b Hb] Ha.
  destruct (GetState_answers submissionID c Ha) as (c1 & Hg & Hs & _).
  exists c1. split; [|done].
  unfold submission.CreateSubmission, submission.SubmissionExists, bind,
    wrapErr, ret, throw.
  rewrite Hg, Hb. by rewrite bool_decide_true.
Qed.

Lemma CreateClass_exists id name content owner c :
  AssertAttributeValue (clientIdentity c) "class.creator" "true" = Ok tt ->
  is_Some (state c !! id) -> answers c ->
  refused (class.CreateClass id name content owner) c
    ("the class " +:+ id +:+ " already exists").
Proof.
  intros Hattr [b Hb] Ha.
  destruct (GetState_answers id c Ha) as (c1 & Hg & Hs & _).
  exists c1. split; [|done].
  unfold class.CreateClass, class.ClassExists, bind, wrapErr, ret, throw,
    client.
  rewrite Hattr, Hg, Hb. by rewrite bool_decide_true.
Qed.

Lemma CreateClass_not_creator id name content owner c :
  AssertAttributeValue (clientIdentity c) "class.creator" "true" <> Ok tt ->
  refused (class.CreateClass id name content owner) c
    "submitting client not authorized to create class, does not have class.creator role".
Proof.
  intros Hattr. exists c. split; [|done].
  unfold class.CreateClass, bind, wrapErr, client.
  by destruct (AssertAttributeValue _ _ _) as [[]|e].
Qed.

(** C4 (amended). A second Create with the id of a record that a first
    Create has stored, by whichever client and in whichever later
    transaction on the world the first call left, writes nothing: the world
    state, the stored record and every index entry, stays as the first call
    left it.  When the ledger answers the existence check, [CreateLab],
    [CreateInstance] and [CreateSubmission] report that the record already
    exists, and so does [CreateClass] for a client that holds the creator
    attribute.  For a client that does not hold it, [CreateClass] reports
    the missing authorization instead: it checks the attribute before it
    looks for the record. *)
Theorem second_Create_is_refused :
  (forall labID classID name content image startTime endTime owner
          classID' name' content' image' startTime' endTime' owner' c c1 c2,
     lab.CreateLab labID classID name content image startTime endTime owner c
       = (Ok tt, c1) ->
     state c2 = state c1 -> answers c2 ->
     refused
       (lab.CreateLab labID classID' name' content' image' startTime'
          endTime' owner') c2 ("lab already exists: " +:+ labID))
  /\ (forall instanceID labID classID config owner
             labID' classID' config' owner' c c1 c2,
        instance.CreateInstance instanceID labID classID config owner c
          = (Ok tt, c1) ->
        state c2 = state c1 -> answers c2 ->
        refused
          (instance.CreateInstance instanceID labID' classID' config' owner')
          c2 ("instance already exists: " +:+ labID'))
  /\ (forall submissionID labID classID content owner
             labID' classID' content' owner' c c1 c2,
        submission.CreateSubmission submissionID labID classID content owner c
          = (Ok tt, c1) ->
        state c2 = state c1 -> answers c2 ->
        refused
          (submission.CreateSubmission submissionID labID' classID' content'
             owner')
          c2 ("instance already exists: " +:+ labID'))
  /\ (forall id name content owner name' content' owner' c c1 c2,
        class.CreateClass id name content owner c = (Ok tt, c1) ->
        state c2 = state c1 -> answers c2 ->
        AssertAttributeValue (clientIdentity c2) "class.creator" "true"
          = Ok tt ->
        refused (class.CreateClass id name' content' owner') c2
          ("the class " +:+ id +:+ " already exists"))
  /\ (forall id name content owner name' content' owner' c c1 c2,
        class.CreateClass id name content owner c = (Ok tt, c1) ->
        state c2 = state c1 ->
        AssertAttributeValue (clientIdentity c2) "class.creator" "true"
          <> Ok tt ->
        refused (class.CreateClass id name' content' owner') c2
          "submitting client not authorized to create class, does not have class.creator role").
Proof.
  split_and!.
  - intros * Hrun Hs Ha. apply CreateLab_exists; [|done]. rewrite Hs.
    apply CreateLab_Ok in Hrun as (b & key & _ & _ & _ & _ & ->).
    apply (lookup_put_all_Some [key] _ _ b), lookup_insert_eq.
  - intros * Hrun Hs Ha. apply CreateInstance_exists; [|done]. rewrite Hs.
    apply CreateInstance_Ok in Hrun
      as (b & k1 & k2 & _ & _ & _ & _ & _ & [->|(k3 & _ & ->)]);
      apply (lookup_put_all_Some _ _ _ b), lookup_insert_eq.
  - intros * Hrun Hs Ha. apply CreateSubmission_exists; [|done]. rewrite Hs.
    apply CreateSubmission_Ok in Hrun
      as (b & k1 & k2 & _ & _ & _ & _ & _ & [->|(k3 & _ & ->)]);
      apply (lookup_put_all_Some _ _ _ b), lookup_insert_eq.
  - intros * Hrun Hs Ha Hattr.
    apply CreateClass_Ok in Hrun
      as (clientID & b & _ & _ & _ & _ & _ & Hs1 & _).
    apply CreateClass_exists; [done| |done].
    rewrite Hs, Hs1, lookup_insert_eq. eauto.
  - intros * _ _ Hattr. by apply CreateClass_not_creator.
Qed.

End second_create.

Lemma second_Create_is_refused_witness :
  let c := ledger.quiet ledger.tom ∅ in
  let c1 := (class.CreateClass "class1" "class1" "test" "Tom" c).2 in
  let c2 := ledger.quiet ledger.tom (state c1) in
  let c2' := ledger.quiet ledger.sam (state c1) in
  class.CreateClass "class1" "class1" "test" "Tom" c = (Ok tt, c1)
  /\ state c2 = state c1 /\ answers c2
  /\ AssertAttributeValue (clientIdentity c2) "class.creator" "true" = Ok tt
  /\ refused (class.CreateClass "class1" "other" "changed" "Sam") c2
       "the class class1 already exists"
  /\ state c2' = state c1
  /\ AssertAttributeValue (clientIdentity c2') "class.creator" "true"
     <> Ok tt
  /\ refused (class.CreateClass "class1" "other" "changed" "Sam") c2'
       "submitting client not authorized to create class, does not have class.creator role".
Proof.
  intros c c1 c2 c2'.
  assert (class.CreateClass "class1" "class1" "test" "Tom" c = (Ok tt, c1))
    as Hrun by (vm_compute; reflexivity).
  assert (answers c2) as Ha by reflexivity.
  assert (AssertAttributeValue (clientIdentity c2) "class.creator" "true"
          = Ok tt) as Hattr by reflexivity.
  assert (AssertAttributeValue (clientIdentity c2') "class.creator" "true"
          <> Ok tt) as Hattr' by discriminate.
  split_and!; [exact Hrun|reflexivity|exact Ha|exact Hattr| |reflexivity
              |exact Hattr'|].
  - exact (proj1 (proj2 (proj2 (proj2 second_Create_is_refused)))
             "class1" "class1" "test" "Tom" "other" "changed" "Sam" c c1 c2
             Hrun eq_refl Ha Hattr).
  - exact (proj2 (proj2 (proj2 (proj2 second_Create_is_refused)))
             "class1" "class1" "test" "Tom" "other" "changed" "Sam" c c1 c2'
             Hrun eq_refl Hattr').
Defined.

(** C4 as stated fails for the Class kind: the second [CreateClass] of an
    existing class by a client without the creator attribute does not report
    that the class already exists. *)
Lemma second_CreateClass_reports_missing_authorization :
  let c := ledger.quiet ledger.tom ∅ in
  let first := class.CreateClass "class1" "class1" "test" "Tom" c in
  let second :=
    class.CreateClass "class1" "class1" "test" "Sam"
      (ledger.quiet ledger.sam (state first.2)) in
  first.1 = Ok tt
  /\ is_Some (state first.2 !! "class1")
  /\ second.1
     = Err "submitting client not authorized to create class, does not have class.creator role"
  /\ second.1 <> Err "the class class1 already exists"
  /\ state second.2 = state first.2.
Proof.
  intros c first second. split_and!.
  - vm_compute. reflexivity.
  - eexists. vm_compute. reflexivity.
  - vm_compute. reflexivity.
  - vm_compute. discriminate.
  - vm_compute. reflexivity.
Qed.

(** ** Delete *)

Section delete_claim.
Context `{Json lab.Lab} `{!JsonLaws lab.Lab}.
Context `{Json instance.Instance} `{!JsonLaws instance.Instance}.
Context `{Json submission.Submission} `{!JsonLaws submission.Submission}.
Context `{Json class.Class} `{!JsonLaws class.Class}.
Context `{shim.StateDB} `{Base64}.

(** C5. In a consistent world whose ledger answers every call, Delete of an
    existing record by its owner succeeds and removes the primary entry and
    every index entry of the record: afterwards Exists(id) is false and the
    prefix scan of every index returns no entry that resolves to id.  The
    world stays consistent.  (A class has no index; [DeleteSubmission] takes
    no caller.) *)
Theorem Delete_removes_record_and_index_entries :
  (forall labID l c,
     faults c = [] -> consistent lab.ID lab_specs (state c) ->
     lab.ReadLab labID c = (Ok l, c) ->
     exists c',
       lab.DeleteLab labID (lab.Owner l) c = (Ok tt, c')
       /\ lab.LabExists labID c' = (Ok false, c')
       /\ index_refs lab.index labID (state c') = []
       /\ consistent lab.ID lab_specs (state c'))
  /\ (forall instanceID i c,
        faults c = [] -> consistent instance.ID instance_specs (state c) ->
        instance.ReadInstance instanceID c = (Ok i, c) ->
        exists c',
          instance.DeleteInstance instanceID (instance.Owner i) c = (Ok tt, c')
          /\ instance.InstanceExists instanceID c' = (Ok false, c')
          /\ (forall name, index_refs name instanceID (state c') = [])
          /\ consistent instance.ID instance_specs (state c'))
  /\ (forall submissionID s c,
        faults c = [] -> consistent submission.ID submission_specs (state c) ->
        submission.ReadSubmission submissionID c = (Ok s, c) ->
        exists c',
          submission.DeleteSubmission submissionID c = (Ok tt, c')
          /\ submission.SubmissionExists submissionID c' = (Ok false, c')
          /\ (forall name, index_refs name submissionID (state c') = [])
          /\ consistent submission.ID submission_specs (state c'))
  /\ (forall id cl c,
        faults c = [] ->
        class.ReadClass id c = (Ok cl, c) ->
        submitter (clientIdentity c) = Ok (class.Owner cl) ->
        exists c',
          class.DeleteClass id c = (Ok tt, c')
          /\ class.ClassExists id c' = (Ok false, c')
          /\ forall k, k <> id -> state c' !! k = state c !! k).
Proof.
  split_and!.
  - intros. by eapply DeleteLab_spec.
  - intros. by eapply DeleteInstance_spec.
  - intros. by eapply DeleteSubmission_spec.
  - intros id cl c Hq Hr Hid.
    destruct (ReadClass_Ok _ _ _ _ Hr) as (b & Hb & Hcl).
    eexists. split; [by eapply DeleteClass_quiet|].
    split.
    + rewrite ClassExists_quiet by done. rewrite set_state_state.
      rewrite lookup_delete_eq. by rewrite bool_decide_false by auto.
    + intros k Hk. rewrite set_state_state. by apply lookup_delete_ne.
Qed.

End delete_claim.

Lemma Delete_removes_record_and_index_entries_witness :
  let c0 := ledger.quiet ledger.tom ∅ in
  let c := (lab.CreateLab "lab1" "class1" "class1" "test" "1" "2022" "2022"
              "Tom" c0).2 in
  let l := lab.mkLab "lab" "lab1" "class1" "class1" "test" "1" "2022" "2022"
             "Tom" in
  faults c = []
  /\ consistent lab.ID lab_specs (state c)
  /\ lab.ReadLab "lab1" c = (Ok l, c)
  /\ exists c',
       lab.DeleteLab "lab1" (lab.Owner l) c = (Ok tt, c')
       /\ lab.LabExists "lab1" c' = (Ok false, c')
       /\ index_refs lab.index "lab1" (state c') = []
       /\ consistent lab.ID lab_specs (state c').
Proof.
  intros c0 c l.
  assert (faults c = []) as Hq by reflexivity.
  assert (consistent lab.ID lab_specs (state c)) as Hw.
  { destruct (CreateLab_spec "lab1" "class1" "class1" "test" "1" "2022"
                "2022" "Tom" c0)
      as (c' & key & Hrun & _ & _ & _ & _ & Hc);
      [reflexivity|apply consistent_empty|reflexivity|discriminate
      |reflexivity|reflexivity|].
    unfold c. by rewrite Hrun. }
  assert (lab.ReadLab "lab1" c = (Ok l, c)) as Hr by (vm_compute; reflexivity).
  split_and!; [exact Hq|exact Hw|exact Hr|].
  exact (proj1 Delete_removes_record_and_index_entries _ _ _ Hq Hw Hr).
Defined.

(** ** Create *)

Section create_claim.
Context `{Json lab.Lab} `{!JsonLaws lab.Lab}.
Context `{Json instance.Instance} `{!JsonLaws instance.Instance}.
Context `{Json submission.Submission} `{!JsonLaws submission.Submission}.
Context `{Json class.Class} `{!JsonLaws class.Class}.
Context `{shim.StateDB} `{Base64}.

(** C9 (amended). In a world that keeps the index invariant and whose ledger
    answers every call, Create with a fresh, non-empty id, attribute values
    that composite keys accept and text that is valid UTF-8 in the other
    fields succeeds; the index entry of each declared specification is
    stored under the composite key of the index name, the indexed field
    value and, last, the record's ID; afterwards Exists(id) is true, Get(id)
    returns the submitted fields, and the prefix scan of each declared index
    has exactly one entry that resolves to id, whatever other records share
    the indexed field values.  For a class, which has no index, Get(id)
    returns the submitted id, name and content with the submitting client's
    identity as owner. *)
Theorem Create_stores_record_and_index_entries :
  (forall labID classID name content image startTime endTime owner c,
     faults c = [] -> consistent lab.ID lab_specs (state c) ->
     state c !! labID = None -> labID <> "" ->
     valid classID -> valid labID ->
     Forall utf8 [name; content; image; startTime; endTime; owner] ->
     exists c',
       lab.CreateLab labID classID name content image startTime endTime
         owner c = (Ok tt, c')
       /\ lab.LabExists labID c' = (Ok true, c')
       /\ lab.ReadLab labID c'
          = (Ok (lab.mkLab "lab" labID classID name content image startTime
                   endTime owner), c')
       /\ index_refs lab.index labID (state c')
          = [(key_of lab.index classID labID, value)]
       /\ consistent lab.ID lab_specs (state c'))
  /\ (forall instanceID labID classID config owner c,
        faults c = [] -> consistent instance.ID instance_specs (state c) ->
        state c !! instanceID = None -> instanceID <> "" ->
        valid labID -> valid classID -> valid owner -> valid instanceID ->
        utf8 config ->
        exists c',
          instance.CreateInstance instanceID labID classID config owner c
            = (Ok tt, c')
          /\ instance.InstanceExists instanceID c' = (Ok true, c')
          /\ instance.ReadInstance instanceID c'
             = (Ok (instance.mkInstance "instance" instanceID classID labID
                      config owner), c')
          /\ index_refs instance.index1 instanceID (state c')
             = [(key_of instance.index1 labID instanceID, value)]
          /\ index_refs instance.index2 instanceID (state c')
             = [(key_of instance.index2 classID instanceID, value)]
          /\ index_refs instance.index3 instanceID (state c')
             = [(key_of instance.index3 owner instanceID, value)]
          /\ consistent instance.ID instance_specs (state c'))
  /\ (forall submissionID labID classID content owner c,
        faults c = [] -> consistent submission.ID submission_specs (state c) ->
        state c !! submissionID = None -> submissionID <> "" ->
        valid labID -> valid classID -> valid owner -> valid submissionID ->
        utf8 content ->
        exists c',
          submission.CreateSubmission submissionID labID classID content
            owner c = (Ok tt, c')
          /\ submission.SubmissionExists submissionID c' = (Ok true, c')
          /\ submission.ReadSubmission submissionID c'
             = (Ok (submission.mkSubmission "submission" submissionID classID
                      labID content owner 0), c')
          /\ index_refs submission.index1 submissionID (state c')
             = [(key_of submission.index1 labID submissionID, value)]
          /\ index_refs submission.index2 submissionID (state c')
             = [(key_of submission.index2 classID submissionID, value)]
          /\ index_refs submission.index3 submissionID (state c')
             = [(key_of submission.index3 owner submissionID, value)]
          /\ consistent submission.ID submission_specs (state c'))
  /\ (forall id name content owner c clientID,
        faults c = [] ->
        AssertAttributeValue (clientIdentity c) "class.creator" "true"
          = Ok tt ->
        state c !! id = None -> id <> "" ->
        submitter (clientIdentity c) = Ok clientID ->
        Forall utf8 [id; name; content; clientID] ->
        exists c',
          class.CreateClass id name content owner c = (Ok tt, c')
          /\ class.ClassExists id c' = (Ok true, c')
          /\ class.ReadClass id c'
             = (Ok (class.mkClass id name content clientID), c')).
Proof.
  split_and!.
  - intros * Hq Hw Hfresh Hne Hcl Hid _.
    destruct (CreateLab_spec labID classID name content image startTime
                endTime owner c Hq Hw Hfresh Hne Hcl Hid)
      as (c' & key & Hrun & -> & Hrest).
    by exists c'.
  - intros. by apply CreateInstance_spec.
  - intros. by apply CreateSubmission_spec.
  - intros id name content owner c clientID Hq Hattr Hfresh Hne Hid _.
    destruct (json_roundtrip (class.mkClass id name content clientID))
      as (b & Hb & Hcl).
    eexists. split; [by eapply CreateClass_quiet|].
    assert (<[id := b]> (state c) !! id = Some b) as Hin
      by apply lookup_insert_eq.
    split.
    + rewrite ClassExists_quiet by done. rewrite set_state_state, Hin.
      by rewrite bool_decide_true.
    + by eapply ReadClass_quiet.
Qed.

End create_claim.

Lemma Create_stores_record_and_index_entries_witness :
  let c := ledger.quiet ledger.tom ∅ in
  faults c = []
  /\ consistent lab.ID lab_specs (state c)
  /\ state c !! "lab1" = None
  /\ "lab1" <> ""
  /\ valid "class1" /\ valid "lab1"
  /\ Forall utf8 ["class1"; "test"; "1"; "2022"; "2022"; "Tom"]
  /\ exists c',
       lab.CreateLab "lab1" "class1" "class1" "test" "1" "2022" "2022" "Tom"
         c = (Ok tt, c')
       /\ lab.LabExists "lab1" c' = (Ok true, c')
       /\ lab.ReadLab "lab1" c'
          = (Ok (lab.mkLab "lab" "lab1" "class1" "class1" "test" "1" "2022"
                   "2022" "Tom"), c')
       /\ index_refs lab.index "lab1" (state c')
          = [(key_of lab.index "class1" "lab1", value)]
       /\ consistent lab.ID lab_specs (state c').
Proof.
  intros c.
  assert (consistent lab.ID lab_specs (state c)) as Hw
    by apply consistent_empty.
  assert ("lab1" <> "") as Hne by discriminate.
  assert (Forall utf8 ["class1"; "test"; "1"; "2022"; "2022"; "Tom"]) as Hu
    by (repeat constructor; by eexists).
  split_and!; [reflexivity|exact Hw|reflexivity|exact Hne|reflexivity
              |reflexivity|exact Hu|].
  exact (proj1 Create_stores_record_and_index_entries
           "lab1" "class1" "class1" "test" "1" "2022" "2022" "Tom" c
           eq_refl Hw eq_refl Hne eq_refl eq_refl Hu).
Defined.

(** C9 as stated fails for the Class kind: Get after Create does not return
    the submitted owner, it returns the submitter. *)
Lemma CreateClass_does_not_store_the_submitted_owner :
  let c := ledger.quiet ledger.tom ∅ in
  (class.CreateClass "class1" "class1" "test" "Tomoko" c).1 = Ok tt
  /\ (class.ReadClass "class1"
        (class.CreateClass "class1" "class1" "test" "Tomoko" c).2).1
     = Ok (class.mkClass "class1" "class1" "test" "Tom")
  /\ class.mkClass "class1" "class1" "test" "Tom"
     <> class.mkClass "class1" "class1" "test" "Tomoko".
Proof. vm_compute. by split_and!. Qed.

(** ** A failed index write *)

(** C3, at the failing input.  The ledger answers the existence check, the
    primary write and the first index write, and fails the second index
    write.  [CreateInstance] and [CreateSubmission] return [nil]; the entries
    of the second and third index are not in the world state.  The same
    failure at the first or the third index write, and at the one index
    write of [CreateLab], is reported. *)
Theorem Create_returns_nil_after_failed_index_write :
  let fail_at n := (replicate n None ++ [Some "PUT_STATE failed"])%list in
  let ctx n := mkCtx ledger.tom ∅ (fail_at n) in
  let i := instance.CreateInstance "instance1" "lab1" "class1" "test" "Tom" in
  let s :=
    submission.CreateSubmission "submission1" "lab1" "class1" "test" "Tom" in
  ((i (ctx 3)).1 = Ok tt
   /\ state (i (ctx 3)).2
        !! key_of instance.index1 "lab1" "instance1" = Some value
   /\ state (i (ctx 3)).2
        !! key_of instance.index2 "class1" "instance1" = None
   /\ state (i (ctx 3)).2
        !! key_of instance.index3 "Tom" "instance1" = None)
  /\ ((s (ctx 3)).1 = Ok tt
      /\ state (s (ctx 3)).2
           !! key_of submission.index1 "lab1" "submission1" = Some value
      /\ state (s (ctx 3)).2
           !! key_of submission.index2 "class1" "submission1" = None
      /\ state (s (ctx 3)).2
           !! key_of submission.index3 "Tom" "submission1" = None)
  /\ (i (ctx 2)).1 = Err "PUT_STATE failed"
  /\ (i (ctx 4)).1 = Err "PUT_STATE failed"
  /\ (s (ctx 2)).1 = Err "PUT_STATE failed"
  /\ (s (ctx 4)).1 = Err "PUT_STATE failed"
  /\ (lab.CreateLab "lab1" "class1" "class1" "test" "1" "2022" "2022" "Tom"
        (ctx 2)).1 = Err "PUT_STATE failed".
Proof. vm_compute. by split_and!. Qed.

(** C2, at the failing input.  The same call, run as one unit of work, is
    committed: the world it leaves holds the record [instance1] without the
    index entries of [classID~name] and [owner~name], so it is not
    consistent. *)
Theorem CreateInstance_commits_inconsistent_world :
  let fs := [None; None; None; Some "PUT_STATE failed"] in
  let run :=
    invoke (instance.CreateInstance "instance1" "lab1" "class1" "test" "Tom")
      ledger.tom fs ∅ in
  run.1 = Ok tt
  /\ (exists b,
        run.2 !! "instance1" = Some b
        /\ json_Unmarshal b
           = Ok (instance.mkInstance "instance" "instance1" "class1" "lab1"
                   "test" "Tom"))
  /\ run.2 !! key_of instance.index2 "class1" "instance1" = None
  /\ ~ consistent instance.ID instance_specs run.2.
Proof.
  intros fs run. split_and!.
  - vm_compute. reflexivity.
  - eexists. split; vm_compute; reflexivity.
  - vm_compute. reflexivity.
  - intros Hc.
    assert (exists b, run.2 !! "instance1" = Some b /\ b <> value
                      /\ json_Unmarshal b
                         = Ok (instance.mkInstance "instance" "instance1"
                                 "class1" "lab1" "test" "Tom"))
      as (b & Hb & Hbv & Hi).
    { eexists. split_and!; [vm_compute; reflexivity|discriminate
                           |vm_compute; reflexivity]. }
    destruct (Hc _ _ Hb) as [(r & Hr & _ & _ & _ & Hall)|[Hv _]]; [|done].
    assert (r = instance.mkInstance "instance" "instance1" "class1" "lab1"
                  "test" "Tom") as -> by congruence.
    destruct (Hall (instance.index2, instance.ClassID))
      as (key & Hkey & Hin); [by right; left|].
    vm_compute in Hkey. injection Hkey as <-.
    vm_compute in Hin. discriminate.
Qed.

(** ** Range scans *)

Section scans.
Context {A : Type} `{Json A}.

Lemma iterate_all acc (kvs : list shim.KV) (rs : list A) :
  Forall2 parses kvs rs ->
  iterate acc (Ok <$> kvs) = Ok (acc ++ rs)%list.
Proof.
  intros HF. revert acc.
  induction HF as [|kv r kvs rs Hkv _ IH]; intros acc.
  - by rewrite List.app_nil_r.
  - cbn [fmap list_fmap iterate]. unfold parses in Hkv. rewrite Hkv.
    rewrite IH. by rewrite <- List.app_assoc.
Qed.

Lemma iterate_fail acc (pre : list shim.KV) kv post (rs : list A) e :
  Forall2 parses pre rs -> json_Unmarshal (A:=A) kv.2 = Err e ->
  iterate acc (Ok <$> (pre ++ kv :: post)%list) = Err e.
Proof.
  intros HF He. revert acc.
  induction HF as [|kv' r pre rs Hkv _ IH]; intros acc.
  - cbn [app fmap list_fmap iterate]. by rewrite He.
  - cbn [app fmap list_fmap iterate]. unfold parses in Hkv. rewrite Hkv.
    apply IH.
Qed.

End scans.

Lemma GetStateByRange_quiet startKey endKey c :
  faults c = [] ->
  shim.validateSimpleKeys [from startKey; endKey] = Ok tt ->
  shim.GetStateByRange startKey endKey c
  = (Ok (Ok <$> shim.range (from startKey) endKey (state c)), c).
Proof.
  intros Hq Hv. unfold shim.GetStateByRange, bind, lift, shim.read.
  fold (from startKey). rewrite Hv. by rewrite peer_quiet.
Qed.

Section scan_claim.
Context `{Json lab.Lab} `{Json instance.Instance}
        `{Json submission.Submission} `{shim.StateDB}.

(** C6 (amended). A range scan is all or nothing.  When the value of every
    entry in the range parses as the target record type, the scan returns
    the records of all entries in key order; when some value does not, the
    scan returns no record at all: it fails with the parse error of the
    first such entry. *)
Theorem range_scan_is_all_or_nothing :
  forall startKey endKey c,
    faults c = [] ->
    shim.validateSimpleKeys [from startKey; endKey] = Ok tt ->
    let scanned := shim.range (from startKey) endKey (state c) in
    (forall labs, Forall2 parses scanned labs ->
       lab.GetLabsByRange startKey endKey c = (Ok labs, c))
    /\ (forall pre kv post (labs : list lab.Lab) e,
          scanned = (pre ++ kv :: post)%list -> Forall2 parses pre labs ->
          json_Unmarshal (A:=lab.Lab) kv.2 = Err e ->
          lab.GetLabsByRange startKey endKey c = (Err e, c))
    /\ (forall insts, Forall2 parses scanned insts ->
          instance.GetInstanceByRange startKey endKey c = (Ok insts, c))
    /\ (forall pre kv post (insts : list instance.Instance) e,
          scanned = (pre ++ kv :: post)%list -> Forall2 parses pre insts ->
          json_Unmarshal (A:=instance.Instance) kv.2 = Err e ->
          instance.GetInstanceByRange startKey endKey c = (Err e, c))
    /\ (forall ss, Forall2 parses scanned ss ->
          submission.GetSubmissionByRange startKey endKey c = (Ok ss, c))
    /\ (forall pre kv post (ss : list submission.Submission) e,
          scanned = (pre ++ kv :: post)%list -> Forall2 parses pre ss ->
          json_Unmarshal (A:=submission.Submission) kv.2 = Err e ->
          submission.GetSubmissionByRange startKey endKey c = (Err e, c)).
Proof.
  intros startKey endKey c Hq Hv scanned.
  pose proof (GetStateByRange_quiet _ _ _ Hq Hv) as Hscan.
  fold scanned in Hscan.
  unfold lab.GetLabsByRange, instance.GetInstanceByRange,
    submission.GetSubmissionByRange,
    lab.constructQueryResponseFromIterator,
    instance.constructQueryResponseFromIterator,
    submission.constructQueryResponseFromIterator.
  rewrite !(bind_run _ _ _ _ _ Hscan). rewrite !defer_Close_lift by done.
  split_and!.
  - intros labs HF. by rewrite (iterate_all [] _ _ HF).
  - intros pre kv post labs e -> HF He. by rewrite (iterate_fail [] _ _ _ _ _ HF He).
  - intros insts HF. by rewrite (iterate_all [] _ _ HF).
  - intros pre kv post insts e -> HF He. by rewrite (iterate_fail [] _ _ _ _ _ HF He).
  - intros ss HF. by rewrite (iterate_all [] _ _ HF).
  - intros pre kv post ss e -> HF He. by rewrite (iterate_fail [] _ _ _ _ _ HF He).
Qed.

End scan_claim.

Lemma range_scan_is_all_or_nothing_witness :
  let c := ledger.quiet ledger.tom ledger.labs_and_note in
  let scanned := shim.range (from "") "" (state c) in
  faults c = []
  /\ shim.validateSimpleKeys [from ""; ""] = Ok tt
  /\ (forall labs, Forall2 parses scanned labs ->
        lab.GetLabsByRange "" "" c = (Ok labs, c))
  /\ (forall pre kv post (labs : list lab.Lab) e,
        scanned = (pre ++ kv :: post)%list -> Forall2 parses pre labs ->
        json_Unmarshal (A:=lab.Lab) kv.2 = Err e ->
        lab.GetLabsByRange "" "" c = (Err e, c)).
Proof.
  intros c scanned.
  assert (faults c = []) as Hq by reflexivity.
  assert (shim.validateSimpleKeys [from ""; ""] = Ok tt) as Hv
    by reflexivity.
  split_and!; [exact Hq|exact Hv|..].
  - exact (proj1 (range_scan_is_all_or_nothing "" "" c Hq Hv)).
  - exact (proj1 (proj2 (range_scan_is_all_or_nothing "" "" c Hq Hv))).
Defined.

(** C6 as stated fails: with one entry in the range that is not a lab, the
    scan returns an error and none of the three labs around it. *)
Lemma GetLabsByRange_fails_on_unparsable_entry :
  let c := ledger.quiet ledger.tom ledger.labs_and_note in
  (shim.range (from "") "" (state c)).*1 = ["lab1"; "lab2"; "lab2a"; "lab3"]
  /\ is_ok (json_Unmarshal (A:=lab.Lab) (ledger.labs_and_note !!! "lab1")) = true
  /\ is_ok (json_Unmarshal (A:=lab.Lab) (ledger.labs_and_note !!! "lab2")) = true
  /\ is_ok (json_Unmarshal (A:=lab.Lab) (ledger.labs_and_note !!! "lab2a")) = false
  /\ is_ok (json_Unmarshal (A:=lab.Lab) (ledger.labs_and_note !!! "lab3")) = true
  /\ (lab.GetLabsByRange "" "" c).1
     = Err "invalid character looking for beginning of value".
Proof. vm_compute. by split_and!. Qed.

(** ** Paginated calls *)

Lemma int32_wraps n : int32 (n + 2 ^ 32) = int32 n.
Proof.
  unfold int32. f_equal.
  replace (n + 2 ^ 32 + 2 ^ 31)%Z with (n + 2 ^ 31 + 1 * 2 ^ 32)%Z by lia.
  by rewrite Z.mod_add.
Qed.

Section paginated.
Import shim.
Context `{Json lab.Lab} `{StateDB}.

Lemma GetStateByRangeWithPagination_quiet startKey endKey pageSize bookmark c :
  faults c = [] ->
  validateSimpleKeys [from startKey; endKey] = Ok tt ->
  GetStateByRangeWithPagination startKey endKey pageSize bookmark c
  = (match db_range_page (from startKey) endKey pageSize bookmark (state c)
     with
     | Ok r => Ok (Ok <$> r.1, r.2)
     | Err e => Err e
     end, c).
Proof.
  intros Hq Hv.
  unfold GetStateByRangeWithPagination, bind, lift, answer, ret.
  fold (from startKey). rewrite Hv. rewrite peer_quiet by done.
  by destruct (db_range_page _ _ _ _ _).
Qed.

Lemma GetQueryResultWithPagination_quiet query pageSize bookmark c :
  faults c = [] ->
  GetQueryResultWithPagination query pageSize bookmark c
  = (match db_query_page query pageSize bookmark (state c) with
     | Ok r => Ok (Ok <$> r.1, r.2)
     | Err e => Err e
     end, c).
Proof.
  intros Hq. unfold GetQueryResultWithPagination, bind, answer, ret.
  rewrite peer_quiet by done. by destruct (db_query_page _ _ _ _).
Qed.

(** What the two paginated operations compute when the ledger answers. *)
Lemma paginated_runs pageSize bookmark c :
  faults c = [] ->
  (forall startKey endKey,
     validateSimpleKeys [from startKey; endKey] = Ok tt ->
     lab.GetAssetsByRangeWithPagination startKey endKey pageSize bookmark c
     = (match db_range_page (from startKey) endKey (int32 pageSize)
                bookmark (state c) with
        | Ok r => iterate [] (Ok <$> r.1)
        | Err e => Err e
        end, c))
  /\ (forall queryString,
        lab.QueryAssetsWithPagination queryString pageSize bookmark c
        = (match db_query_page queryString (int32 pageSize) bookmark
                   (state c) with
           | Ok r =>
               match iterate [] (Ok <$> r.1) with
               | Ok labs =>
                   Ok {| lab.Labs := labs;
                         lab.FetchedRecordsCount := FetchedRecordsCount r.2;
                         lab.Bookmark := Bookmark r.2 |}
               | Err e => Err e
               end
           | Err e => Err e
           end, c)).
Proof.
  intros Hq. split.
  - intros startKey endKey Hv.
    unfold lab.GetAssetsByRangeWithPagination,
      lab.constructQueryResponseFromIterator, bind.
    rewrite GetStateByRangeWithPagination_quiet by done.
    destruct (db_range_page _ _ _ _ _) as [r|e]; [|done].
    by apply defer_Close_lift.
  - intros queryString.
    unfold lab.QueryAssetsWithPagination,
      lab.getQueryResultForQueryStringWithPagination,
      lab.constructQueryResponseFromIterator, bind.
    rewrite GetQueryResultWithPagination_quiet by done.
    destruct (db_query_page _ _ _ _) as [r|e]; [|done].
    apply defer_Close_quiet; [done|]. unfold lift, ret. cbn [fst snd].
    by destruct (iterate [] _).
Qed.

(** C7 (amended).  Neither paginated operation checks the page size: it is
    converted to [int32] and forwarded to the state database, for every
    [pageSize], positive or not.  The operation fails exactly when the
    database's paginated call fails, with the database's error, or when a
    returned value does not parse; otherwise it succeeds. *)
Theorem pageSize_is_forwarded_unchecked :
  forall pageSize bookmark c,
    faults c = [] ->
    (forall startKey endKey,
       validateSimpleKeys [from startKey; endKey] = Ok tt ->
       lab.GetAssetsByRangeWithPagination startKey endKey pageSize bookmark c
       = (match db_range_page (from startKey) endKey (int32 pageSize)
                  bookmark (state c) with
          | Ok r => iterate [] (Ok <$> r.1)
          | Err e => Err e
          end, c))
    /\ (forall queryString,
          lab.QueryAssetsWithPagination queryString pageSize bookmark c
          = (match db_query_page queryString (int32 pageSize) bookmark
                     (state c) with
             | Ok r =>
                 match iterate [] (Ok <$> r.1) with
                 | Ok labs =>
                     Ok {| lab.Labs := labs;
                           lab.FetchedRecordsCount := FetchedRecordsCount r.2;
                           lab.Bookmark := Bookmark r.2 |}
                 | Err e => Err e
                 end
             | Err e => Err e
             end, c))
    /\ (forall startKey endKey,
          lab.GetAssetsByRangeWithPagination startKey endKey
            (pageSize + 2 ^ 32) bookmark c
          = lab.GetAssetsByRangeWithPagination startKey endKey pageSize
              bookmark c).
Proof.
  intros pageSize bookmark c Hq.
  destruct (paginated_runs pageSize bookmark c Hq) as (Hrange & Hquery).
  split_and!; [done..|].
  intros startKey endKey.
  unfold lab.GetAssetsByRangeWithPagination. by rewrite int32_wraps.
Qed.

(** C8 (amended).  The paginated query returns the records of the
    database's page, in the page's order, together with the database's
    fetched count and bookmark, both unmodified.  The paginated range scan
    returns the records of the database's page and nothing else: the
    response metadata, count and bookmark, is dropped. *)
Theorem paginated_results :
  forall pageSize bookmark c kvs meta (labs : list lab.Lab),
    faults c = [] -> Forall2 parses kvs labs ->
    (forall queryString,
       db_query_page queryString (int32 pageSize) bookmark (state c)
         = Ok (kvs, meta) ->
       lab.QueryAssetsWithPagination queryString pageSize bookmark c
       = (Ok {| lab.Labs := labs;
                lab.FetchedRecordsCount := FetchedRecordsCount meta;
                lab.Bookmark := Bookmark meta |}, c))
    /\ (forall startKey endKey,
          validateSimpleKeys [from startKey; endKey] = Ok tt ->
          db_range_page (from startKey) endKey (int32 pageSize) bookmark
            (state c) = Ok (kvs, meta) ->
          lab.GetAssetsByRangeWithPagination startKey endKey pageSize
            bookmark c = (Ok labs, c))
    /\ length labs = length kvs.
Proof.
  intros pageSize bookmark c kvs meta labs Hq HF.
  destruct (paginated_runs pageSize bookmark c Hq)
    as (Hrange & Hquery).
  split_and!.
  - intros queryString Hdb. rewrite Hquery, Hdb. simpl.
    by rewrite (iterate_all [] _ _ HF).
  - intros startKey endKey Hv Hdb. rewrite Hrange, Hdb by done. simpl.
    by rewrite (iterate_all [] _ _ HF).
  - symmetry. by eapply Forall2_length.
Qed.

End paginated.


Lemma pageSize_is_forwarded_unchecked_witness :
  let c := ledger.quiet ledger.tom ledger.labs in
  faults c = []
  /\ shim.validateSimpleKeys [from ""; ""] = Ok tt
  /\ lab.GetAssetsByRangeWithPagination "" "" 0 "" c
     = (match shim.db_range_page (from "") "" (int32 0) "" (state c) with
        | Ok r => iterate [] (Ok <$> r.1)
        | Err e => Err e
        end, c).
Proof.
  intros c.
  assert (faults c = []) as Hq by reflexivity.
  assert (shim.validateSimpleKeys [from ""; ""] = Ok tt) as Hv
    by reflexivity.
  split_and!; [exact Hq|exact Hv|].
  exact (proj1 (pageSize_is_forwarded_unchecked 0 "" c Hq) "" "" Hv).
Defined.

(** C7 as stated fails: with a page size of zero, or a negative one, both
    paginated operations succeed. *)
Lemma paginated_calls_accept_nonpositive_pageSize :
  let c := ledger.quiet ledger.tom ledger.labs in
  (lab.GetAssetsByRangeWithPagination "" "" 0 "" c).1 = Ok lab.labs
  /\ (lab.GetAssetsByRangeWithPagination "" "" (-5) "" c).1 = Ok lab.labs
  /\ (lab.QueryAssetsWithPagination "" 0 "" c).1
     = Ok {| lab.Labs := lab.labs; lab.FetchedRecordsCount := 3;
             lab.Bookmark := "" |}.
Proof. vm_compute. by split_and!. Qed.

Lemma paginated_results_witness :
  let c := ledger.quiet ledger.tom ledger.labs in
  let kvs := [ledger.lab_entry "lab1"; ledger.lab_entry "lab2"] in
  let meta := {| shim.FetchedRecordsCount := 2; shim.Bookmark := "lab3" |} in
  let labs := [ledger.lab_of "lab1"; ledger.lab_of "lab2"] in
  faults c = []
  /\ Forall2 parses kvs labs
  /\ shim.db_query_page "" (int32 2) "" (state c) = Ok (kvs, meta)
  /\ lab.QueryAssetsWithPagination "" 2 "" c
     = (Ok {| lab.Labs := labs; lab.FetchedRecordsCount := 2;
              lab.Bookmark := "lab3" |}, c).
Proof.
  intros c kvs meta labs.
  assert (faults c = []) as Hq by reflexivity.
  assert (Forall2 parses kvs labs) as HF
    by (repeat constructor; vm_compute; reflexivity).
  assert (shim.db_query_page "" (int32 2) "" (state c) = Ok (kvs, meta))
    as Hdb by (vm_compute; reflexivity).
  split_and!; [exact Hq|exact HF|exact Hdb|].
  exact (proj1 (paginated_results 2 "" c kvs meta labs Hq HF) "" Hdb).
Defined.

(** C8 as stated fails: on two ledgers the database produces different
    bookmarks for the first page of one record, and the paginated range scan
    returns the same to its caller on both, the record alone. *)
Lemma GetAssetsByRangeWithPagination_drops_the_bookmark :
  let cA := ledger.quiet ledger.tom (ledger.two_labs "lab1" "lab2") in
  let cB := ledger.quiet ledger.tom (ledger.two_labs "lab1" "lab3") in
  (shim.GetStateByRangeWithPagination "" "" 1 "" cA).1
  = Ok ([Ok (ledger.lab_entry "lab1")],
        {| shim.FetchedRecordsCount := 1; shim.Bookmark := "lab2" |})
  /\ (shim.GetStateByRangeWithPagination "" "" 1 "" cB).1
     = Ok ([Ok (ledger.lab_entry "lab1")],
           {| shim.FetchedRecordsCount := 1; shim.Bookmark := "lab3" |})
  /\ (lab.GetAssetsByRangeWithPagination "" "" 1 "" cA).1
     = Ok [ledger.lab_of "lab1"]
  /\ (lab.GetAssetsByRangeWithPagination "" "" 1 "" cB).1
     = Ok [ledger.lab_of "lab1"].
Proof. vm_compute. by split_and!. Qed.

(** * Further properties of the contracts *)

(** ** The index invariant of the lab contract *)

Section lab_invariant.
Import shim lab.
Context `{Json Lab} `{!JsonLaws Lab} `{StateDB}.

Lemma lab_reads_readonly :
  (forall labID, readonly (ReadLab labID))
  /\ readonly ReadLabs
  /\ (forall labID, readonly (LabExists labID))
  /\ (forall startKey endKey, readonly (GetLabsByRange startKey endKey))
  /\ (forall queryString, readonly (QueryLabs queryString))
  /\ (forall class, readonly (QueryLabsByClass class))
  /\ (forall startKey endKey pageSize bookmark,
        readonly
          (GetAssetsByRangeWithPagination startKey endKey pageSize bookmark))
  /\ (forall queryString pageSize bookmark,
        readonly (QueryAssetsWithPagination queryString pageSize bookmark)).
Proof.
  split_and!; intros;
    unfold ReadLab, ReadLabs, LabExists, GetLabsByRange, QueryLabs,
      QueryLabsByClass, GetAssetsByRangeWithPagination,
      QueryAssetsWithPagination, getQueryResultForQueryString,
      getQueryResultForQueryStringWithPagination;
    auto 8 with readonly.
Qed.

Lemma CreateLab_consistent labID classID name content image startTime
    endTime owner c c' :
  consistent ID lab_specs (state c) ->
  CreateLab labID classID name content image startTime endTime owner c
    = (Ok tt, c') ->
  consistent ID lab_specs (state c').
Proof.
  intros Hw (b & key & Hfresh & Hne & Hb & Hkey & ->)%CreateLab_Ok.
  pose proof (proj1 (CreateCompositeKey_Ok _ _ _ _) Hkey) as (_ & _ & Hv & _).
  apply (consistent_put_all ID lab_specs (state c)
           (mkLab "lab" labID classID name content image startTime endTime
              owner) b [key]); try done.
  - by apply json_read_back.
  - by apply lab_keys.
Qed.

Lemma DeleteLab_consistent labID clientID c c' :
  consistent ID lab_specs (state c) ->
  DeleteLab labID clientID c = (Ok tt, c') ->
  consistent ID lab_specs (state c').
Proof.
  intros Hw (b & l & key & Hb & Hl & _ & Hkey & ->)%DeleteLab_Ok.
  apply (consistent_del_all ID lab_specs (state c) labID b l [key]);
    try done.
  by apply lab_keys.
Qed.

Lemma overwrite_consistent labID b l b' l' w :
  consistent ID lab_specs w ->
  w !! labID = Some b -> json_Unmarshal b = Ok l ->
  json_Marshal l' = Ok b' -> ID l' = ID l -> ClassID l' = ClassID l ->
  consistent ID lab_specs (<[labID := b']> w).
Proof.
  intros Hw Hb Hl Hb' Hid Hcl.
  eapply (consistent_update ID lab_specs w labID b l b' l'); try done.
  - by apply json_read_back.
  - intros s ->%list_elem_of_singleton. done.
Qed.

Lemma createAll_consistent ls c c' :
  consistent ID lab_specs (state c) ->
  createAll ls c = (Ok tt, c') ->
  consistent ID lab_specs (state c').
Proof.
  revert c. induction ls as [|l ls IH]; intros c Hw Hrun.
  - by injection Hrun as <-.
  - cbn [createAll] in Hrun.
    apply bind_Ok in Hrun as ([] & c1 & Hl & Hrest).
    eapply IH; [|done]. by eapply CreateLab_consistent.
Qed.

Lemma lab_step_consistent k cid fs w :
  consistent ID lab_specs w ->
  consistent ID lab_specs (invoke (lab_run k) cid fs w).2.
Proof.
  intros Hw.
  destruct lab_reads_readonly
    as (Hread & Hreads & Hexists & Hrange & Hq & Hqc & Hrp & Hqp).
  destruct k; cbn [lab_run];
    try (rewrite readonly_invoke by auto with readonly; exact Hw);
    unfold invoke;
    match goal with
    | |- context [?m (mkCtx cid w fs)] =>
        destruct (m (mkCtx cid w fs)) as [[[]|e] c'] eqn:Hrun
    end; try exact Hw; cbn [snd].
  - eapply CreateLab_consistent; [|exact Hrun]; exact Hw.
  - eapply DeleteLab_consistent; [|exact Hrun]; exact Hw.
  - apply UpdateLabContent_Ok in Hrun as (b & l & b' & Hb & Hl & _ & Hb' & ->).
    cbn [state] in Hb. by eapply overwrite_consistent.
  - apply UpdateLabImage_Ok in Hrun as (b & l & b' & Hb & Hl & _ & Hb' & ->).
    cbn [state] in Hb. by eapply overwrite_consistent.
  - apply UpdateLabEndtime_Ok in Hrun as (b & l & b' & Hb & Hl & _ & Hb' & ->).
    cbn [state] in Hb. by eapply overwrite_consistent.
  - apply UpdateLab_Ok in Hrun as (b & l & b' & Hb & Hl & _ & Hb' & ->).
    cbn [state] in Hb. by eapply overwrite_consistent.
  - eapply createAll_consistent; [|exact Hrun]; exact Hw.
Qed.

(** X1. Index consistency is an invariant of the lab contract: every world
    it can reach from the empty one, by any sequence of its operations,
    submitted by any clients and under any failures of the ledger, holds a
    record if and only if it holds the record's [classID~name] index entry,
    keyed over the record's current field values. *)
Theorem lab_reachable_consistent w :
  lab_reachable w -> consistent ID lab_specs w.
Proof.
  induction 1 as [|w k cid fs _ IH].
  - apply consistent_empty.
  - by apply lab_step_consistent.
Qed.

End lab_invariant.

Lemma lab_reachable_consistent_witness :
  lab_reachable ledger.labs /\ consistent lab.ID lab_specs ledger.labs.
Proof.
  assert (lab_reachable ledger.labs) as Hr.
  { exact (lab_reach_step ∅ call_InitLedger ledger.tom [] lab_reach_empty). }
  split; [exact Hr|].
  exact (lab_reachable_consistent _ Hr).
Defined.

(** ** The index invariant of the instance contract *)

Section instance_invariant.
Import shim instance.
Context `{Json Instance} `{!JsonLaws Instance} `{StateDB}.

Lemma instance_reads_readonly :
  (forall instanceID, readonly (ReadInstance instanceID))
  /\ (forall instanceID, readonly (InstanceExists instanceID))
  /\ (forall startKey endKey, readonly (GetInstanceByRange startKey endKey))
  /\ (forall class, readonly (QueryInstanceByClass class))
  /\ (forall lab, readonly (QueryInstanceByLab lab))
  /\ (forall owner, readonly (QueryInstanceByOwner owner)).
Proof.
  split_and!; intros;
    unfold ReadInstance, InstanceExists, GetInstanceByRange,
      QueryInstanceByClass, QueryInstanceByLab, QueryInstanceByOwner,
      getQueryResultForQueryString;
    auto 8 with readonly.
Qed.

(** While the ledger answers, a [CreateInstance] that returns [nil] has
    written the record and all three index entries. *)
Lemma CreateInstance_Ok_quiet instanceID labID classID config owner c c' :
  faults c = [] ->
  CreateInstance instanceID labID classID config owner c = (Ok tt, c') ->
  exists b k1 k2 k3,
    state c !! instanceID = None /\ instanceID <> ""
    /\ json_Marshal (mkInstance "instance" instanceID classID labID config owner)
       = Ok b
    /\ CreateCompositeKey index1 [labID; instanceID] = Ok k1
    /\ CreateCompositeKey index2 [classID; instanceID] = Ok k2
    /\ CreateCompositeKey index3 [owner; instanceID] = Ok k3
    /\ c' = set_state c (put_all [k1; k2; k3] (<[instanceID := b]> (state c))).
Proof.
  intros Hq Hrun.
  destruct (CreateInstance_Ok _ _ _ _ _ _ _ Hrun)
    as (b & k1 & k2 & Hfresh & Hid & Hb & Hk1 & Hk2 & _).
  destruct (CreateCompositeKey index3 [owner; instanceID]) as [k3|e] eqn:Hk3.
  - rewrite (CreateInstance_quiet _ _ _ _ _ _ _ _ _ _ Hq Hfresh Hid Hb Hk1
               Hk2 Hk3) in Hrun.
    injection Hrun as <-. by exists b, k1, k2, k3.
  - exfalso. revert Hrun.
    unfold CreateInstance, bind, wrapErr, throw, lift, orReturn.
    rewrite InstanceExists_quiet, Hfresh by done. simpl.
    rewrite Hb. rewrite PutState_quiet; [|done..|by eapply json_nonempty].
    rewrite Hk1.
    rewrite PutState_quiet; [|done|by eapply CreateCompositeKey_nonempty|done].
    rewrite Hk2.
    rewrite PutState_quiet; [|done|by eapply CreateCompositeKey_nonempty|done].
    by rewrite Hk3.
Qed.

Lemma CreateInstance_consistent instanceID labID classID config owner c c' :
  faults c = [] -> consistent ID instance_specs (state c) ->
  CreateInstance instanceID labID classID config owner c = (Ok tt, c') ->
  faults c' = [] /\ consistent ID instance_specs (state c').
Proof.
  intros Hq Hw Hrun.
  destruct (CreateInstance_Ok_quiet _ _ _ _ _ _ _ Hq Hrun)
    as (b & k1 & k2 & k3 & Hfresh & Hne & Hb & Hk1 & Hk2 & Hk3 & ->).
  split; [done|]. rewrite set_state_state.
  pose proof (proj1 (CreateCompositeKey_Ok _ _ _ _) Hk1) as (_ & _ & Hv & _).
  apply (consistent_put_all ID instance_specs (state c)
           (mkInstance "instance" instanceID classID labID config owner) b
           [k1; k2; k3]); try done.
  - by apply json_read_back.
  - by apply instance_keys.
Qed.

Lemma DeleteInstance_consistent instanceID clientID c c' :
  consistent ID instance_specs (state c) ->
  DeleteInstance instanceID clientID c = (Ok tt, c') ->
  consistent ID instance_specs (state c').
Proof.
  intros Hw (b & i & k1 & k2 & k3 & Hb & Hi & _ & Hk1 & Hk2 & Hk3 & ->)
    %DeleteInstance_Ok.
  apply (consistent_del_all ID instance_specs (state c) instanceID b i
           [k1; k2; k3]); try done.
  by apply instance_keys.
Qed.

Lemma createAll_instances_consistent insts c c' :
  faults c = [] -> consistent ID instance_specs (state c) ->
  createAll insts c = (Ok tt, c') ->
  consistent ID instance_specs (state c').
Proof.
  revert c. induction insts as [|i insts IH]; intros c Hq Hw Hrun.
  - by injection Hrun as <-.
  - cbn [createAll] in Hrun.
    apply bind_Ok in Hrun as ([] & c1 & Hi & Hrest).
    destruct (CreateInstance_consistent _ _ _ _ _ _ _ Hq Hw Hi) as [Hq1 Hw1].
    by eapply IH.
Qed.

Lemma instance_step_consistent k cid w :
  consistent ID instance_specs w ->
  consistent ID instance_specs (invoke (instance_run k) cid [] w).2.
Proof.
  intros Hw.
  destruct instance_reads_readonly
    as (Hread & Hexists & Hrange & Hqc & Hql & Hqo).
  destruct k; cbn [instance_run];
    try (rewrite readonly_invoke by auto with readonly; exact Hw);
    unfold invoke;
    match goal with
    | |- context [?m (mkCtx cid w [])] =>
        destruct (m (mkCtx cid w [])) as [[[]|e] c'] eqn:Hrun
    end; try exact Hw; cbn [snd].
  - eapply CreateInstance_consistent; [| |exact Hrun]; [done|exact Hw].
  - eapply DeleteInstance_consistent; [|exact Hrun]; exact Hw.
  - eapply createAll_instances_consistent; [| |exact Hrun]; [done|exact Hw].
Qed.

(** X2. While the ledger answers every stub call, index consistency is an
    invariant of the instance contract: every world it reaches from the
    empty one holds a record if and only if it holds the record's three
    index entries. *)
Theorem instance_reachable_consistent w :
  instance_reachable w -> consistent ID instance_specs w.
Proof.
  induction 1 as [|w k cid _ IH].
  - apply consistent_empty.
  - by apply instance_step_consistent.
Qed.

End instance_invariant.

Lemma instance_reachable_consistent_witness :
  instance_reachable ledger.instances
  /\ consistent instance.ID instance_specs ledger.instances.
Proof.
  assert (instance_reachable ledger.instances) as Hr.
  { exact (instance_reach_step ∅ call_InitInstances ledger.tom
             instance_reach_empty). }
  split; [exact Hr|].
  exact (instance_reachable_consistent _ Hr).
Defined.

(** ** The index invariant of the submission contract *)

Section submission_invariant.
Import shim submission.
Context `{Json Submission} `{!JsonLaws Submission} `{StateDB}.

Lemma submission_reads_readonly :
  (forall submissionID, readonly (ReadSubmission submissionID))
  /\ (forall submissionID, readonly (SubmissionExists submissionID))
  /\ (forall startKey endKey, readonly (GetSubmissionByRange startKey endKey))
  /\ (forall class, readonly (QueryInstanceByClass class))
  /\ (forall lab, readonly (QueryInstanceByLab lab))
  /\ (forall owner, readonly (QueryInstanceByOwner owner)).
Proof.
  split_and!; intros;
    unfold ReadSubmission, SubmissionExists, GetSubmissionByRange,
      QueryInstanceByClass, QueryInstanceByLab, QueryInstanceByOwner,
      getQueryResultForQueryString;
    auto 8 with readonly.
Qed.

(** While the ledger answers, a [CreateSubmission] that returns [nil] has
    written the record and all three index entries. *)
Lemma CreateSubmission_Ok_quiet submissionID labID classID content owner c c' :
  faults c = [] ->
  CreateSubmission submissionID labID classID content owner c = (Ok tt, c') ->
  exists b k1 k2 k3,
    state c !! submissionID = None /\ submissionID <> ""
    /\ json_Marshal (mkSubmission "submission" submissionID classID labID content owner
         0)
       = Ok b
    /\ CreateCompositeKey index1 [labID; submissionID] = Ok k1
    /\ CreateCompositeKey index2 [classID; submissionID] = Ok k2
    /\ CreateCompositeKey index3 [owner; submissionID] = Ok k3
    /\ c' = set_state c (put_all [k1; k2; k3] (<[submissionID := b]> (state c))).
Proof.
  intros Hq Hrun.
  destruct (CreateSubmission_Ok _ _ _ _ _ _ _ Hrun)
    as (b & k1 & k2 & Hfresh & Hid & Hb & Hk1 & Hk2 & _).
  destruct (CreateCompositeKey index3 [owner; submissionID]) as [k3|e] eqn:Hk3.
  - rewrite (CreateSubmission_quiet _ _ _ _ _ _ _ _ _ _ Hq Hfresh Hid Hb Hk1
               Hk2 Hk3) in Hrun.
    injection Hrun as <-. by exists b, k1, k2, k3.
  - exfalso. revert Hrun.
    unfold CreateSubmission, bind, wrapErr, throw, lift, orReturn.
    rewrite SubmissionExists_quiet, Hfresh by done. simpl.
    rewrite Hb. rewrite PutState_quiet; [|done..|by eapply json_nonempty].
    rewrite Hk1.
    rewrite PutState_quiet; [|done|by eapply CreateCompositeKey_nonempty|done].
    rewrite Hk2.
    rewrite PutState_quiet; [|done|by eapply CreateCompositeKey_nonempty|done].
    by rewrite Hk3.
Qed.

Lemma CreateSubmission_consistent submissionID labID classID content owner c c' :
  faults c = [] -> consistent ID submission_specs (state c) ->
  CreateSubmission submissionID labID classID content owner c = (Ok tt, c') ->
  faults c' = [] /\ consistent ID submission_specs (state c').
Proof.
  intros Hq Hw Hrun.
  destruct (CreateSubmission_Ok_quiet _ _ _ _ _ _ _ Hq Hrun)
    as (b & k1 & k2 & k3 & Hfresh & Hne & Hb & Hk1 & Hk2 & Hk3 & ->).
  split; [done|]. rewrite set_state_state.
  pose proof (proj1 (CreateCompositeKey_Ok _ _ _ _) Hk1) as (_ & _ & Hv & _).
  apply (consistent_put_all ID submission_specs (state c)
           (mkSubmission "submission" submissionID classID labID content owner
         0) b
           [k1; k2; k3]); try done.
  - by apply json_read_back.
  - by apply submission_keys.
Qed.

Lemma DeleteSubmission_consistent submissionID c c' :
  consistent ID submission_specs (state c) ->
  DeleteSubmission submissionID c = (Ok tt, c') ->
  consistent ID submission_specs (state c').
Proof.
  intros Hw (b & i & k1 & k2 & k3 & Hb & Hi & Hk1 & Hk2 & Hk3 & ->)
    %DeleteSubmission_Ok.
  apply (consistent_del_all ID submission_specs (state c) submissionID b i
           [k1; k2; k3]); try done.
  by apply submission_keys.
Qed.

Lemma UpdateSubmissionScore_consistent submissionID newScore c c' :
  consistent ID submission_specs (state c) ->
  UpdateSubmissionScore submissionID newScore c = (Ok tt, c') ->
  consistent ID submission_specs (state c').
Proof.
  intros Hw (b & i & b' & Hb & Hi & Hb' & ->)%UpdateSubmissionScore_Ok.
  apply (consistent_update ID submission_specs (state c) submissionID b i b'
           (mkSubmission (DocType i) (ID i) (ClassID i) (LabID i) (Content i)
              (Owner i) newScore)); try done.
  - by apply json_read_back.
  - intros s Hs. unfold submission_specs in Hs.
    apply elem_of_cons in Hs as [->|Hs]; [done|].
    apply elem_of_cons in Hs as [->|Hs]; [done|].
    by apply list_elem_of_singleton in Hs as ->.
Qed.

Lemma createAll_submissions_consistent insts c c' :
  faults c = [] -> consistent ID submission_specs (state c) ->
  createAll insts c = (Ok tt, c') ->
  consistent ID submission_specs (state c').
Proof.
  revert c. induction insts as [|i insts IH]; intros c Hq Hw Hrun.
  - by injection Hrun as <-.
  - cbn [createAll] in Hrun.
    apply bind_Ok in Hrun as ([] & c1 & Hi & Hrest).
    destruct (CreateSubmission_consistent _ _ _ _ _ _ _ Hq Hw Hi) as [Hq1 Hw1].
    by eapply IH.
Qed.

Lemma submission_step_consistent k cid w :
  consistent ID submission_specs w ->
  consistent ID submission_specs (invoke (submission_run k) cid [] w).2.
Proof.
  intros Hw.
  destruct submission_reads_readonly
    as (Hread & Hexists & Hrange & Hqc & Hql & Hqo).
  destruct k; cbn [submission_run];
    try (rewrite readonly_invoke by auto with readonly; exact Hw);
    unfold invoke;
    match goal with
    | |- context [?m (mkCtx cid w [])] =>
        destruct (m (mkCtx cid w [])) as [[[]|e] c'] eqn:Hrun
    end; try exact Hw; cbn [snd].
  - eapply CreateSubmission_consistent; [| |exact Hrun]; [done|exact Hw].
  - eapply DeleteSubmission_consistent; [|exact Hrun]; exact Hw.
  - eapply UpdateSubmissionScore_consistent; [|exact Hrun]; exact Hw.
  - eapply createAll_submissions_consistent; [| |exact Hrun]; [done|exact Hw].
Qed.

(** X3. While the ledger answers every stub call, index consistency is an
    invariant of the submission contract: every world it reaches from the
    empty one holds a record if and only if it holds the record's three
    index entries. *)
Theorem submission_reachable_consistent w :
  submission_reachable w -> consistent ID submission_specs w.
Proof.
  induction 1 as [|w k cid _ IH].
  - apply consistent_empty.
  - by apply submission_step_consistent.
Qed.

End submission_invariant.

Lemma submission_reachable_consistent_witness :
  submission_reachable ledger.submissions
  /\ consistent submission.ID submission_specs ledger.submissions.
Proof.
  assert (submission_reachable ledger.submissions) as Hr.
  { exact (submission_reach_step ∅ call_InitSubmissions ledger.tom
             submission_reach_empty). }
  split; [exact Hr|].
  exact (submission_reachable_consistent _ Hr).
Defined.

(** * The class contract *)

Lemma readonly_client {A} (f : ClientIdentity -> result A) :
  readonly (client f).
Proof. by intros c. Qed.
#[local] Hint Resolve readonly_client : readonly.

Section class_steps.
Import shim class.
Context `{Json Class} `{!JsonLaws Class} `{Base64}.

Lemma class_reads_readonly :
  (forall id, readonly (ReadClass id))
  /\ (forall id, readonly (ClassExists id))
  /\ readonly GetAllClassses
  /\ readonly GetSubmittingClientIdentity.
Proof.
  split_and!; intros;
    unfold ReadClass, ClassExists, GetAllClassses,
      GetSubmittingClientIdentity;
    auto 8 with readonly.
Qed.

Lemma UpdateClass_Ok id newName newContent c c' :
  UpdateClass id newName newContent c = (Ok tt, c') ->
  exists b cl b',
    state c !! id = Some b /\ json_Unmarshal b = Ok cl
    /\ submitter (clientIdentity c) = Ok (Owner cl) /\ id <> ""
    /\ json_Marshal (mkClass (ID cl) newName newContent (Owner cl)) = Ok b'
    /\ state c' = <[id := b']> (state c).
Proof.
  unfold UpdateClass. intros (cl & c1 & Hr & Hk)%bind_Ok.
  destruct (ReadClass_Ok _ _ _ _ Hr) as (b & Hb & Hcl).
  apply ReadClass_state in Hr as [Hs1 Hc1].
  apply bind_Ok in Hk as (clientID & c2 & Hid & Hk).
  rewrite GetSubmittingClientIdentity_run in Hid. injection Hid as Hid <-.
  case_decide as Ho; [done|].
  apply bind_Ok in Hk as (b' & c3 & [Hb' ->]%lift_Ok & Hk).
  apply PutState_Ok in Hk as (Hne & Hs' & _).
  rewrite decide_False in Hs' by (by eapply json_nonempty).
  exists b, cl, b'. split_and!; try done.
  - rewrite <- Hc1, Hid. by f_equal.
  - by rewrite Hs', Hs1.
Qed.

Lemma TransferClass_Ok id newOwner c c' :
  TransferClass id newOwner c = (Ok tt, c') ->
  exists b cl b',
    state c !! id = Some b /\ json_Unmarshal b = Ok cl
    /\ submitter (clientIdentity c) = Ok (Owner cl) /\ id <> ""
    /\ json_Marshal (mkClass (ID cl) (Name cl) (Content cl) newOwner) = Ok b'
    /\ state c' = <[id := b']> (state c).
Proof.
  unfold TransferClass. intros (cl & c1 & Hr & Hk)%bind_Ok.
  destruct (ReadClass_Ok _ _ _ _ Hr) as (b & Hb & Hcl).
  apply ReadClass_state in Hr as [Hs1 Hc1].
  apply bind_Ok in Hk as (clientID & c2 & Hid & Hk).
  rewrite GetSubmittingClientIdentity_run in Hid. injection Hid as Hid <-.
  case_decide as Ho; [done|].
  apply bind_Ok in Hk as (b' & c3 & [Hb' ->]%lift_Ok & Hk).
  apply PutState_Ok in Hk as (Hne & Hs' & _).
  rewrite decide_False in Hs' by (by eapply json_nonempty).
  exists b, cl, b'. split_and!; try done.
  - rewrite <- Hc1, Hid. by f_equal.
  - by rewrite Hs', Hs1.
Qed.

Lemma DeleteClass_Ok id c c' :
  DeleteClass id c = (Ok tt, c') ->
  exists b cl,
    state c !! id = Some b /\ json_Unmarshal b = Ok cl
    /\ submitter (clientIdentity c) = Ok (Owner cl)
    /\ state c' = delete id (state c).
Proof.
  unfold DeleteClass. intros (cl & c1 & Hr & Hk)%bind_Ok.
  destruct (ReadClass_Ok _ _ _ _ Hr) as (b & Hb & Hcl).
  apply ReadClass_state in Hr as [Hs1 Hc1].
  apply bind_Ok in Hk as (clientID & c2 & Hid & Hk).
  rewrite GetSubmittingClientIdentity_run in Hid. injection Hid as Hid <-.
  case_decide as Ho; [done|].
  apply DelState_Ok in Hk as [Hs' _].
  exists b, cl. split_and!; try done.
  - rewrite <- Hc1, Hid. by f_equal.
  - by rewrite Hs', Hs1.
Qed.

Lemma createAll_entry cs c c' id :
  createAll cs c = (Ok tt, c') ->
  clientIdentity c' = clientIdentity c
  /\ (state c' !! id = state c !! id
      \/ class_created (clientIdentity c) (state c) (state c') id).
Proof.
  revert c. induction cs as [|x cs IH]; intros c Hrun.
  { injection Hrun as <-. by split; [|left]. }
  cbn [createAll] in Hrun.
  apply bind_Ok in Hrun as ([] & c1 & Hx & Hrest).
  apply CreateClass_Ok in Hx
    as (clientID & b & Ha & Hfresh & Hne & Hid & Hb & Hs1 & Hc1).
  destruct (IH _ Hrest) as [Hc' Hid']. split; [congruence|].
  destruct (decide (id = ID x)) as [->|Hother].
  - right. split_and!; try done. exists clientID, (Name x), (Content x), b.
    split_and!; try done.
    destruct Hid' as [->|(Hnone & _)].
    + rewrite Hs1. apply lookup_insert_eq.
    + rewrite Hs1, lookup_insert_eq in Hnone. done.
  - assert (state c1 !! id = state c !! id) as Hsame
      by (rewrite Hs1; by apply lookup_insert_ne).
    destruct Hid' as [->|(Hnone & Hne' & Ha' & cl & n & ct & b' & H1 & H2 & H3)].
    + by left.
    + right. rewrite Hc1 in Ha', H1. rewrite Hsame in Hnone.
      split_and!; try done. by exists cl, n, ct, b'.
Qed.

(** What one invocation does to one entry: nothing, or it creates it, or
    its owner changes it. *)
Lemma class_entry_step k cid fs w id :
  let w' := (invoke (class_run k) cid fs w).2 in
  w' !! id = w !! id
  \/ (class_creation k /\ class_created cid w w' id)
  \/ class_changed cid k w w' id.
Proof.
  destruct class_reads_readonly as (Hread & Hexists & Hall & Hsub).
  destruct k; cbn [class_run]; cbn zeta;
    try (rewrite readonly_invoke by auto with readonly; by left);
    unfold invoke;
    match goal with
    | |- context [?m (mkCtx cid w fs)] =>
        destruct (m (mkCtx cid w fs)) as [[[]|e] c'] eqn:Hrun
    end; try (by left); cbn [snd].
  - apply CreateClass_Ok in Hrun
      as (clientID & b & Ha & Hfresh & Hne & Hid & Hb & Hs1 & Hc1).
    cbn [state clientIdentity] in *. rewrite Hs1.
    destruct (decide (id = id0)) as [->|Hother].
    + right; left. split; [done|]. split_and!; try done.
      exists clientID, name, content, b. split_and!; try done.
      apply lookup_insert_eq.
    + left. by apply lookup_insert_ne.
  - apply UpdateClass_Ok in Hrun
      as (b & cl & b' & Hb & Hcl & Hid & Hne & Hb' & Hs1).
    cbn [state clientIdentity] in *. rewrite Hs1.
    destruct (decide (id = id0)) as [->|Hother].
    + do 2 right. exists b, cl. split_and!; try done. left.
      exists newName, newContent, b'. split_and!; try done.
      apply lookup_insert_eq.
    + left. by apply lookup_insert_ne.
  - apply DeleteClass_Ok in Hrun as (b & cl & Hb & Hcl & Hid & Hs1).
    cbn [state clientIdentity] in *. rewrite Hs1.
    destruct (decide (id = id0)) as [->|Hother].
    + do 2 right. exists b, cl. split_and!; try done.
      do 2 right. split; [done|]. apply lookup_delete_eq.
    + left. by apply lookup_delete_ne.
  - apply TransferClass_Ok in Hrun
      as (b & cl & b' & Hb & Hcl & Hid & Hne & Hb' & Hs1).
    cbn [state clientIdentity] in *. rewrite Hs1.
    destruct (decide (id = id0)) as [->|Hother].
    + do 2 right. exists b, cl. split_and!; try done. right; left.
      exists newOwner, b'. split_and!; try done.
      apply lookup_insert_eq.
    + left. by apply lookup_insert_ne.
  - destruct (createAll_entry _ _ _ id Hrun) as [_ [Hsame|Hnew]].
    + by left.
    + right; left. by split.
Qed.

End class_steps.

Lemma leb_emptyKeySubstitute k :
  k <> "" ->
  String.leb shim.emptyKeySubstitute k
  = negb (String.prefix shim.compositeKeyNamespace k).
Proof.
  destruct k as [|a k]; [done|]. intros _.
  unfold String.leb, shim.emptyKeySubstitute, shim.compositeKeyNamespace.
  cbn [String.compare String.prefix].
  destruct a as [[] [] [] [] [] [] [] []]; try reflexivity;
    cbn; by destruct k.
Qed.

Lemma elem_of_range startKey endKey w k v :
  (k, v) ∈ shim.range startKey endKey w
  <-> w !! k = Some v /\ shim.in_range startKey endKey k = true.
Proof.
  unfold shim.range. rewrite list_elem_of_filter, elem_of_entries. cbn.
  split; intros [? ?]; split; try done; by apply Is_true_true.
Qed.

Lemma Forall2_choice {A B} (P : A -> B -> Prop) (l : list A) :
  (forall a, a ∈ l -> exists b, P a b) -> exists k, Forall2 P l k.
Proof.
  induction l as [|a l IH]; intros Hall; [by exists []|].
  destruct (Hall a) as [b Hb]; [by left|].
  destruct IH as [k Hk]; [intros a' Ha'; apply Hall; by right|].
  exists (b :: k). by constructor.
Qed.

Section class_theorems.
Import shim class.
Context `{Json Class} `{!JsonLaws Class} `{Base64}.

Lemma class_step_keyed k cid fs w :
  class_keyed w -> class_keyed (invoke (class_run k) cid fs w).2.
Proof.
  intros Hw id v Hv.
  destruct (class_entry_step k cid fs w id) as [Hsame|[[_ Hnew]|Hch]].
  - rewrite Hsame in Hv. by apply Hw.
  - destruct Hnew as (_ & Hne & _ & clientID & n & ct & b' & _ & Hb' & Hin).
    split; [done|]. exists (mkClass id n ct clientID).
    split; [|done]. apply json_read_back. congruence.
  - destruct Hch as (b & cl & Hb & Hcl & _ & Hcase).
    destruct (Hw _ _ Hb) as (Hne & cl0 & Hcl0 & Hid0).
    assert (cl0 = cl) as -> by congruence.
    split; [done|].
    destruct Hcase as [(n & ct & b' & _ & Hb' & Hin)
                      |[(o & b' & _ & Hb' & Hin)|[_ Hin]]].
    + exists (mkClass (ID cl) n ct (Owner cl)).
      split; [|done]. apply json_read_back. congruence.
    + exists (mkClass (ID cl) (Name cl) (Content cl) o).
      split; [|done]. apply json_read_back. congruence.
    + congruence.
Qed.

(** X4. Every world the class contract reaches from the empty one, by any
    invocations of any clients under any failures of the ledger, holds
    nothing but classes, each stored under its own non-empty ID. *)
Theorem class_reachable_keyed w : class_reachable w -> class_keyed w.
Proof.
  induction 1 as [|w k cid fs _ IH]; [|by apply class_step_keyed].
  intros k v Hk. by rewrite lookup_empty in Hk.
Qed.

(** X5. An entry of the class contract's world changes only at the hand of
    its owner.  If one invocation leaves the entry [id] other than it found
    it, the entry was a class, the submitting client is its owner, and the
    call is an update, a transfer or a deletion of [id]; the class keeps
    its ID, and its owner is another afterwards only when the call is a
    transfer: to the owner it names, when that name is valid UTF-8. *)
Theorem only_the_owner_changes_a_class k cid fs w id b :
  w !! id = Some b ->
  (invoke (class_run k) cid fs w).2 !! id <> Some b ->
  exists cl,
    json_Unmarshal b = Ok cl /\ submitter cid = Ok (Owner cl)
    /\ class_mutation k id
    /\ forall b' cl',
         (invoke (class_run k) cid fs w).2 !! id = Some b' ->
         json_Unmarshal b' = Ok cl' ->
         ID cl' = ID cl
         /\ (Owner cl' <> Owner cl ->
             exists newOwner,
               k = call_TransferClass id newOwner
               /\ (utf8 newOwner -> Owner cl' = newOwner)).
Proof.
  intros Hb Hdiff.
  destruct (class_entry_step k cid fs w id) as [Hsame|[[_ Hnew]|Hch]].
  - congruence.
  - destruct Hnew as (Hnone & _). congruence.
  - destruct Hch as (b0 & cl & Hb0 & Hcl & Hid & Hcase).
    assert (b0 = b) as -> by congruence.
    exists cl. split_and!; try done.
    + by destruct Hcase as [(n & ct & b' & -> & _)
                           |[(o & b' & -> & _)|[-> _]]].
    + intros b' cl' Hb' Hcl'.
      destruct Hcase as [(n & ct & b1 & -> & Hb1 & Hin)
                        |[(o & b1 & -> & Hb1 & Hin)|[-> Hin]]].
      * assert (b1 = b') as -> by congruence.
        apply json_read_back in Hb1.
        assert (cl' = mkClass (ID cl) n ct (Owner cl)) as -> by congruence.
        by split.
      * assert (b1 = b') as -> by congruence.
        apply json_read_back in Hb1.
        assert (cl' = mkClass (ID cl) (Name cl) (Content cl) o) as ->
          by congruence.
        split; [done|]. intros _. by exists o.
      * congruence.
Qed.

(** X6. A class appears only by [CreateClass] or [InitLedger], submitted by
    a client whose certificate carries the attribute [class.creator] with
    the value [true]; the new class is stored under its ID and owned by
    that client. *)
Theorem class_creation_needs_creator_attribute k cid fs w id b' :
  w !! id = None ->
  (invoke (class_run k) cid fs w).2 !! id = Some b' ->
  class_creation k
  /\ AssertAttributeValue cid "class.creator" "true" = Ok tt
  /\ exists cl,
       json_Unmarshal b' = Ok cl /\ ID cl = id
       /\ submitter cid = Ok (Owner cl).
Proof.
  intros Hnone Hin.
  destruct (class_entry_step k cid fs w id) as [Hsame|[[Hk Hnew]|Hch]].
  - congruence.
  - destruct Hnew as (_ & _ & Ha & clientID & n & ct & b1 & Hid & Hb1 & Hin1).
    assert (b1 = b') as -> by congruence.
    split_and!; try done. exists (mkClass id n ct clientID).
    split_and!; try done. by apply json_read_back.
  - destruct Hch as (b0 & cl & Hb0 & _). congruence.
Qed.

(** X7. On a world that holds nothing but classes stored under their IDs,
    as every world the class contract builds does, [GetAllClassses] does
    not fail while the ledger answers: it returns, in key order, the class
    of every entry from the key [\x01] on, that is, every stored class but
    those whose ID starts with a NUL byte, which it leaves out. *)
Theorem GetAllClassses_returns_the_classes w cid :
  class_keyed w ->
  exists cls,
    GetAllClassses (ledger.quiet cid w) = (Ok cls, ledger.quiet cid w)
    /\ Forall2 (fun kv cl => json_Unmarshal kv.2 = Ok cl /\ ID cl = kv.1)
         (range emptyKeySubstitute "" w) cls
    /\ forall id b,
         (id, b) ∈ range emptyKeySubstitute "" w
         <-> w !! id = Some b
             /\ String.prefix compositeKeyNamespace id = false.
Proof.
  intros Hw.
  destruct (Forall2_choice
              (fun kv cl => json_Unmarshal kv.2 = Ok cl /\ ID cl = kv.1)
              (range emptyKeySubstitute "" w)) as [cls Hcls].
  { intros [k v] [Hk _]%elem_of_range.
    destruct (Hw _ _ Hk) as (_ & cl & Hcl & Hid). by exists cl. }
  exists cls. split_and!; [|done|].
  - unfold GetAllClassses.
    rewrite (bind_run _ _ _ _ _
               (GetStateByRange_quiet "" "" (ledger.quiet cid w) eq_refl
                  eq_refl)).
    rewrite defer_Close_lift by done. f_equal.
    apply (iterate_all [] (range emptyKeySubstitute "" w) cls).
    eapply Forall2_impl; [exact Hcls|]. by intros kv cl [Hp _].
  - intros id b. rewrite elem_of_range. unfold in_range.
    rewrite decide_True by done. rewrite andb_true_r.
    split.
    + intros [Hb Hle]. split; [done|].
      destruct (Hw _ _ Hb) as (Hne & _).
      rewrite leb_emptyKeySubstitute in Hle by done.
      by apply negb_true_iff.
    + intros [Hb Hp]. split; [done|].
      destruct (Hw _ _ Hb) as (Hne & _).
      rewrite leb_emptyKeySubstitute by done. by rewrite Hp.
Qed.

End class_theorems.

Lemma class_reachable_keyed_witness :
  class_reachable ledger.classes /\ class_keyed ledger.classes.
Proof.
  assert (class_reachable ledger.classes) as Hr.
  { exact (class_reach_step ∅ call_InitClasses ledger.tom []
             class_reach_empty). }
  split; [exact Hr|].
  exact (class_reachable_keyed _ Hr).
Defined.

Lemma only_the_owner_changes_a_class_witness :
  let b := sample.encode
             (sample.class_fields
                (class.mkClass "class1" "class1" "test" "Tom")) in
  let k := call_TransferClass "class1" "Sam" in
  ledger.classes !! "class1" = Some b
  /\ (invoke (class_run k) ledger.tom [] ledger.classes).2 !! "class1"
     <> Some b
  /\ exists cl,
       json_Unmarshal b = Ok cl
       /\ submitter ledger.tom = Ok (class.Owner cl)
       /\ class_mutation k "class1".
Proof.
  intros b k.
  assert (ledger.classes !! "class1" = Some b) as Hb
    by (vm_compute; reflexivity).
  assert ((invoke (class_run k) ledger.tom [] ledger.classes).2 !! "class1"
          <> Some b) as Hd by (vm_compute; discriminate).
  split_and!; [exact Hb|exact Hd|].
  destruct (only_the_owner_changes_a_class k ledger.tom [] ledger.classes
              "class1" b Hb Hd) as (cl & Hcl & Hid & Hk & _).
  exists cl. split_and!; [exact Hcl|exact Hid|exact Hk].
Defined.

Lemma class_creation_needs_creator_attribute_witness :
  let k := call_CreateClass "class7" "test" "test" "test" in
  let b' := sample.encode
              (sample.class_fields
                 (class.mkClass "class7" "test" "test" "Tom")) in
  (invoke (class_run k) ledger.tom [] ∅).2 !! "class7" = Some b'
  /\ class_creation k
  /\ AssertAttributeValue ledger.tom "class.creator" "true" = Ok tt.
Proof.
  intros k b'.
  assert ((∅ : gmap string string) !! "class7" = None) as Hnone
    by reflexivity.
  assert ((invoke (class_run k) ledger.tom [] ∅).2 !! "class7" = Some b')
    as Hin by (vm_compute; reflexivity).
  split; [exact Hin|].
  destruct (class_creation_needs_creator_attribute k ledger.tom [] ∅ "class7"
              b' Hnone Hin) as (Hk & Ha & _).
  split; [exact Hk|exact Ha].
Defined.

Lemma GetAllClassses_returns_the_classes_witness :
  class_keyed ledger.classes
  /\ exists cls,
       class.GetAllClassses (ledger.quiet ledger.sam ledger.classes)
       = (Ok cls, ledger.quiet ledger.sam ledger.classes).
Proof.
  assert (class_keyed ledger.classes) as Hw.
  { assert (class_keyed ∅) as Hempty
      by (intros k v Hk; exfalso; by rewrite lookup_empty in Hk).
    exact (class_step_keyed call_InitClasses ledger.tom [] ∅ Hempty). }
  split; [exact Hw|].
  destruct (GetAllClassses_returns_the_classes ledger.classes ledger.sam Hw)
    as (cls & Hrun & _).
  exists cls. exact Hrun.
Defined.

Section class_round_trips.
Import shim class.
Context `{Json Class} `{!JsonLaws Class} `{Base64}.

Lemma UpdateClass_quiet id newName newContent c b cl b' :
  faults c = [] -> state c !! id = Some b -> json_Unmarshal b = Ok cl ->
  id <> "" -> submitter (clientIdentity c) = Ok (Owner cl) ->
  json_Marshal (mkClass (ID cl) newName newContent (Owner cl)) = Ok b' ->
  UpdateClass id newName newContent c
  = (Ok tt, set_state c (<[id := b']> (state c))).
Proof.
  intros Hq Hb Hl Hne Hid Hb'. unfold UpdateClass.
  rewrite (bind_run _ _ _ _ _ (ReadClass_quiet _ _ _ _ Hq Hb Hl)).
  unfold bind. rewrite GetSubmittingClientIdentity_run, Hid.
  rewrite decide_False by (by intros []).
  unfold lift. rewrite Hb'.
  rewrite PutState_quiet; [done..|by eapply json_nonempty].
Qed.

Lemma TransferClass_quiet id newOwner c b cl b' :
  faults c = [] -> state c !! id = Some b -> json_Unmarshal b = Ok cl ->
  id <> "" -> submitter (clientIdentity c) = Ok (Owner cl) ->
  json_Marshal (mkClass (ID cl) (Name cl) (Content cl) newOwner) = Ok b' ->
  TransferClass id newOwner c
  = (Ok tt, set_state c (<[id := b']> (state c))).
Proof.
  intros Hq Hb Hl Hne Hid Hb'. unfold TransferClass.
  rewrite (bind_run _ _ _ _ _ (ReadClass_quiet _ _ _ _ Hq Hb Hl)).
  unfold bind. rewrite GetSubmittingClientIdentity_run, Hid.
  rewrite decide_False by (by intros []).
  unfold lift. rewrite Hb'.
  rewrite PutState_quiet; [done..|by eapply json_nonempty].
Qed.

Lemma class_refused id c cl clientID :
  ReadClass id c = (Ok cl, c) ->
  submitter (clientIdentity c) = Ok clientID -> clientID <> Owner cl ->
  (forall newName newContent,
     refused (UpdateClass id newName newContent) c
       "submitting client not authorized to update class, does not own class")
  /\ refused (DeleteClass id) c
       "submitting client not authorized to update class, does not own class"
  /\ (forall newOwner,
        refused (TransferClass id newOwner) c
          "submitting client not authorized to update class, does not own class").
Proof.
  intros Hr Hid Ho. split_and!; intros; exists c; split; try done.
  - by eapply UpdateClass_unauthorized.
  - by eapply DeleteClass_unauthorized.
  - by eapply TransferClass_unauthorized.
Qed.

(** X8. [TransferClass] hands the class over.  When the owner of a stored
    class transfers it, to an owner whose name is valid UTF-8, while the
    ledger answers, the call succeeds and rewrites the one entry: the class
    reads back with the same ID, name and content and the new owner.  From then on the former owner, if another
    than the new one, is refused every update, deletion and transfer of the
    class, and the new owner's are accepted. *)
Theorem TransferClass_hands_over id newOwner c b cl :
  faults c = [] -> state c !! id = Some b -> json_Unmarshal b = Ok cl ->
  id <> "" -> submitter (clientIdentity c) = Ok (Owner cl) ->
  utf8 newOwner ->
  exists b',
    let c' := set_state c (<[id := b']> (state c)) in
    let cl' := mkClass (ID cl) (Name cl) (Content cl) newOwner in
    TransferClass id newOwner c = (Ok tt, c')
    /\ ReadClass id c' = (Ok cl', c')
    /\ (newOwner <> Owner cl ->
        (forall newName newContent,
           refused (UpdateClass id newName newContent) c'
             "submitting client not authorized to update class, does not own class")
        /\ refused (DeleteClass id) c'
             "submitting client not authorized to update class, does not own class"
        /\ (forall o,
              refused (TransferClass id o) c'
                "submitting client not authorized to update class, does not own class"))
    /\ (forall cid,
          submitter cid = Ok newOwner ->
          is_ok (DeleteClass id (mkCtx cid (state c') [])).1 = true
          /\ (forall newName newContent,
                is_ok (UpdateClass id newName newContent
                         (mkCtx cid (state c') [])).1 = true)
          /\ (forall o,
                is_ok (TransferClass id o (mkCtx cid (state c') [])).1
                = true)).
Proof.
  intros Hq Hb Hcl Hne Hid _.
  destruct (json_roundtrip (mkClass (ID cl) (Name cl) (Content cl) newOwner))
    as (b' & Hb' & Hcl').
  exists b'. cbn zeta.
  set (c' := set_state c (<[id := b']> (state c))).
  assert (ReadClass id c'
          = (Ok (mkClass (ID cl) (Name cl) (Content cl) newOwner), c')) as Hr.
  { eapply ReadClass_quiet; [done| |done]. apply lookup_insert_eq. }
  split_and!.
  - by eapply TransferClass_quiet.
  - done.
  - intros Ho. eapply class_refused; [exact Hr|exact Hid|].
    cbn. congruence.
  - intros cid Hcid.
    assert (state (mkCtx cid (state c') []) !! id = Some b') as Hin
      by apply lookup_insert_eq.
    split_and!; intros.
    + by erewrite DeleteClass_quiet.
    + destruct (json_roundtrip (mkClass (ID cl) newName newContent newOwner))
        as (b2 & Hb2 & _).
      by erewrite UpdateClass_quiet.
    + destruct (json_roundtrip (mkClass (ID cl) (Name cl) (Content cl) o))
        as (b2 & Hb2 & _).
      by erewrite TransferClass_quiet.
Qed.

(** X9. [UpdateClass] rewrites the name and the content and nothing else.
    When the owner of a stored class updates it, with a name and a content
    that are valid UTF-8, while the ledger answers, the call succeeds and
    rewrites the one entry: the class reads back with
    the new name and content under the same ID and owner, and every other
    entry of the world is as it was. *)
Theorem UpdateClass_reads_back id newName newContent c b cl :
  faults c = [] -> state c !! id = Some b -> json_Unmarshal b = Ok cl ->
  id <> "" -> submitter (clientIdentity c) = Ok (Owner cl) ->
  utf8 newName -> utf8 newContent ->
  exists c',
    UpdateClass id newName newContent c = (Ok tt, c')
    /\ ReadClass id c'
       = (Ok (mkClass (ID cl) newName newContent (Owner cl)), c')
    /\ ClassExists id c' = (Ok true, c')
    /\ forall k, k <> id -> state c' !! k = state c !! k.
Proof.
  intros Hq Hb Hcl Hne Hid _ _.
  destruct (json_roundtrip (mkClass (ID cl) newName newContent (Owner cl)))
    as (b' & Hb' & Hcl').
  exists (set_state c (<[id := b']> (state c))). split_and!.
  - by eapply UpdateClass_quiet.
  - eapply ReadClass_quiet; [done| |done]. apply lookup_insert_eq.
  - rewrite ClassExists_quiet by done. rewrite set_state_state.
    rewrite lookup_insert_eq. by rewrite bool_decide_true.
  - intros k Hk. rewrite set_state_state. by apply lookup_insert_ne.
Qed.

End class_round_trips.

Lemma TransferClass_hands_over_witness :
  let c := ledger.quiet ledger.tom ledger.classes in
  let cl := class.mkClass "class1" "class1" "test" "Tom" in
  let b := sample.encode (sample.class_fields cl) in
  state c !! "class1" = Some b
  /\ submitter (clientIdentity c) = Ok (class.Owner cl)
  /\ utf8 "Sam"
  /\ exists b',
       class.TransferClass "class1" "Sam" c
       = (Ok tt, set_state c (<["class1" := b']> (state c))).
Proof.
  intros c cl b.
  assert (state c !! "class1" = Some b) as Hb by (vm_compute; reflexivity).
  assert (json_Unmarshal b = Ok cl) as Hcl by (vm_compute; reflexivity).
  assert (submitter (clientIdentity c) = Ok (class.Owner cl)) as Hid
    by (vm_compute; reflexivity).
  assert (utf8 "Sam") as Hu by (by eexists).
  split_and!; [exact Hb|exact Hid|exact Hu|].
  destruct (TransferClass_hands_over "class1" "Sam" c b cl eq_refl Hb Hcl
              ltac:(discriminate) Hid Hu) as (b' & Hrun & _).
  exists b'. exact Hrun.
Defined.

Lemma UpdateClass_reads_back_witness :
  let c := ledger.quiet ledger.tom ledger.classes in
  let cl := class.mkClass "class1" "class1" "test" "Tom" in
  let b := sample.encode (sample.class_fields cl) in
  state c !! "class1" = Some b
  /\ submitter (clientIdentity c) = Ok (class.Owner cl)
  /\ utf8 "algebra" /\ utf8 "groups"
  /\ exists c',
       class.UpdateClass "class1" "algebra" "groups" c = (Ok tt, c')
       /\ class.ReadClass "class1" c'
          = (Ok (class.mkClass "class1" "algebra" "groups" "Tom"), c').
Proof.
  intros c cl b.
  assert (state c !! "class1" = Some b) as Hb by (vm_compute; reflexivity).
  assert (json_Unmarshal b = Ok cl) as Hcl by (vm_compute; reflexivity).
  assert (submitter (clientIdentity c) = Ok (class.Owner cl)) as Hid
    by (vm_compute; reflexivity).
  assert (utf8 "algebra") as Hn by (by eexists).
  assert (utf8 "groups") as Hc by (by eexists).
  split_and!; [exact Hb|exact Hid|exact Hn|exact Hc|].
  destruct (UpdateClass_reads_back "class1" "algebra" "groups" c b cl eq_refl
              Hb Hcl ltac:(discriminate) Hid Hn Hc)
    as (c' & Hrun & Hread & _).
  exists c'. split; [exact Hrun|exact Hread].
Defined.

(** * Scans and round trips of the indexed contracts *)

Section scans_of_consistent_worlds.
Import shim.
Context {R : Type} `{Json R} `{!JsonLaws R}.
Variable ID : R -> string.
Variable specs : list (string * (R -> string)).

Lemma nul_free_not_namespace k :
  nul_free k -> String.prefix compositeKeyNamespace k = false.
Proof.
  destruct k as [|a k]; [done|]. intros [Ha _].
  unfold compositeKeyNamespace. cbn [String.prefix].
  by destruct (ascii_dec "000" a) as [<-|].
Qed.

Lemma index_key_namespace s r k :
  index_key ID s r = Ok k ->
  k <> "" /\ String.prefix compositeKeyNamespace k = true.
Proof.
  intros Hk. split; [by eapply CreateCompositeKey_nonempty|].
  apply CreateCompositeKey_Ok in Hk as (_ & _ & _ & ->).
  apply prefix_app.
Qed.

(** In a consistent world the scan from the key [\x01] on meets the primary
    entries and nothing else. *)
Lemma consistent_range w k v :
  consistent ID specs w ->
  (k, v) ∈ range emptyKeySubstitute "" w
  <-> w !! k = Some v /\ primary_entry ID specs w k v.
Proof.
  intros Hw. rewrite elem_of_range. unfold in_range.
  rewrite decide_True by done. rewrite andb_true_r.
  split.
  - intros [Hk Hle]. split; [done|].
    destruct (Hw _ _ Hk) as [Hp|(_ & s & r & b & _ & _ & _ & Hkey)]; [done|].
    apply index_key_namespace in Hkey as [Hne Hpre].
    rewrite leb_emptyKeySubstitute in Hle by done. by rewrite Hpre in Hle.
  - intros [Hk Hp]. split; [done|].
    destruct Hp as (r & _ & _ & Hne & Hv%valid_nul_free & _).
    rewrite leb_emptyKeySubstitute by done.
    by rewrite nul_free_not_namespace.
Qed.

Lemma consistent_range_parses w :
  consistent ID specs w ->
  exists rs,
    Forall2 (fun kv r => json_Unmarshal kv.2 = Ok r /\ ID r = kv.1)
      (range emptyKeySubstitute "" w) rs.
Proof.
  intros Hw. apply Forall2_choice.
  intros [k v] [_ (r & Hr & Hid & _)]%consistent_range; [|done].
  by exists r.
Qed.

End scans_of_consistent_worlds.

Section full_scans.
Import shim.
Context `{Json lab.Lab} `{!JsonLaws lab.Lab}.
Context `{Json instance.Instance} `{!JsonLaws instance.Instance}.
Context `{Json submission.Submission} `{!JsonLaws submission.Submission}.
Context `{StateDB}.

(** The scan with both keys empty, run by the loop over the iterator. *)
Lemma full_scan {R} `{Json R} c (rs : list R) :
  faults c = [] ->
  Forall2 parses (range emptyKeySubstitute "" (state c)) rs ->
  (let* resultsIterator := GetStateByRange "" "" in
   defer (Close resultsIterator) (lift (iterate [] resultsIterator))) c
  = (Ok rs, c).
Proof.
  intros Hq Hrs.
  rewrite (bind_run _ _ _ _ _ (GetStateByRange_quiet "" "" c Hq eq_refl)).
  rewrite defer_Close_lift by done. f_equal.
  exact (iterate_all [] (range emptyKeySubstitute "" (state c)) rs Hrs).
Qed.

(** X10. In a world that keeps the index invariant, the scans over all keys
    do not fail while the ledger answers and return the stored records and
    nothing else.  [ReadLabs] and the range scans of the three contracts
    with both keys empty start at the key [\x01]: they meet every primary
    entry and no index entry, whose keys start with a NUL byte, so that the
    records come back one per stored record, in the order of their IDs. *)
Theorem full_scans_return_the_records :
  (forall c,
     faults c = [] -> consistent lab.ID lab_specs (state c) ->
     exists labs,
       lab.ReadLabs c = (Ok labs, c)
       /\ lab.GetLabsByRange "" "" c = (Ok labs, c)
       /\ Forall2 (fun kv l => json_Unmarshal kv.2 = Ok l /\ lab.ID l = kv.1)
            (range emptyKeySubstitute "" (state c)) labs
       /\ forall k v,
            (k, v) ∈ range emptyKeySubstitute "" (state c)
            <-> state c !! k = Some v
                /\ primary_entry lab.ID lab_specs (state c) k v)
  /\ (forall c,
        faults c = [] -> consistent instance.ID instance_specs (state c) ->
        exists insts,
          instance.GetInstanceByRange "" "" c = (Ok insts, c)
          /\ Forall2 (fun kv i => json_Unmarshal kv.2 = Ok i
                                  /\ instance.ID i = kv.1)
               (range emptyKeySubstitute "" (state c)) insts
          /\ forall k v,
               (k, v) ∈ range emptyKeySubstitute "" (state c)
               <-> state c !! k = Some v
                   /\ primary_entry instance.ID instance_specs (state c) k
                        v)
  /\ (forall c,
        faults c = [] ->
        consistent submission.ID submission_specs (state c) ->
        exists ss,
          submission.GetSubmissionByRange "" "" c = (Ok ss, c)
          /\ Forall2 (fun kv s => json_Unmarshal kv.2 = Ok s
                                  /\ submission.ID s = kv.1)
               (range emptyKeySubstitute "" (state c)) ss
          /\ forall k v,
               (k, v) ∈ range emptyKeySubstitute "" (state c)
               <-> state c !! k = Some v
                   /\ primary_entry submission.ID submission_specs (state c)
                        k v).
Proof.
  split_and!; intros c Hq Hw.
  - destruct (consistent_range_parses lab.ID lab_specs _ Hw) as [labs Hlabs].
    assert (Forall2 parses (range emptyKeySubstitute "" (state c)) labs) as Hp
      by (eapply Forall2_impl; [exact Hlabs|]; by intros kv l [? _]).
    exists labs. split_and!; [by apply full_scan..|done|].
    intros k v. by apply consistent_range.
  - destruct (consistent_range_parses instance.ID instance_specs _ Hw)
      as [insts Hinsts].
    assert (Forall2 parses (range emptyKeySubstitute "" (state c)) insts) as Hp
      by (eapply Forall2_impl; [exact Hinsts|]; by intros kv l [? _]).
    exists insts. split_and!; [by apply full_scan|done|].
    intros k v. by apply consistent_range.
  - destruct (consistent_range_parses submission.ID submission_specs _ Hw)
      as [ss Hss].
    assert (Forall2 parses (range emptyKeySubstitute "" (state c)) ss) as Hp
      by (eapply Forall2_impl; [exact Hss|]; by intros kv l [? _]).
    exists ss. split_and!; [by apply full_scan|done|].
    intros k v. by apply consistent_range.
Qed.

End full_scans.

Lemma full_scans_return_the_records_witness :
  let c := ledger.quiet ledger.sam ledger.labs in
  consistent lab.ID lab_specs (state c)
  /\ exists labs,
       lab.ReadLabs c = (Ok labs, c)
       /\ lab.GetLabsByRange "" "" c = (Ok labs, c).
Proof.
  intros c.
  assert (consistent lab.ID lab_specs (state c)) as Hw.
  { exact (lab_step_consistent call_InitLedger ledger.tom [] ∅
             (consistent_empty _ _)). }
  split; [exact Hw|].
  destruct (proj1 full_scans_return_the_records c eq_refl Hw)
    as (labs & Hrun & Hrange & _).
  exists labs. split; [exact Hrun|exact Hrange].
Defined.

Section create_then_delete.
Import shim.
Context {R : Type} `{Json R} `{!JsonLaws R}.
Variable ID : R -> string.
Variable specs : list (string * (R -> string)).

Lemma index_keys_fresh w r keys key :
  consistent ID specs w -> w !! ID r = None ->
  Forall2 (fun s key => index_key ID s r = Ok key) specs keys ->
  key ∈ keys -> w !! key = None.
Proof.
  intros Hw Hfresh HF Hin.
  destruct (w !! key) as [v|] eqn:Hk; [exfalso|done].
  destruct (spec_of_key ID specs _ _ _ HF Hin) as (s & _ & Hs).
  destruct (Hw _ _ Hk) as [(_ & _ & _ & _ & Hv & _)
                          |(_ & s' & r' & b' & _ & Hb' & _ & Hs')].
  - by eapply index_key_not_valid.
  - unfold index_key in Hs, Hs'.
    apply SplitCompositeKey_Create in Hs, Hs'.
    assert (ID r' = ID r) as Heq by congruence.
    rewrite Heq in Hb'. congruence.
Qed.

Lemma del_all_put_all w r b keys :
  consistent ID specs w -> w !! ID r = None ->
  Forall2 (fun s key => index_key ID s r = Ok key) specs keys ->
  del_all keys (delete (ID r) (put_all keys (<[ID r := b]> w))) = w.
Proof.
  intros Hw Hfresh HF. apply map_eq. intros k.
  rewrite lookup_del_all. case_decide as Hin.
  - symmetry. by eapply index_keys_fresh.
  - destruct (decide (k = ID r)) as [->|Hk].
    + by rewrite lookup_delete_eq.
    + rewrite lookup_delete_ne by done. rewrite lookup_put_all.
      rewrite decide_False by done. by apply lookup_insert_ne.
Qed.

End create_then_delete.

Section undo.
Context `{Json lab.Lab} `{!JsonLaws lab.Lab}.
Context `{Json instance.Instance} `{!JsonLaws instance.Instance}.
Context `{Json submission.Submission} `{!JsonLaws submission.Submission}.
Context `{shim.StateDB}.

(** X11. Delete undoes Create.  In a world that keeps the index invariant,
    while the ledger answers, creating a record under a fresh id and then
    deleting it (as its owner, where the contract asks for one) gives back
    the very world the creation started from: neither the record nor any of
    its index entries is left behind, and no other entry is touched.  The
    owner of a lab is text that no composite key checks: it is to be valid
    UTF-8, for [DeleteLab] to find in the record the owner it is given. *)
Theorem Delete_undoes_Create :
  (forall labID classID name content image startTime endTime owner c,
     faults c = [] -> consistent lab.ID lab_specs (state c) ->
     state c !! labID = None -> labID <> "" ->
     valid classID -> valid labID -> utf8 owner ->
     exists c1,
       lab.CreateLab labID classID name content image startTime endTime
         owner c = (Ok tt, c1)
       /\ lab.DeleteLab labID owner c1 = (Ok tt, c))
  /\ (forall instanceID labID classID config owner c,
        faults c = [] -> consistent instance.ID instance_specs (state c) ->
        state c !! instanceID = None -> instanceID <> "" ->
        valid labID -> valid classID -> valid owner -> valid instanceID ->
        exists c1,
          instance.CreateInstance instanceID labID classID config owner c
            = (Ok tt, c1)
          /\ instance.DeleteInstance instanceID owner c1 = (Ok tt, c))
  /\ (forall submissionID labID classID content owner c,
        faults c = [] ->
        consistent submission.ID submission_specs (state c) ->
        state c !! submissionID = None -> submissionID <> "" ->
        valid labID -> valid classID -> valid owner -> valid submissionID ->
        exists c1,
          submission.CreateSubmission submissionID labID classID content
            owner c = (Ok tt, c1)
          /\ submission.DeleteSubmission submissionID c1 = (Ok tt, c)).
Proof.
  split_and!.
  - intros labID classID name content image startTime endTime owner c
      Hq Hw Hfresh Hne Hcl Hid _.
    set (l := lab.mkLab "lab" labID classID name content image startTime
                endTime owner).
    destruct (json_roundtrip l) as (b & Hb & Hl).
    pose proof (composite_key lab.index _ _ eq_refl Hcl Hid) as Hkey.
    pose proof (lab_keys l _ Hkey) as HF.
    set (key := shim.compositeKeyNamespace +:+ lab.index +:+ shim.sep
                  +:+ classID +:+ shim.sep +:+ labID +:+ shim.sep) in *.
    set (c1 := set_state c (put_all [key] (<[labID := b]> (state c)))).
    assert (state c1 !! labID = Some b) as Hin
      by exact (lookup_put_all_primary lab.ID lab_specs (state c) l b _ Hid
                  HF).
    exists c1. split; [by eapply CreateLab_quiet|].
    rewrite (DeleteLab_quiet labID owner c1 b l key Hq Hin Hl eq_refl Hkey).
    f_equal. rewrite <- (set_state_id c).
    unfold c1, set_state. cbn [state clientIdentity faults]. f_equal.
    exact (del_all_put_all lab.ID lab_specs (state c) l b _ Hw Hfresh HF).
  - intros instanceID labID classID config owner c
      Hq Hw Hfresh Hne Hl Hcl Ho Hid.
    set (i := instance.mkInstance "instance" instanceID classID labID config
                owner).
    destruct (json_roundtrip i) as (b & Hb & Hi).
    pose proof (composite_key instance.index1 _ _ eq_refl Hl Hid) as Hk1.
    pose proof (composite_key instance.index2 _ _ eq_refl Hcl Hid) as Hk2.
    pose proof (composite_key instance.index3 _ _ eq_refl Ho Hid) as Hk3.
    pose proof (instance_keys i _ _ _ Hk1 Hk2 Hk3) as HF.
    match type of HF with
    | Forall2 _ _ ?keys =>
        set (c1 := set_state c (put_all keys (<[instanceID := b]> (state c))))
    end.
    assert (state c1 !! instanceID = Some b) as Hin
      by exact (lookup_put_all_primary instance.ID instance_specs (state c) i
                  b _ Hid HF).
    exists c1. split; [by eapply CreateInstance_quiet|].
    rewrite (DeleteInstance_quiet instanceID owner c1 b i _ _ _ Hq Hin Hi
               eq_refl Hk1 Hk2 Hk3).
    f_equal. rewrite <- (set_state_id c).
    unfold c1, set_state. cbn [state clientIdentity faults]. f_equal.
    exact (del_all_put_all instance.ID instance_specs (state c) i b _ Hw
             Hfresh HF).
  - intros submissionID labID classID content owner c
      Hq Hw Hfresh Hne Hl Hcl Ho Hid.
    set (i := submission.mkSubmission "submission" submissionID classID labID
                content owner 0).
    destruct (json_roundtrip i) as (b & Hb & Hi).
    pose proof (composite_key submission.index1 _ _ eq_refl Hl Hid) as Hk1.
    pose proof (composite_key submission.index2 _ _ eq_refl Hcl Hid) as Hk2.
    pose proof (composite_key submission.index3 _ _ eq_refl Ho Hid) as Hk3.
    pose proof (submission_keys i _ _ _ Hk1 Hk2 Hk3) as HF.
    match type of HF with
    | Forall2 _ _ ?keys =>
        set (c1 := set_state c (put_all keys (<[submissionID := b]> (state c))))
    end.
    assert (state c1 !! submissionID = Some b) as Hin
      by exact (lookup_put_all_primary submission.ID submission_specs
                  (state c) i b _ Hid HF).
    exists c1. split; [by eapply CreateSubmission_quiet|].
    rewrite (DeleteSubmission_quiet submissionID c1 b i _ _ _ Hq Hin Hi Hk1
               Hk2 Hk3).
    f_equal. rewrite <- (set_state_id c).
    unfold c1, set_state. cbn [state clientIdentity faults]. f_equal.
    exact (del_all_put_all submission.ID submission_specs (state c) i b _ Hw
             Hfresh HF).
Qed.

End undo.

Lemma Delete_undoes_Create_witness :
  let c := ledger.quiet ledger.sam ∅ in
  utf8 "Tom"
  /\ exists c1,
       lab.CreateLab "lab1" "class1" "class1" "test" "1" "2022" "2022" "Tom" c
       = (Ok tt, c1)
       /\ lab.DeleteLab "lab1" "Tom" c1 = (Ok tt, c).
Proof.
  intros c.
  assert (utf8 "Tom") as Hu by (by eexists).
  split; [exact Hu|].
  exact (proj1 Delete_undoes_Create "lab1" "class1" "class1" "test" "1"
           "2022" "2022" "Tom" c eq_refl (consistent_empty _ _) eq_refl
           ltac:(discriminate) eq_refl eq_refl Hu).
Defined.

(** * Updates and missing records *)

Section lab_updates.
Import shim lab.
Context `{Json Lab} `{!JsonLaws Lab} `{StateDB}.

Ltac update_quiet Hq Hb Hl Hne :=
  let b' := fresh "b'" in
  let Hb' := fresh "Hb'" in
  let Hl' := fresh "Hl'" in
  match goal with
  | |- exists c', _ = _ /\ ReadLab _ _ = (Ok ?l', _) /\ _ =>
      destruct (json_roundtrip l') as (b' & Hb' & Hl')
  end;
  eexists; split_and!;
  [ rewrite (bind_run _ _ _ _ _ (ReadLab_quiet _ _ _ _ Hq Hb Hl));
    rewrite decide_False by (by intros []);
    unfold bind, lift; cbv zeta; rewrite Hb';
    rewrite PutState_quiet; [reflexivity|done..|by eapply json_nonempty]
  | eapply ReadLab_quiet; [done|apply lookup_insert_eq|done]
  | intros k Hk; rewrite set_state_state; by apply lookup_insert_ne ].

(** X12. The four update operations of the lab contract write what they
    are given and keep the rest.  When the owner of a stored lab updates it,
    with text that is valid UTF-8, while the ledger answers, the call
    succeeds; the lab reads back with the
    named fields replaced and with its document type, ID, class, owner and
    every field the operation does not name as before; every other entry of
    the world, the lab's index entry included, is as it was. *)
Theorem lab_updates_read_back labID c b l :
  faults c = [] -> state c !! labID = Some b -> json_Unmarshal b = Ok l ->
  labID <> "" ->
  (forall newImage newName newContent newStartTime newEndTime,
     Forall utf8 [newImage; newName; newContent; newStartTime; newEndTime] ->
     exists c',
       UpdateLab labID newImage newName newContent newStartTime newEndTime
         (Owner l) c = (Ok tt, c')
       /\ ReadLab labID c'
          = (Ok (mkLab (DocType l) (ID l) (ClassID l) newName newContent
                   newImage newStartTime newEndTime (Owner l)), c')
       /\ forall k, k <> labID -> state c' !! k = state c !! k)
  /\ (forall newContent,
        utf8 newContent ->
        exists c',
          UpdateLabContent labID newContent (Owner l) c = (Ok tt, c')
          /\ ReadLab labID c'
             = (Ok (mkLab (DocType l) (ID l) (ClassID l) (Name l) newContent
                      (Image l) (StartTime l) (EndTime l) (Owner l)), c')
          /\ forall k, k <> labID -> state c' !! k = state c !! k)
  /\ (forall newImage,
        utf8 newImage ->
        exists c',
          UpdateLabImage labID newImage (Owner l) c = (Ok tt, c')
          /\ ReadLab labID c'
             = (Ok (mkLab (DocType l) (ID l) (ClassID l) (Name l) (Content l)
                      newImage (StartTime l) (EndTime l) (Owner l)), c')
          /\ forall k, k <> labID -> state c' !! k = state c !! k)
  /\ (forall newTime,
        utf8 newTime ->
        exists c',
          UpdateLabEndtime labID newTime (Owner l) c = (Ok tt, c')
          /\ ReadLab labID c'
             = (Ok (mkLab (DocType l) (ID l) (ClassID l) (Name l) (Content l)
                      (Image l) (StartTime l) newTime (Owner l)), c')
          /\ forall k, k <> labID -> state c' !! k = state c !! k).
Proof.
  intros Hq Hb Hl Hne. split_and!; intros.
  - unfold UpdateLab. update_quiet Hq Hb Hl Hne.
  - unfold UpdateLabContent. update_quiet Hq Hb Hl Hne.
  - unfold UpdateLabImage. update_quiet Hq Hb Hl Hne.
  - unfold UpdateLabEndtime. update_quiet Hq Hb Hl Hne.
Qed.

End lab_updates.

Lemma lab_updates_read_back_witness :
  let c := ledger.quiet ledger.sam ledger.labs in
  let l := ledger.lab_of "lab1" in
  state c !! "lab1" = Some (ledger.lab_entry "lab1").2
  /\ utf8 "new"
  /\ exists c',
       lab.UpdateLabContent "lab1" "new" (lab.Owner l) c = (Ok tt, c')
       /\ lab.ReadLab "lab1" c'
          = (Ok (lab.mkLab "lab" "lab1" "class1" "class1" "new" "1" "2022"
                   "2022" "Tom"), c').
Proof.
  intros c l.
  assert (state c !! "lab1" = Some (ledger.lab_entry "lab1").2) as Hb
    by (vm_compute; reflexivity).
  assert (json_Unmarshal (ledger.lab_entry "lab1").2 = Ok l) as Hl
    by (vm_compute; reflexivity).
  assert (utf8 "new") as Hu by (by eexists).
  split_and!; [exact Hb|exact Hu|].
  destruct (proj1 (proj2 (lab_updates_read_back "lab1" c _ l eq_refl Hb Hl
                            ltac:(discriminate))) "new" Hu)
    as (c' & Hrun & Hread & _).
  exists c'. split; [exact Hrun|exact Hread].
Defined.

Section missing_records.
Context `{Json lab.Lab} `{Json instance.Instance}
        `{Json submission.Submission} `{Json class.Class}.
Context `{shim.StateDB} `{Base64}.

Lemma ReadLab_missing labID c :
  answers c -> state c !! labID = None ->
  fails (lab.ReadLab labID) c ("asset " +:+ labID +:+ " does not exist").
Proof.
  intros Ha Hnone. destruct (GetState_answers labID c Ha) as (c1 & Hg & Hs & _).
  exists c1. split; [|done].
  unfold lab.ReadLab, bind, wrapErr, throw. by rewrite Hg, Hnone.
Qed.

Lemma ReadInstance_missing instanceID c :
  answers c -> state c !! instanceID = None ->
  fails (instance.ReadInstance instanceID) c
    ("instance " +:+ instanceID +:+ " does not exist").
Proof.
  intros Ha Hnone.
  destruct (GetState_answers instanceID c Ha) as (c1 & Hg & Hs & _).
  exists c1. split; [|done].
  unfold instance.ReadInstance, bind, wrapErr, throw. by rewrite Hg, Hnone.
Qed.

Lemma ReadSubmission_missing submissionID c :
  answers c -> state c !! submissionID = None ->
  fails (submission.ReadSubmission submissionID) c
    ("instance " +:+ submissionID +:+ " does not exist").
Proof.
  intros Ha Hnone.
  destruct (GetState_answers submissionID c Ha) as (c1 & Hg & Hs & _).
  exists c1. split; [|done].
  unfold submission.ReadSubmission, bind, wrapErr, throw.
  by rewrite Hg, Hnone.
Qed.

Lemma ReadClass_missing id c :
  answers c -> state c !! id = None ->
  fails (class.ReadClass id) c ("the asset " +:+ id +:+ " does not exist").
Proof.
  intros Ha Hnone. destruct (GetState_answers id c Ha) as (c1 & Hg & Hs & _).
  exists c1. split; [|done].
  unfold class.ReadClass, bind, wrapErr, throw. by rewrite Hg, Hnone.
Qed.

(** An operation that starts by reading the record fails as the read. *)
Lemma fails_bind {A B} (m : Tx A) (k : A -> Tx B) c msg :
  fails m c msg -> fails (bind m k) c msg.
Proof.
  intros (c' & Hm & Hs). exists c'. split; [|done].
  unfold bind. by rewrite Hm.
Qed.

(** X13. Every operation addressed to an id under which nothing is stored
    is refused, and changes nothing, as soon as the ledger has answered its
    read: the read, the updates and the deletion of each contract report
    that the record does not exist (in the words of their kind: a
    submission is reported as a missing [instance]), and the existence
    checks answer [false]. *)
Theorem operations_on_a_missing_record_are_refused id c :
  answers c -> state c !! id = None ->
  (let msg := "asset " +:+ id +:+ " does not exist" in
   fails (lab.ReadLab id) c msg
   /\ (forall clientID, fails (lab.DeleteLab id clientID) c msg)
   /\ (forall newContent clientID,
         fails (lab.UpdateLabContent id newContent clientID) c msg)
   /\ (forall newImage clientID,
         fails (lab.UpdateLabImage id newImage clientID) c msg)
   /\ (forall newTime clientID,
         fails (lab.UpdateLabEndtime id newTime clientID) c msg)
   /\ (forall newImage newName newContent newStartTime newEndTime clientID,
         fails
           (lab.UpdateLab id newImage newName newContent newStartTime
              newEndTime clientID) c msg)
   /\ (lab.LabExists id c).1 = Ok false)
  /\ (let msg := "instance " +:+ id +:+ " does not exist" in
      fails (instance.ReadInstance id) c msg
      /\ (forall clientID, fails (instance.DeleteInstance id clientID) c msg)
      /\ (instance.InstanceExists id c).1 = Ok false
      /\ fails (submission.ReadSubmission id) c msg
      /\ fails (submission.DeleteSubmission id) c msg
      /\ (forall newScore,
            fails (submission.UpdateSubmissionScore id newScore) c msg)
      /\ (submission.SubmissionExists id c).1 = Ok false)
  /\ (let msg := "the asset " +:+ id +:+ " does not exist" in
      fails (class.ReadClass id) c msg
      /\ (forall newName newContent,
            fails (class.UpdateClass id newName newContent) c msg)
      /\ fails (class.DeleteClass id) c msg
      /\ (forall newOwner, fails (class.TransferClass id newOwner) c msg)
      /\ (class.ClassExists id c).1 = Ok false).
Proof.
  intros Ha Hnone. cbv zeta.
  pose proof (ReadLab_missing id c Ha Hnone) as Hlab.
  pose proof (ReadInstance_missing id c Ha Hnone) as Hinst.
  pose proof (ReadSubmission_missing id c Ha Hnone) as Hsub.
  pose proof (ReadClass_missing id c Ha Hnone) as Hcl.
  destruct (GetState_answers id c Ha) as (c1 & Hg & _).
  assert (forall f,
            (bind (wrapErr f (shim.GetState id))
               (fun v => ret (bool_decide (v <> None))) c).1 = Ok false)
    as Hex.
  { intros f. unfold bind, wrapErr, ret. by rewrite Hg, Hnone. }
  split_and!; intros; try done; try (by apply fails_bind); apply Hex.
Qed.

End missing_records.

Lemma operations_on_a_missing_record_are_refused_witness :
  let c := ledger.quiet ledger.sam ledger.labs in
  answers c /\ state c !! "lab9" = None
  /\ fails (lab.ReadLab "lab9") c "asset lab9 does not exist"
  /\ fails (lab.DeleteLab "lab9" "Tom") c "asset lab9 does not exist".
Proof.
  intros c.
  assert (answers c) as Ha by reflexivity.
  assert (state c !! "lab9" = None) as Hnone by (vm_compute; reflexivity).
  split_and!; [exact Ha|exact Hnone|..].
  - exact (proj1 (proj1 (operations_on_a_missing_record_are_refused "lab9" c
                           Ha Hnone))).
  - exact (proj1 (proj2 (proj1 (operations_on_a_missing_record_are_refused
                                  "lab9" c Ha Hnone))) "Tom").
Defined.

(** * Facts about what a call leaves of an entry *)

Lemma lookup_put_all_kept keys w id b id0 b0 :
  w !! id = Some b -> w !! id0 = None ->
  put_all keys (<[id0 := b0]> w) !! id = Some b
  \/ put_all keys (<[id0 := b0]> w) !! id = Some value.
Proof.
  intros Hb Hfresh. rewrite lookup_put_all. case_decide; [by right|left].
  rewrite lookup_insert_ne; [done|]. intros ->. congruence.
Qed.

Lemma lookup_del_all_kept keys w id b id0 :
  w !! id = Some b ->
  del_all keys (delete id0 w) !! id = Some b
  \/ del_all keys (delete id0 w) !! id = None.
Proof.
  intros Hb. rewrite lookup_del_all. case_decide; [by right|].
  destruct (decide (id = id0)) as [->|Hne].
  - right. apply lookup_delete_eq.
  - left. by rewrite lookup_delete_ne.
Qed.

(** An entry that parses after the call and was kept, emptied or turned
    into an index entry was kept. *)
Lemma kept_parses {R} `{Json R} `{!JsonLaws R} (w' : gmap string string)
    id b b' (r r' : R) :
  w' !! id = Some b \/ w' !! id = Some value \/ w' !! id = None ->
  json_Unmarshal b = Ok r ->
  w' !! id = Some b' -> json_Unmarshal b' = Ok r' -> r' = r.
Proof.
  intros [Hk|[Hk|Hk]] Hr Hb' Hr'; [congruence| |congruence].
  destruct (json_value_invalid (A:=R)) as [e He]. congruence.
Qed.

Section kept_records.
Context `{Json lab.Lab} `{!JsonLaws lab.Lab}.
Context `{Json instance.Instance} `{!JsonLaws instance.Instance}.
Context `{Json submission.Submission} `{!JsonLaws submission.Submission}.
Context `{shim.StateDB}.

Lemma CreateLab_kept labID classID name content image startTime endTime
    owner c c' id b :
  state c !! id = Some b \/ state c !! id = Some value ->
  lab.CreateLab labID classID name content image startTime endTime owner c
    = (Ok tt, c') ->
  state c' !! id = Some b \/ state c' !! id = Some value.
Proof.
  intros Hb (b0 & key & Hfresh & _ & _ & _ & ->)%CreateLab_Ok.
  destruct Hb as [Hb|Hb];
    destruct (lookup_put_all_kept [key] _ _ _ _ b0 Hb Hfresh); auto.
Qed.

Lemma lab_createAll_kept ls c c' id b :
  state c !! id = Some b \/ state c !! id = Some value ->
  lab.createAll ls c = (Ok tt, c') ->
  state c' !! id = Some b \/ state c' !! id = Some value.
Proof.
  revert c. induction ls as [|l ls IH]; intros c Hb Hrun.
  - by injection Hrun as <-.
  - cbn [lab.createAll] in Hrun.
    apply bind_Ok in Hrun as ([] & c1 & Hl & Hrest).
    eapply IH; [|done]. by eapply CreateLab_kept.
Qed.

Lemma CreateInstance_kept instanceID labID classID config owner c c' id b :
  state c !! id = Some b \/ state c !! id = Some value ->
  instance.CreateInstance instanceID labID classID config owner c
    = (Ok tt, c') ->
  state c' !! id = Some b \/ state c' !! id = Some value.
Proof.
  intros Hb (b0 & k1 & k2 & Hfresh & _ & _ & _ & _ & Hs)%CreateInstance_Ok.
  destruct Hs as [->|(k3 & _ & ->)];
    destruct Hb as [Hb|Hb];
    match goal with
    | |- put_all ?keys _ !! _ = _ \/ _ =>
        destruct (lookup_put_all_kept keys _ _ _ _ b0 Hb Hfresh); auto
    end.
Qed.

Lemma instance_createAll_kept insts c c' id b :
  state c !! id = Some b \/ state c !! id = Some value ->
  instance.createAll insts c = (Ok tt, c') ->
  state c' !! id = Some b \/ state c' !! id = Some value.
Proof.
  revert c. induction insts as [|i insts IH]; intros c Hb Hrun.
  - by injection Hrun as <-.
  - cbn [instance.createAll] in Hrun.
    apply bind_Ok in Hrun as ([] & c1 & Hi & Hrest).
    eapply IH; [|done]. by eapply CreateInstance_kept.
Qed.

Lemma CreateSubmission_kept submissionID labID classID content owner c c'
    id b :
  state c !! id = Some b \/ state c !! id = Some value ->
  submission.CreateSubmission submissionID labID classID content owner c
    = (Ok tt, c') ->
  state c' !! id = Some b \/ state c' !! id = Some value.
Proof.
  intros Hb (b0 & k1 & k2 & Hfresh & _ & _ & _ & _ & Hs)%CreateSubmission_Ok.
  destruct Hs as [->|(k3 & _ & ->)];
    destruct Hb as [Hb|Hb];
    match goal with
    | |- put_all ?keys _ !! _ = _ \/ _ =>
        destruct (lookup_put_all_kept keys _ _ _ _ b0 Hb Hfresh); auto
    end.
Qed.

Lemma submission_createAll_kept ss c c' id b :
  state c !! id = Some b \/ state c !! id = Some value ->
  submission.createAll ss c = (Ok tt, c') ->
  state c' !! id = Some b \/ state c' !! id = Some value.
Proof.
  revert c. induction ss as [|i ss IH]; intros c Hb Hrun.
  - by injection Hrun as <-.
  - cbn [submission.createAll] in Hrun.
    apply bind_Ok in Hrun as ([] & c1 & Hi & Hrest).
    eapply IH; [|done]. by eapply CreateSubmission_kept.
Qed.

Ltac run_call cid w fs Hrun :=
  unfold invoke in *;
  match goal with
  | H : context [?m (mkCtx cid w fs)] |- _ =>
      destruct (m (mkCtx cid w fs)) as [[[]|?] ?] eqn:Hrun
  end; cbn [snd state] in *.

Ltac same_record :=
  match goal with
  | Hb : ?w !! ?id = Some ?b, Hb' : ?w !! ?id = Some ?b',
    Hl : json_Unmarshal ?b = Ok ?l, Hl' : json_Unmarshal ?b' = Ok ?l' |- _ =>
      assert (b' = b) as -> by congruence;
      assert (l' = l) as -> by congruence; done
  end.

Ltac lab_update Hrun lem id labID b l b' Hb' Hl' :=
  let b0 := fresh "b0" in
  let l0 := fresh "l0" in
  let b1 := fresh "b1" in
  let Hb0 := fresh "Hb0" in
  let Hl0 := fresh "Hl0" in
  let Hb1 := fresh "Hb1" in
  let Hs := fresh "Hs" in
  apply lem in Hrun as (b0 & l0 & b1 & Hb0 & Hl0 & _ & Hb1 & Hs);
  cbn [state] in Hs, Hb0; rewrite Hs in Hb';
  destruct (decide (id = labID)) as [->|?];
  [ rewrite lookup_insert_eq in Hb'; apply json_read_back in Hb1;
    assert (b0 = b) by congruence; subst b0;
    assert (l0 = l) by congruence; subst l0;
    assert (b1 = b') by congruence; subst b1;
    rewrite Hb1 in Hl'; by injection Hl' as <-
  | rewrite lookup_insert_ne in Hb' by done; same_record ].

(** X14. No operation changes what a record is.  Whatever one invocation
    does, under any behaviour of the ledger, a lab that is stored before
    and after it has kept its document type, ID, class and owner; an
    instance is found exactly as it was; a submission has kept every field
    but its score.  None of the three contracts has an operation that
    transfers a record or moves it to another class or lab. *)
Theorem records_keep_their_identity :
  (forall k cid fs w id b l b' l',
     w !! id = Some b -> json_Unmarshal b = Ok l ->
     (invoke (lab_run k) cid fs w).2 !! id = Some b' ->
     json_Unmarshal b' = Ok l' ->
     lab.DocType l' = lab.DocType l /\ lab.ID l' = lab.ID l
     /\ lab.ClassID l' = lab.ClassID l /\ lab.Owner l' = lab.Owner l)
  /\ (forall k cid fs w id b (i : instance.Instance) b' i',
        w !! id = Some b -> json_Unmarshal b = Ok i ->
        (invoke (instance_run k) cid fs w).2 !! id = Some b' ->
        json_Unmarshal b' = Ok i' ->
        i' = i)
  /\ (forall k cid fs w id b s b' s',
        w !! id = Some b -> json_Unmarshal b = Ok s ->
        (invoke (submission_run k) cid fs w).2 !! id = Some b' ->
        json_Unmarshal b' = Ok s' ->
        s' = submission.mkSubmission (submission.DocType s) (submission.ID s)
               (submission.ClassID s) (submission.LabID s)
               (submission.Content s) (submission.Owner s)
               (submission.Score s')).
Proof.
  split_and!.
  - intros k cid fs w id b l b' l' Hb Hl Hb' Hl'.
    destruct lab_reads_readonly
      as (Hread & Hreads & Hexists & Hrange & Hq & Hqc & Hrp & Hqp).
    destruct k; cbn [lab_run] in Hb';
      try (rewrite readonly_invoke in Hb' by auto with readonly;
           same_record);
      run_call cid w fs Hrun; try same_record.
    + assert (l' = l) as ->; [|done].
      eapply (kept_parses _ id b b'); try done.
      assert (state t !! id = Some b \/ state t !! id = Some value) as [?|?]
        by (eapply CreateLab_kept; [|exact Hrun]; left; exact Hb); auto.
    + apply DeleteLab_Ok in Hrun as (b0 & l0 & key & _ & _ & _ & _ & Hs).
      cbn [state] in Hs. rewrite Hs in Hb'.
      assert (l' = l) as ->; [|done].
      eapply (kept_parses _ id b b'); try done.
      destruct (lookup_del_all_kept [key] w id b labID Hb); auto.
    + lab_update Hrun UpdateLabContent_Ok id labID b l b' Hb' Hl'.
    + lab_update Hrun UpdateLabImage_Ok id labID b l b' Hb' Hl'.
    + lab_update Hrun UpdateLabEndtime_Ok id labID b l b' Hb' Hl'.
    + lab_update Hrun UpdateLab_Ok id labID b l b' Hb' Hl'.
    + assert (l' = l) as ->; [|done].
      eapply (kept_parses _ id b b'); try done.
      assert (state t !! id = Some b \/ state t !! id = Some value) as [?|?]
        by (eapply lab_createAll_kept; [|exact Hrun]; left; exact Hb); auto.
  - intros k cid fs w id b i b' i' Hb Hi Hb' Hi'.
    destruct instance_reads_readonly
      as (Hread & Hexists & Hrange & Hqc & Hql & Hqo).
    destruct k; cbn [instance_run] in Hb';
      try (rewrite readonly_invoke in Hb' by auto with readonly;
           same_record);
      run_call cid w fs Hrun; try same_record.
    + eapply (kept_parses _ id b b'); try done.
      assert (state t !! id = Some b \/ state t !! id = Some value) as [?|?]
        by (eapply CreateInstance_kept; [|exact Hrun]; left; exact Hb); auto.
    + apply DeleteInstance_Ok in Hrun
        as (b0 & i0 & k1 & k2 & k3 & _ & _ & _ & _ & _ & _ & Hs).
      cbn [state] in Hs. rewrite Hs in Hb'.
      eapply (kept_parses _ id b b'); try done.
      destruct (lookup_del_all_kept [k1; k2; k3] w id b instanceID Hb); auto.
    + eapply (kept_parses _ id b b'); try done.
      assert (state t !! id = Some b \/ state t !! id = Some value) as [?|?]
        by (eapply instance_createAll_kept; [|exact Hrun]; left; exact Hb); auto.
  - intros k cid fs w id b s b' s' Hb Hi Hb' Hi'.
    destruct submission_reads_readonly
      as (Hread & Hexists & Hrange & Hqc & Hql & Hqo).
    assert (forall s0 : submission.Submission,
              s0 = submission.mkSubmission (submission.DocType s0)
                     (submission.ID s0) (submission.ClassID s0)
                     (submission.LabID s0) (submission.Content s0)
                     (submission.Owner s0) (submission.Score s0)) as Heta
      by (by intros []).
    destruct k; cbn [submission_run] in Hb';
      try (rewrite readonly_invoke in Hb' by auto with readonly;
           assert (b' = b) as -> by congruence;
           assert (s' = s) as -> by congruence; apply Heta);
      run_call cid w fs Hrun;
      try (assert (b' = b) as -> by congruence;
           assert (s' = s) as -> by congruence; apply Heta).
    + assert (s' = s) as ->; [|apply Heta].
      eapply (kept_parses _ id b b'); try done.
      assert (state t !! id = Some b \/ state t !! id = Some value) as [?|?]
        by (eapply CreateSubmission_kept; [|exact Hrun]; left; exact Hb); auto.
    + apply DeleteSubmission_Ok in Hrun
        as (b0 & i0 & k1 & k2 & k3 & _ & _ & _ & _ & _ & Hs).
      cbn [state] in Hs. rewrite Hs in Hb'.
      assert (s' = s) as ->; [|apply Heta].
      eapply (kept_parses _ id b b'); try done.
      destruct (lookup_del_all_kept [k1; k2; k3] w id b submissionID Hb);
        auto.
    + apply UpdateSubmissionScore_Ok in Hrun
        as (b0 & s0 & b1 & Hb0 & Hs0 & Hb1 & Hs).
      cbn [state] in *. rewrite Hs in Hb'.
      destruct (decide (id = submissionID)) as [->|Hne].
      * rewrite lookup_insert_eq in Hb'. apply json_read_back in Hb1.
        assert (b0 = b) by congruence; subst b0.
        assert (s0 = s) by congruence; subst s0.
        assert (b1 = b') by congruence; subst b1.
        rewrite Hb1 in Hi'. by injection Hi' as <-.
      * rewrite lookup_insert_ne in Hb' by done.
        assert (b' = b) as -> by congruence.
        assert (s' = s) as -> by congruence. apply Heta.
    + assert (s' = s) as ->; [|apply Heta].
      eapply (kept_parses _ id b b'); try done.
      assert (state t !! id = Some b \/ state t !! id = Some value) as [?|?]
        by (eapply submission_createAll_kept; [|exact Hrun]; left; exact Hb); auto.
Qed.

End kept_records.

Lemma records_keep_their_identity_witness :
  let k := call_UpdateLab "lab1" "2" "rings" "ideals" "2023" "2024" "Tom" in
  let l := ledger.lab_of "lab1" in
  let l' := lab.mkLab "lab" "lab1" "class1" "rings" "ideals" "2" "2023" "2024"
              "Tom" in
  let b' := sample.encode (sample.lab_fields l') in
  (invoke (lab_run k) ledger.sam [] ledger.labs).2 !! "lab1" = Some b'
  /\ lab.ClassID l' = lab.ClassID l /\ lab.Owner l' = lab.Owner l.
Proof.
  intros k l l' b'.
  assert (ledger.labs !! "lab1" = Some (ledger.lab_entry "lab1").2) as Hb
    by (vm_compute; reflexivity).
  assert (json_Unmarshal (ledger.lab_entry "lab1").2 = Ok l) as Hl
    by (vm_compute; reflexivity).
  assert ((invoke (lab_run k) ledger.sam [] ledger.labs).2 !! "lab1"
          = Some b') as Hb' by (vm_compute; reflexivity).
  assert (json_Unmarshal b' = Ok l') as Hl' by (vm_compute; reflexivity).
  split; [exact Hb'|].
  destruct (proj1 records_keep_their_identity k ledger.sam [] ledger.labs
              "lab1" _ l b' l' Hb Hl Hb' Hl') as (_ & _ & Hc & Ho).
  split; [exact Hc|exact Ho].
Defined.

(** * Computations that ignore the client *)

Lemma oblivious_ret {A} (a : A) : oblivious (ret a).
Proof. by intros c cid. Qed.

Lemma oblivious_throw {A} e : oblivious (throw (A:=A) e).
Proof. by intros c cid. Qed.

Lemma oblivious_lift {A} (r : result A) : oblivious (lift r).
Proof. by intros c cid. Qed.

Lemma oblivious_peer : oblivious shim.peer.
Proof.
  intros [i w fs] cid. by destruct fs as [|[e|] fs].
Qed.

Lemma oblivious_read {A} (f : gmap string string -> A) :
  oblivious (shim.read f).
Proof. by intros c cid. Qed.

Lemma oblivious_write f : oblivious (shim.write f).
Proof. by intros c cid. Qed.

Lemma oblivious_answer {A} (f : gmap string string -> result A) :
  oblivious (shim.answer f).
Proof. by intros c cid. Qed.

Lemma oblivious_bind {A B} (m : Tx A) (k : A -> Tx B) :
  oblivious m -> (forall a, oblivious (k a)) -> oblivious (bind m k).
Proof.
  intros Hm Hk c cid. unfold bind. rewrite Hm.
  destruct (m c) as [[a|e] c1]; cbn [fst snd]; [|done]. apply Hk.
Qed.

Lemma oblivious_wrapErr {A} f (m : Tx A) :
  oblivious m -> oblivious (wrapErr f m).
Proof.
  intros Hm c cid. unfold wrapErr. rewrite Hm.
  by destruct (m c) as [[a|e] c1].
Qed.

Lemma oblivious_orReturn {A B} (m : Tx A) onErr (k : A -> Tx B) :
  oblivious m -> (forall a, oblivious (k a)) -> oblivious (orReturn m onErr k).
Proof.
  intros Hm Hk c cid. unfold orReturn. rewrite Hm.
  destruct (m c) as [[a|e] c1]; cbn [fst snd]; [|done]. apply Hk.
Qed.

Lemma oblivious_Close resultsIterator :
  oblivious (shim.Close resultsIterator).
Proof. apply oblivious_peer. Qed.

Lemma oblivious_defer {A B} (f : Tx B) (m : Tx A) :
  oblivious f -> oblivious m -> oblivious (defer f m).
Proof.
  intros Hf Hm c cid. unfold defer. rewrite Hm.
  destruct (m c) as [r c1]. cbn [fst snd]. by rewrite Hf.
Qed.

Lemma oblivious_forget {A} (m : Tx A) : oblivious m -> oblivious (forget m).
Proof.
  intros Hm. apply oblivious_bind; [done|]. intros. apply oblivious_ret.
Qed.

Ltac oblivious :=
  repeat first
    [ apply oblivious_ret | apply oblivious_throw | apply oblivious_lift
    | apply oblivious_peer | apply oblivious_read | apply oblivious_write
    | apply oblivious_answer | apply oblivious_forget
    | apply oblivious_Close | apply oblivious_defer
    | apply oblivious_wrapErr
    | apply oblivious_bind; [|intros]
    | apply oblivious_orReturn; [|intros]
    | progress cbv zeta
    | match goal with
      | |- oblivious (if ?b then _ else _) => destruct b
      | |- oblivious (match ?o with Some _ => _ | None => _ end) =>
          destruct o
      end ].

Section oblivious_contracts.
Import shim.
Context `{Json lab.Lab} `{Json instance.Instance}
        `{Json submission.Submission} `{StateDB}.

Lemma oblivious_stub :
  (forall key, oblivious (GetState key))
  /\ (forall key val, oblivious (PutState key val))
  /\ (forall key, oblivious (DelState key))
  /\ (forall startKey endKey, oblivious (GetStateByRange startKey endKey))
  /\ (forall query, oblivious (GetQueryResult query))
  /\ (forall query pageSize bookmark,
        oblivious (GetQueryResultWithPagination query pageSize bookmark))
  /\ (forall startKey endKey pageSize bookmark,
        oblivious
          (GetStateByRangeWithPagination startKey endKey pageSize bookmark)).
Proof.
  split_and!; intros;
    unfold GetState, PutState, DelState, GetStateByRange, GetQueryResult,
      GetQueryResultWithPagination, GetStateByRangeWithPagination;
    oblivious.
Qed.

Ltac stub :=
  destruct oblivious_stub as (HG & HP & HD & HR & HQ & HQP & HRP).

Lemma oblivious_lab k : oblivious (lab_run k).
Proof.
  stub.
  assert (forall labID, oblivious (lab.ReadLab labID)) as Hread
    by (intros; unfold lab.ReadLab; oblivious; apply HG).
  assert (forall labID, oblivious (lab.LabExists labID)) as Hexists
    by (intros; unfold lab.LabExists; oblivious; apply HG).
  assert (forall a b c d e f g h, oblivious (lab.CreateLab a b c d e f g h))
    as Hcreate
    by (intros; unfold lab.CreateLab; oblivious;
        first [apply Hexists|apply HP]).
  destruct k; cbn [lab_run];
    unfold lab.DeleteLab, lab.UpdateLabContent, lab.UpdateLabImage,
      lab.UpdateLabEndtime, lab.UpdateLab, lab.ReadLabs, lab.GetLabsByRange,
      lab.QueryLabsByClass, lab.QueryLabs, lab.getQueryResultForQueryString,
      lab.GetAssetsByRangeWithPagination, lab.QueryAssetsWithPagination,
      lab.getQueryResultForQueryStringWithPagination, lab.InitLedger;
    oblivious;
    try first [apply Hread|apply Hexists|apply Hcreate|apply HG|apply HP
              |apply HD|apply HR|apply HQ|apply HQP|apply HRP].
Qed.

Lemma oblivious_instance k : oblivious (instance_run k).
Proof.
  stub.
  assert (forall id, oblivious (instance.ReadInstance id)) as Hread
    by (intros; unfold instance.ReadInstance; oblivious; apply HG).
  assert (forall id, oblivious (instance.InstanceExists id)) as Hexists
    by (intros; unfold instance.InstanceExists; oblivious; apply HG).
  assert (forall a b c d e, oblivious (instance.CreateInstance a b c d e))
    as Hcreate
    by (intros; unfold instance.CreateInstance; oblivious;
        first [apply Hexists|apply HP]).
  destruct k; cbn [instance_run];
    unfold instance.DeleteInstance, instance.GetInstanceByRange,
      instance.QueryInstanceByClass, instance.QueryInstanceByLab,
      instance.QueryInstanceByOwner, instance.getQueryResultForQueryString,
      instance.InitLedger;
    oblivious;
    try first [apply Hread|apply Hexists|apply Hcreate|apply HG|apply HP
              |apply HD|apply HR|apply HQ].
Qed.

Lemma oblivious_submission k : oblivious (submission_run k).
Proof.
  stub.
  assert (forall id, oblivious (submission.ReadSubmission id)) as Hread
    by (intros; unfold submission.ReadSubmission; oblivious; apply HG).
  assert (forall id, oblivious (submission.SubmissionExists id)) as Hexists
    by (intros; unfold submission.SubmissionExists; oblivious; apply HG).
  assert (forall a b c d e, oblivious (submission.CreateSubmission a b c d e))
    as Hcreate
    by (intros; unfold submission.CreateSubmission; oblivious;
        first [apply Hexists|apply HP]).
  destruct k; cbn [submission_run];
    unfold submission.DeleteSubmission, submission.UpdateSubmissionScore,
      submission.GetSubmissionByRange, submission.QueryInstanceByClass,
      submission.QueryInstanceByLab, submission.QueryInstanceByOwner,
      submission.getQueryResultForQueryString, submission.InitLedger;
    oblivious;
    try first [apply Hread|apply Hexists|apply Hcreate|apply HG|apply HP
              |apply HD|apply HR|apply HQ].
Qed.

(** X15. The lab, instance and submission contracts never look at the
    identity of the submitting client.  Run for another client on the same
    world and ledger, every operation returns the same result and leaves
    the same world: the owner that [DeleteLab], the lab updates and
    [DeleteInstance] compare with the record's is the [clientID] argument
    of the call, which the caller chooses. *)
Theorem contracts_ignore_the_submitting_client :
  (forall k, oblivious (lab_run k))
  /\ (forall k, oblivious (instance_run k))
  /\ (forall k, oblivious (submission_run k)).
Proof.
  split_and!;
    [apply oblivious_lab|apply oblivious_instance|apply oblivious_submission].
Qed.

End oblivious_contracts.

(** * Computations that report the ledger's failures *)

Lemma reports_pure {A} (m : Tx A) :
  (forall c, (m c).2 = c) -> reports m.
Proof.
  intros Hm c a c' Hrun. exists []. split; [|done].
  specialize (Hm c). rewrite Hrun in Hm. cbn in Hm. by subst c'.
Qed.

Lemma reports_ret {A} (a : A) : reports (ret a).
Proof. by apply reports_pure. Qed.

Lemma reports_throw {A} e : reports (throw (A:=A) e).
Proof. by apply reports_pure. Qed.

Lemma reports_lift {A} (r : result A) : reports (lift r).
Proof. by apply reports_pure. Qed.

Lemma reports_client {A} (f : ClientIdentity -> result A) :
  reports (client f).
Proof. by apply reports_pure. Qed.

Lemma reports_read {A} (f : gmap string string -> A) : reports (shim.read f).
Proof. by apply reports_pure. Qed.

Lemma reports_answer {A} (f : gmap string string -> result A) :
  reports (shim.answer f).
Proof. by apply reports_pure. Qed.

Lemma reports_write f : reports (shim.write f).
Proof. intros c a c' [= _ <-]. by exists []. Qed.

Lemma reports_peer : reports shim.peer.
Proof.
  intros [i w fs] a c'. unfold shim.peer. cbn.
  destruct fs as [|[e|] fs]; intros [= _ <-]; cbn.
  - by exists [].
  - exists [None]. split; [done|]. by constructor.
Qed.

Lemma reports_bind {A B} (m : Tx A) (k : A -> Tx B) :
  reports m -> (forall a, reports (k a)) -> reports (bind m k).
Proof.
  intros Hm Hk c b c' (a & c1 & Hrun & Hrest)%bind_Ok.
  destruct (Hm _ _ _ Hrun) as (fs1 & -> & H1).
  destruct (Hk _ _ _ _ Hrest) as (fs2 & -> & H2).
  exists (fs1 ++ fs2)%list. split; [by rewrite List.app_assoc|].
  by apply Forall_app.
Qed.

Lemma reports_wrapErr {A} f (m : Tx A) : reports m -> reports (wrapErr f m).
Proof. intros Hm c a c' Hrun%wrapErr_Ok. by eapply Hm. Qed.

Lemma reports_forget {A} (m : Tx A) : reports m -> reports (forget m).
Proof.
  intros Hm. apply reports_bind; [done|]. intros. apply reports_ret.
Qed.

Ltac reports :=
  repeat first
    [ apply reports_ret | apply reports_throw | apply reports_lift
    | apply reports_client
    | apply reports_peer | apply reports_read | apply reports_write
    | apply reports_answer | apply reports_forget
    | apply reports_wrapErr
    | apply reports_bind; [|intros]
    | progress cbv zeta
    | match goal with
      | |- reports (if ?b then _ else _) => destruct b
      | |- reports (match ?o with Some _ => _ | None => _ end) =>
          destruct o
      end ].

Section reporting_contracts.
Import shim.
Context `{Json lab.Lab} `{Json instance.Instance}
        `{Json submission.Submission} `{Json class.Class}.
Context `{StateDB} `{Base64}.

Lemma reports_stub :
  (forall key, reports (GetState key))
  /\ (forall key val, reports (PutState key val))
  /\ (forall key, reports (DelState key))
  /\ (forall startKey endKey, reports (GetStateByRange startKey endKey))
  /\ (forall query, reports (GetQueryResult query))
  /\ (forall query pageSize bookmark,
        reports (GetQueryResultWithPagination query pageSize bookmark))
  /\ (forall startKey endKey pageSize bookmark,
        reports
          (GetStateByRangeWithPagination startKey endKey pageSize bookmark)).
Proof.
  split_and!; intros;
    unfold GetState, PutState, DelState, GetStateByRange, GetQueryResult,
      GetQueryResultWithPagination, GetStateByRangeWithPagination;
    reports.
Qed.

Ltac stub :=
  destruct reports_stub as (HG & HP & HD & HR & HQ & HQP & HRP).











End reporting_contracts.


(** * What Create asks for *)

Section create_conditions.
Context `{Json lab.Lab} `{!JsonLaws lab.Lab}.
Context `{Json instance.Instance} `{!JsonLaws instance.Instance}.
Context `{Json submission.Submission} `{!JsonLaws submission.Submission}.
Context `{Json class.Class} `{!JsonLaws class.Class}.
Context `{shim.StateDB} `{Base64}.

Lemma is_ok_run {A} (m : Tx A) c :
  is_ok (m c).1 = true <-> exists a c', m c = (Ok a, c').
Proof.
  destruct (m c) as [[a|e] c']; cbn; split; try done; [eauto|].
  by intros (? & ? & ?).
Qed.

(** X17. What Create asks for.  While the ledger answers, a Create returns
    without an error exactly when nothing is stored under the id, the id is
    not empty, and the id and every indexed field are strings a composite
    key can hold (valid UTF-8 without U+0000 and U+10FFFF): the class and
    the id of a lab; the lab, the class, the owner and the id of an instance
    or a submission.  [CreateClass] asks instead for the creator attribute
    and a readable client identity. *)
Theorem Create_succeeds_exactly_when :
  (forall labID classID name content image startTime endTime owner c,
     faults c = [] ->
     is_ok (lab.CreateLab labID classID name content image startTime endTime
              owner c).1 = true
     <-> state c !! labID = None /\ labID <> ""
         /\ valid classID /\ valid labID)
  /\ (forall instanceID labID classID config owner c,
        faults c = [] ->
        is_ok (instance.CreateInstance instanceID labID classID config owner
                 c).1 = true
        <-> state c !! instanceID = None /\ instanceID <> ""
            /\ valid labID /\ valid classID /\ valid owner
            /\ valid instanceID)
  /\ (forall submissionID labID classID content owner c,
        faults c = [] ->
        is_ok (submission.CreateSubmission submissionID labID classID content
                 owner c).1 = true
        <-> state c !! submissionID = None /\ submissionID <> ""
            /\ valid labID /\ valid classID /\ valid owner
            /\ valid submissionID)
  /\ (forall id name content owner c,
        faults c = [] ->
        is_ok (class.CreateClass id name content owner c).1 = true
        <-> state c !! id = None /\ id <> ""
            /\ AssertAttributeValue (clientIdentity c) "class.creator" "true"
               = Ok tt
            /\ is_ok (submitter (clientIdentity c)) = true).
Proof.
  split_and!.
  - intros labID classID name content image startTime endTime owner c Hq.
    rewrite is_ok_run. split.
    + intros ([] & c' & (b & key & Hfresh & Hne & _ & Hkey & _)%CreateLab_Ok).
      apply CreateCompositeKey_Ok in Hkey as (_ & Hcl & Hid & _).
      done.
    + intros (Hfresh & Hne & Hcl & Hid).
      destruct (json_roundtrip
                  (lab.mkLab "lab" labID classID name content image startTime
                     endTime owner)) as (b & Hb & _).
      pose proof (composite_key lab.index _ _ eq_refl Hcl Hid) as Hkey.
      eexists _, _. by eapply CreateLab_quiet.
  - intros instanceID labID classID config owner c Hq.
    rewrite is_ok_run. split.
    + intros ([] & c'
              & (b & k1 & k2 & k3 & Hfresh & Hne & _ & Hk1 & Hk2 & Hk3 & _)
                %CreateInstance_Ok_quiet); [|done].
      apply CreateCompositeKey_Ok in Hk1 as (_ & Hl & Hid & _).
      apply CreateCompositeKey_Ok in Hk2 as (_ & Hcl & _ & _).
      apply CreateCompositeKey_Ok in Hk3 as (_ & Ho & _ & _).
      done.
    + intros (Hfresh & Hne & Hl & Hcl & Ho & Hid).
      destruct (json_roundtrip
                  (instance.mkInstance "instance" instanceID classID labID
                     config owner)) as (b & Hb & _).
      pose proof (composite_key instance.index1 _ _ eq_refl Hl Hid) as Hk1.
      pose proof (composite_key instance.index2 _ _ eq_refl Hcl Hid) as Hk2.
      pose proof (composite_key instance.index3 _ _ eq_refl Ho Hid) as Hk3.
      eexists _, _. by eapply CreateInstance_quiet.
  - intros submissionID labID classID content owner c Hq.
    rewrite is_ok_run. split.
    + intros ([] & c'
              & (b & k1 & k2 & k3 & Hfresh & Hne & _ & Hk1 & Hk2 & Hk3 & _)
                %CreateSubmission_Ok_quiet); [|done].
      apply CreateCompositeKey_Ok in Hk1 as (_ & Hl & Hid & _).
      apply CreateCompositeKey_Ok in Hk2 as (_ & Hcl & _ & _).
      apply CreateCompositeKey_Ok in Hk3 as (_ & Ho & _ & _).
      done.
    + intros (Hfresh & Hne & Hl & Hcl & Ho & Hid).
      destruct (json_roundtrip
                  (submission.mkSubmission "submission" submissionID classID
                     labID content owner 0)) as (b & Hb & _).
      pose proof (composite_key submission.index1 _ _ eq_refl Hl Hid) as Hk1.
      pose proof (composite_key submission.index2 _ _ eq_refl Hcl Hid) as Hk2.
      pose proof (composite_key submission.index3 _ _ eq_refl Ho Hid) as Hk3.
      eexists _, _. by eapply CreateSubmission_quiet.
  - intros id name content owner c Hq.
    rewrite is_ok_run. split.
    + intros ([] & c'
              & (clientID & b & Ha & Hfresh & Hne & Hid & _)%CreateClass_Ok).
      split_and!; try done. by rewrite Hid.
    + intros (Hfresh & Hne & Ha & Hid).
      destruct (submitter (clientIdentity c)) as [clientID|] eqn:Hsub;
        [|done].
      destruct (json_roundtrip (class.mkClass id name content clientID))
        as (b & Hb & _).
      eexists _, _. by eapply CreateClass_quiet.
Qed.

End create_conditions.

Lemma Create_succeeds_exactly_when_witness :
  let c := ledger.quiet ledger.sam ledger.labs in
  faults c = []
  /\ (is_ok (lab.CreateLab "lab4" "class1" "class1" "test" "1" "2022" "2022"
               "Tom" c).1 = true
      <-> state c !! "lab4" = None /\ "lab4" <> ""
          /\ valid "class1" /\ valid "lab4").
Proof.
  intros c.
  assert (faults c = []) as Hq by reflexivity.
  split; [exact Hq|].
  exact (proj1 Create_succeeds_exactly_when "lab4" "class1" "class1" "test"
           "1" "2022" "2022" "Tom" c Hq).
Defined.

(** * Rich queries *)

Lemma GetQueryResult_answers_query {A} `{Json A} `{shim.StateDB} query :
  answers_query
    (let* resultsIterator := shim.GetQueryResult query in
     defer (shim.Close resultsIterator)
       (lift (iterate (A:=A) [] resultsIterator))) query.
Proof.
  intros c Hq. unfold shim.GetQueryResult, bind, shim.answer, ret.
  rewrite peer_quiet by done.
  destruct (shim.db_query query (state c)) as [kvs|e]; [|done].
  split.
  - intros rs Hrs. rewrite defer_Close_lift by done. f_equal.
    exact (iterate_all [] kvs rs Hrs).
  - intros pre kv post rs e -> Hrs He. rewrite defer_Close_lift by done.
    f_equal. exact (iterate_fail [] pre kv post rs e Hrs He).
Qed.

Section rich_queries.
Context `{Json lab.Lab} `{Json instance.Instance}
        `{Json submission.Submission} `{shim.StateDB}.

(** X18. The rich queries return the state database's answer.  [QueryLabs]
    passes its query string on as it is; the parameterized queries pass the
    selector on [docType] and one field, with the parameter spliced in as
    it comes.  Each returns the records of the entries the database
    selects, in the database's order; it fails with the database's error,
    or with the parse error of the first selected entry that is not a
    record of its kind, and returns no record then. *)
Theorem rich_queries_return_the_database_answer :
  (forall queryString, answers_query (lab.QueryLabs queryString) queryString)
  /\ (forall class,
        answers_query (lab.QueryLabsByClass class)
          ("{" +:+ q "selector" +:+ ":{" +:+ q "docType" +:+ ":" +:+ q "lab"
               +:+ "," +:+ q "classID" +:+ ":" +:+ q class +:+ "}}"))
  /\ (forall class,
        answers_query (instance.QueryInstanceByClass class)
          (instance.selector "classID" class))
  /\ (forall lab,
        answers_query (instance.QueryInstanceByLab lab)
          (instance.selector "labID" lab))
  /\ (forall owner,
        answers_query (instance.QueryInstanceByOwner owner)
          (instance.selector "owner" owner))
  /\ (forall class,
        answers_query (submission.QueryInstanceByClass class)
          (submission.selector "classID" class))
  /\ (forall lab,
        answers_query (submission.QueryInstanceByLab lab)
          (submission.selector "labID" lab))
  /\ (forall owner,
        answers_query (submission.QueryInstanceByOwner owner)
          (submission.selector "owner" owner)).
Proof.
  split_and!; intros; apply GetQueryResult_answers_query.
Qed.

End rich_queries.

(** * Facts about the weak index invariant *)

Section weak_index_theory.
Import shim.
Context {R : Type} `{Json R} `{!JsonLaws R}.
Variable ID : R -> string.
Variable must specs : list (string * (R -> string)).

Lemma weak_record w k b r :
  weakly_consistent ID must specs w -> w !! k = Some b ->
  json_Unmarshal b = Ok r ->
  primary_entry ID must w k b /\ ID r = k /\ valid k.
Proof.
  intros Hw Hk Hr. destruct (Hw k b Hk) as [Hp|[-> _]].
  - split; [done|]. destruct Hp as (r' & Hr' & ? & ? & ? & _).
    assert (r' = r) as -> by congruence. by split.
  - destruct (json_value_invalid (A:=R)) as [e He]. congruence.
Qed.

(** Adding a fresh record with some of its index entries, those of [must]
    among them, keeps the weak invariant. *)
Lemma weak_create w w' r b (keys : list string) :
  weakly_consistent ID must specs w ->
  w !! ID r = None -> ID r <> "" -> valid (ID r) ->
  json_Unmarshal b = Ok r ->
  (forall key, key ∈ keys ->
     exists s, s ∈ specs /\ index_key ID s r = Ok key) ->
  (forall s, s ∈ must -> exists key, key ∈ keys /\ index_key ID s r = Ok key) ->
  (forall k, w' !! k = if decide (k ∈ keys) then Some value
                       else if decide (k = ID r) then Some b else w !! k) ->
  weakly_consistent ID must specs w'.
Proof.
  intros Hw Hfresh Hne Hv Hb Hkeys Hmust Hw'.
  assert (forall key, key ∈ keys -> ~ valid key) as Hnv.
  { intros key (s & _ & Hs)%Hkeys. by eapply index_key_not_valid. }
  assert (w' !! ID r = Some b) as Hnew.
  { rewrite Hw'. rewrite decide_False, decide_True; [done..|].
    intros Hin. by eapply Hnv. }
  intros k v Hk. rewrite Hw' in Hk.
  destruct (decide (k ∈ keys)) as [Hin|Hnin].
  - right. injection Hk as <-. split; [done|].
    destruct (Hkeys _ Hin) as (s & Hs & Hkey).
    by exists s, r, b.
  - destruct (decide (k = ID r)) as [->|Hkr].
    + left. injection Hk as <-. exists r. split_and!; try done.
      intros s Hs. destruct (Hmust _ Hs) as (key & Hin & Hkey).
      exists key. split; [done|]. rewrite Hw'. by rewrite decide_True.
    + destruct (Hw k v Hk) as [Hp|Hi].
      * left. destruct Hp as (r' & Hr' & Hid' & Hne' & Hv' & Hall).
        exists r'. split_and!; try done.
        intros s Hs. destruct (Hall s Hs) as (key & Hkey & Hin).
        exists key. split; [done|]. rewrite Hw'.
        destruct (decide (key ∈ keys)); [done|].
        rewrite decide_False; [done|].
        intros ->. by eapply index_key_not_valid.
      * right. destruct Hi as (-> & s & r' & b' & Hs & Hb' & Hr' & Hkey).
        split; [done|]. exists s, r', b'. split_and!; try done.
        rewrite Hw'.
        destruct (weak_record _ _ _ _ Hw Hb' Hr') as (_ & _ & Hvr).
        rewrite decide_False by (intros Hin; by eapply Hnv).
        rewrite decide_False by congruence. done.
Qed.

(** Removing a record together with all the index entries it may have
    keeps the weak invariant. *)
Lemma weak_delete w w' id b r keys :
  weakly_consistent ID must specs w ->
  w !! id = Some b -> json_Unmarshal b = Ok r ->
  Forall2 (fun s key => index_key ID s r = Ok key) specs keys ->
  (forall k, w' !! k = if decide (k = id \/ k ∈ keys) then None
                       else w !! k) ->
  weakly_consistent ID must specs w'.
Proof.
  intros Hw Hid Hr HF Hw'.
  destruct (weak_record _ _ _ _ Hw Hid Hr) as (_ & Hidr & Hv).
  intros k v Hk. rewrite Hw' in Hk.
  destruct (decide (k = id \/ k ∈ keys)) as [|Hnot]; [done|].
  destruct (Hw k v Hk) as [Hp|Hi].
  - left. destruct Hp as (r' & Hr' & Hid' & Hne' & Hv' & Hall).
    exists r'. split_and!; try done.
    intros s Hs. destruct (Hall s Hs) as (key & Hkey & Hin).
    exists key. split; [done|]. rewrite Hw'.
    rewrite decide_False; [done|]. intros [->|Hin'].
    + by eapply index_key_not_valid.
    + destruct (spec_of_key ID specs _ _ _ HF Hin') as (s' & _ & Hkey').
      unfold index_key in Hkey, Hkey'.
      apply SplitCompositeKey_Create in Hkey, Hkey'.
      rewrite Hkey in Hkey'. injection Hkey' as _ _ Hrr.
      apply Hnot. left. congruence.
  - right. destruct Hi as (-> & s & r' & b' & Hs & Hb' & Hr' & Hkey).
    split; [done|]. exists s, r', b'. split_and!; try done.
    rewrite Hw'. rewrite decide_False; [done|].
    destruct (weak_record _ _ _ _ Hw Hb' Hr') as (_ & _ & Hvr).
    intros [Heq|Hin].
    + rewrite Heq in Hb'. assert (r' = r) as -> by congruence.
      apply Hnot. right.
      destruct (keys_of_spec ID specs _ _ _ HF Hs) as (key & Hin & Hkey').
      congruence.
    + by eapply (key_not_valid ID specs).
Qed.

(** Overwriting a record without touching its ID or its indexed fields
    keeps the weak invariant. *)
Lemma weak_update w id b r b' r' :
  weakly_consistent ID must specs w ->
  w !! id = Some b -> json_Unmarshal b = Ok r ->
  json_Unmarshal b' = Ok r' -> ID r' = ID r ->
  (forall s : string * (R -> string), s ∈ specs -> s.2 r' = s.2 r) ->
  must ⊆ specs ->
  weakly_consistent ID must specs (<[id := b']> w).
Proof.
  intros Hw Hid Hr Hr' Hsame Hflds Hsub.
  destruct (weak_record _ _ _ _ Hw Hid Hr) as (Hp & Hidr & Hv).
  assert (forall s, s ∈ specs -> index_key ID s r' = index_key ID s r)
    as Hkeys.
  { intros s Hs. unfold index_key. by rewrite Hsame, Hflds. }
  intros k v Hk. destruct (decide (k = id)) as [->|Hne].
  - rewrite lookup_insert_eq in Hk. injection Hk as <-. left.
    destruct Hp as (r0 & Hr0 & _ & Hne & _ & Hall).
    assert (r0 = r) as -> by congruence.
    exists r'. split_and!; try done; [congruence|].
    intros s Hs. destruct (Hall s Hs) as (key & Hkey & Hin).
    exists key. rewrite Hkeys by (by apply Hsub). split; [done|].
    rewrite lookup_insert_ne; [done|].
    intros <-. by eapply index_key_not_valid.
  - rewrite lookup_insert_ne in Hk by done.
    destruct (Hw k v Hk) as [Hp'|Hi].
    + left. destruct Hp' as (r0 & Hr0 & Hid0 & Hne0 & Hv0 & Hall).
      exists r0. split_and!; try done.
      intros s Hs. destruct (Hall s Hs) as (key & Hkey & Hin).
      exists key. split; [done|].
      rewrite lookup_insert_ne; [done|].
      intros <-. by eapply index_key_not_valid.
    + right. destruct Hi as (-> & s & r0 & b0 & Hs & Hb0 & Hr0 & Hkey).
      split; [done|].
      destruct (decide (ID r0 = id)) as [Heq|Hneq].
      * rewrite Heq in Hb0. assert (r0 = r) as -> by congruence.
        exists s, r', b'. split_and!; try done.
        -- rewrite Hsame, Hidr. apply lookup_insert_eq.
        -- by rewrite Hkeys.
      * exists s, r0, b0. split_and!; try done.
        by rewrite lookup_insert_ne.
Qed.

End weak_index_theory.

Section weak_index_maintenance.
Import shim.
Context {R : Type} `{Json R} `{!JsonLaws R}.
Variable ID : R -> string.
Variable must specs : list (string * (R -> string)).

Lemma weak_empty : weakly_consistent ID must specs ∅.
Proof. intros k v Hk. by rewrite lookup_empty in Hk. Qed.

Lemma weak_put_all w r b (keys : list string) :
  weakly_consistent ID must specs w ->
  w !! ID r = None -> ID r <> "" -> valid (ID r) ->
  json_Unmarshal b = Ok r ->
  (forall key, key ∈ keys ->
     exists s, s ∈ specs /\ index_key ID s r = Ok key) ->
  (forall s, s ∈ must -> exists key, key ∈ keys /\ index_key ID s r = Ok key) ->
  weakly_consistent ID must specs (put_all keys (<[ID r := b]> w)).
Proof.
  intros Hw Hfresh Hne Hv Hb Hkeys Hmust.
  eapply weak_create; try done.
  intros k. rewrite lookup_put_all. case_decide; [done|].
  case_decide as Hk; [rewrite Hk; apply lookup_insert_eq|].
  by rewrite lookup_insert_ne.
Qed.

Lemma weak_del_all w id b r keys :
  weakly_consistent ID must specs w ->
  w !! id = Some b -> json_Unmarshal b = Ok r ->
  Forall2 (fun s key => index_key ID s r = Ok key) specs keys ->
  weakly_consistent ID must specs (del_all keys (delete id w)).
Proof.
  intros Hw Hid Hr HF. eapply weak_delete; try done.
  intros k. rewrite lookup_del_all.
  destruct (decide (k ∈ keys)) as [Hin|Hnin].
  - rewrite decide_True; [done|]. by right.
  - destruct (decide (k = id)) as [->|Hk].
    + rewrite lookup_delete_eq. rewrite decide_True; [done|]. by left.
    + rewrite lookup_delete_ne by done. rewrite decide_False; [done|].
      by intros [?|?].
Qed.

End weak_index_maintenance.

Section instance_under_faults.
Import shim instance.
Context `{Json Instance} `{!JsonLaws Instance} `{StateDB}.

Lemma CreateInstance_weak instanceID labID classID config owner c c' :
  weakly_consistent ID [(index1, LabID)] instance_specs (state c) ->
  CreateInstance instanceID labID classID config owner c = (Ok tt, c') ->
  weakly_consistent ID [(index1, LabID)] instance_specs (state c').
Proof.
  intros Hw (b & k1 & k2 & Hfresh & Hne & Hb & Hk1 & Hk2 & Hs)
    %CreateInstance_Ok.
  pose proof (proj1 (CreateCompositeKey_Ok _ _ _ _) Hk1) as (_ & _ & Hv & _).
  set (i := mkInstance "instance" instanceID classID labID config owner).
  apply json_read_back in Hb.
  assert (forall s, s ∈ [(index1, LabID)] ->
            index_key ID s i = Ok k1) as Hfirst
    by (by intros s ->%list_elem_of_singleton).
  destruct Hs as [->|(k3 & Hk3 & ->)];
    apply (weak_put_all ID _ _ (state c) i b); try done.
  - intros key ->%list_elem_of_singleton.
    exists (index1, LabID). split; [by left|done].
  - intros s Hs. exists k1. split; [by left|by apply Hfirst].
  - intros key Hin. by apply (spec_of_key ID instance_specs i [k1; k2; k3]);
      [apply instance_keys|].
  - intros s Hs. exists k1. split; [by left|by apply Hfirst].
Qed.

Lemma DeleteInstance_weak instanceID clientID c c' :
  weakly_consistent ID [(index1, LabID)] instance_specs (state c) ->
  DeleteInstance instanceID clientID c = (Ok tt, c') ->
  weakly_consistent ID [(index1, LabID)] instance_specs (state c').
Proof.
  intros Hw (b & i & k1 & k2 & k3 & Hb & Hi & _ & Hk1 & Hk2 & Hk3 & ->)
    %DeleteInstance_Ok.
  apply (weak_del_all ID _ instance_specs (state c) instanceID b i
           [k1; k2; k3]); try done.
  by apply instance_keys.
Qed.

Lemma createAll_instances_weak insts c c' :
  weakly_consistent ID [(index1, LabID)] instance_specs (state c) ->
  createAll insts c = (Ok tt, c') ->
  weakly_consistent ID [(index1, LabID)] instance_specs (state c').
Proof.
  revert c. induction insts as [|i insts IH]; intros c Hw Hrun.
  - by injection Hrun as <-.
  - cbn [createAll] in Hrun.
    apply bind_Ok in Hrun as ([] & c1 & Hi & Hrest).
    eapply IH; [|done]. by eapply CreateInstance_weak.
Qed.

Lemma instance_step_weak k cid fs w :
  weakly_consistent ID [(index1, LabID)] instance_specs w ->
  weakly_consistent ID [(index1, LabID)] instance_specs
    (invoke (instance_run k) cid fs w).2.
Proof.
  intros Hw.
  destruct instance_reads_readonly
    as (Hread & Hexists & Hrange & Hqc & Hql & Hqo).
  destruct k; cbn [instance_run];
    try (rewrite readonly_invoke by auto with readonly; exact Hw);
    unfold invoke;
    match goal with
    | |- context [?m (mkCtx cid w fs)] =>
        destruct (m (mkCtx cid w fs)) as [[[]|e] c'] eqn:Hrun
    end; try exact Hw; cbn [snd].
  - eapply CreateInstance_weak; [|exact Hrun]; exact Hw.
  - eapply DeleteInstance_weak; [|exact Hrun]; exact Hw.
  - eapply createAll_instances_weak; [|exact Hrun]; exact Hw.
Qed.

End instance_under_faults.

Section submission_under_faults.
Import shim submission.
Context `{Json Submission} `{!JsonLaws Submission} `{StateDB}.

Lemma CreateSubmission_weak submissionID labID classID content owner c c' :
  weakly_consistent ID [(index1, LabID)] submission_specs (state c) ->
  CreateSubmission submissionID labID classID content owner c = (Ok tt, c') ->
  weakly_consistent ID [(index1, LabID)] submission_specs (state c').
Proof.
  intros Hw (b & k1 & k2 & Hfresh & Hne & Hb & Hk1 & Hk2 & Hs)
    %CreateSubmission_Ok.
  pose proof (proj1 (CreateCompositeKey_Ok _ _ _ _) Hk1) as (_ & _ & Hv & _).
  set (i := mkSubmission "submission" submissionID classID labID content
              owner 0).
  apply json_read_back in Hb.
  assert (forall s, s ∈ [(index1, LabID)] ->
            index_key ID s i = Ok k1) as Hfirst
    by (by intros s ->%list_elem_of_singleton).
  destruct Hs as [->|(k3 & Hk3 & ->)];
    apply (weak_put_all ID _ _ (state c) i b); try done.
  - intros key ->%list_elem_of_singleton.
    exists (index1, LabID). split; [by left|done].
  - intros s Hs. exists k1. split; [by left|by apply Hfirst].
  - intros key Hin.
    by apply (spec_of_key ID submission_specs i [k1; k2; k3]);
      [apply submission_keys|].
  - intros s Hs. exists k1. split; [by left|by apply Hfirst].
Qed.

Lemma DeleteSubmission_weak submissionID c c' :
  weakly_consistent ID [(index1, LabID)] submission_specs (state c) ->
  DeleteSubmission submissionID c = (Ok tt, c') ->
  weakly_consistent ID [(index1, LabID)] submission_specs (state c').
Proof.
  intros Hw (b & i & k1 & k2 & k3 & Hb & Hi & Hk1 & Hk2 & Hk3 & ->)
    %DeleteSubmission_Ok.
  apply (weak_del_all ID _ submission_specs (state c) submissionID b i
           [k1; k2; k3]); try done.
  by apply submission_keys.
Qed.

Lemma UpdateSubmissionScore_weak submissionID newScore c c' :
  weakly_consistent ID [(index1, LabID)] submission_specs (state c) ->
  UpdateSubmissionScore submissionID newScore c = (Ok tt, c') ->
  weakly_consistent ID [(index1, LabID)] submission_specs (state c').
Proof.
  intros Hw (b & i & b' & Hb & Hi & Hb' & ->)%UpdateSubmissionScore_Ok.
  apply (weak_update ID _ submission_specs (state c) submissionID b i b'
           (mkSubmission (DocType i) (ID i) (ClassID i) (LabID i) (Content i)
              (Owner i) newScore)); try done.
  - by apply json_read_back.
  - intros s Hs. unfold submission_specs in Hs.
    apply elem_of_cons in Hs as [->|Hs]; [done|].
    apply elem_of_cons in Hs as [->|Hs]; [done|].
    by apply list_elem_of_singleton in Hs as ->.
  - intros s ->%list_elem_of_singleton. by left.
Qed.

Lemma createAll_submissions_weak ss c c' :
  weakly_consistent ID [(index1, LabID)] submission_specs (state c) ->
  createAll ss c = (Ok tt, c') ->
  weakly_consistent ID [(index1, LabID)] submission_specs (state c').
Proof.
  revert c. induction ss as [|i ss IH]; intros c Hw Hrun.
  - by injection Hrun as <-.
  - cbn [createAll] in Hrun.
    apply bind_Ok in Hrun as ([] & c1 & Hi & Hrest).
    eapply IH; [|done]. by eapply CreateSubmission_weak.
Qed.

Lemma submission_step_weak k cid fs w :
  weakly_consistent ID [(index1, LabID)] submission_specs w ->
  weakly_consistent ID [(index1, LabID)] submission_specs
    (invoke (submission_run k) cid fs w).2.
Proof.
  intros Hw.
  destruct submission_reads_readonly
    as (Hread & Hexists & Hrange & Hqc & Hql & Hqo).
  destruct k; cbn [submission_run];
    try (rewrite readonly_invoke by auto with readonly; exact Hw);
    unfold invoke;
    match goal with
    | |- context [?m (mkCtx cid w fs)] =>
        destruct (m (mkCtx cid w fs)) as [[[]|e] c'] eqn:Hrun
    end; try exact Hw; cbn [snd].
  - eapply CreateSubmission_weak; [|exact Hrun]; exact Hw.
  - eapply DeleteSubmission_weak; [|exact Hrun]; exact Hw.
  - eapply UpdateSubmissionScore_weak; [|exact Hrun]; exact Hw.
  - eapply createAll_submissions_weak; [|exact Hrun]; exact Hw.
Qed.

End submission_under_faults.

Section weak_invariant.
Context `{Json instance.Instance} `{!JsonLaws instance.Instance}.
Context `{Json submission.Submission} `{!JsonLaws submission.Submission}.
Context `{shim.StateDB}.

(** X19. What the instance and submission contracts keep of the index
    invariant under any failures of the ledger.  In every world they reach
    from the empty one, every index entry is the entry of a stored record,
    keyed over the record's current field values, and every stored record
    has its [labID~name] entry: a failed index write can leave a record
    without its [classID~name] and [owner~name] entries, but no operation
    leaves an index entry without its record. *)
Theorem no_index_entry_without_its_record :
  (forall w,
     instance_reachable_under_faults w ->
     weakly_consistent instance.ID [(instance.index1, instance.LabID)]
       instance_specs w)
  /\ (forall w,
        submission_reachable_under_faults w ->
        weakly_consistent submission.ID
          [(submission.index1, submission.LabID)] submission_specs w).
Proof.
  split.
  - induction 1 as [|w k cid fs _ IH]; [apply weak_empty|].
    by apply instance_step_weak.
  - induction 1 as [|w k cid fs _ IH]; [apply weak_empty|].
    by apply submission_step_weak.
Qed.

End weak_invariant.

Lemma no_index_entry_without_its_record_witness :
  let k := call_CreateInstance "instance1" "lab1" "class1" "test" "Tom" in
  let w := (invoke (instance_run k) ledger.tom
              [None; None; None; Some "peer down"] ∅).2 in
  instance_reachable_under_faults w
  /\ weakly_consistent instance.ID [(instance.index1, instance.LabID)]
       instance_specs w.
Proof.
  intros k w.
  assert (instance_reachable_under_faults w) as Hr.
  { exact (instance_faulty_step ∅ k ledger.tom
             [None; None; None; Some "peer down"] instance_faulty_empty). }
  split; [exact Hr|].
  exact (proj1 no_index_entry_without_its_record w Hr).
Defined.

(** * Queries *)

Section queries.
Context `{Json lab.Lab} `{Json instance.Instance}
        `{Json submission.Submission} `{Json class.Class}.
Context `{shim.StateDB} `{Base64}.

(** X20. The queries never write.  Whatever the ledger or the state
    database answers, and whether they return records or fail, the reads,
    the existence checks, the scans and the rich and paginated queries of
    the four contracts leave the world state exactly as they found it. *)
Theorem queries_never_write :
  ((forall labID, readonly (lab.ReadLab labID))
   /\ readonly lab.ReadLabs
   /\ (forall labID, readonly (lab.LabExists labID))
   /\ (forall startKey endKey,
         readonly (lab.GetLabsByRange startKey endKey))
   /\ (forall queryString, readonly (lab.QueryLabs queryString))
   /\ (forall class, readonly (lab.QueryLabsByClass class))
   /\ (forall startKey endKey pageSize bookmark,
         readonly
           (lab.GetAssetsByRangeWithPagination startKey endKey pageSize
              bookmark))
   /\ (forall queryString pageSize bookmark,
         readonly
           (lab.QueryAssetsWithPagination queryString pageSize bookmark)))
  /\ ((forall instanceID, readonly (instance.ReadInstance instanceID))
      /\ (forall instanceID, readonly (instance.InstanceExists instanceID))
      /\ (forall startKey endKey,
            readonly (instance.GetInstanceByRange startKey endKey))
      /\ (forall class, readonly (instance.QueryInstanceByClass class))
      /\ (forall lab, readonly (instance.QueryInstanceByLab lab))
      /\ (forall owner, readonly (instance.QueryInstanceByOwner owner)))
  /\ ((forall submissionID,
         readonly (submission.ReadSubmission submissionID))
      /\ (forall submissionID,
            readonly (submission.SubmissionExists submissionID))
      /\ (forall startKey endKey,
            readonly (submission.GetSubmissionByRange startKey endKey))
      /\ (forall class, readonly (submission.QueryInstanceByClass class))
      /\ (forall lab, readonly (submission.QueryInstanceByLab lab))
      /\ (forall owner, readonly (submission.QueryInstanceByOwner owner)))
  /\ ((forall id, readonly (class.ReadClass id))
      /\ (forall id, readonly (class.ClassExists id))
      /\ readonly class.GetAllClassses
      /\ readonly class.GetSubmittingClientIdentity).
Proof.
  split_and!;
    first [apply lab_reads_readonly|apply instance_reads_readonly
          |apply submission_reads_readonly|apply class_reads_readonly].
Qed.

End queries.
